(** * IP-Scanner v2: a shallow embedding of the scan engine

    The development follows the Python sources module by module:
    - [Py]          the few Python string and integer primitives the code uses,
    - [IpAddress]   the part of CPython's [ipaddress] module the code calls,
    - [IpGenerator] ip_generator.py,
    - [VulnScanner] vuln_scanner.py,
    - [Scanner]     scanner.py (scan state, target parsing, the two workers),
    - [App]         app.py (the start and stop handlers).

    Python [dict]s used as maps are [gmap]s, tables whose order matters are
    association lists, integers are [Z], strings are byte strings: a
    [str] is taken by its UTF-8 encoding. *)

From Stdlib Require Import ZArith QArith Qround Ascii String List Lia.
From stdpp Require Import base option list strings gmap.

Open Scope Z_scope.

(* ===================================================================== *)
(** * Python primitives *)
(* ===================================================================== *)

Module Py.

(** Truthiness of a [str]: the empty string is falsy. *)
Definition truthy (s : string) : bool :=
  match s with EmptyString => false | _ => true end.

Definition is_digit (c : ascii) : bool :=
  let n := nat_of_ascii c in ((48 <=? n) && (n <=? 57))%nat.

Definition is_upper (c : ascii) : bool :=
  let n := nat_of_ascii c in ((65 <=? n) && (n <=? 90))%nat.

Definition is_lower (c : ascii) : bool :=
  let n := nat_of_ascii c in ((97 <=? n) && (n <=? 122))%nat.

Definition is_alnum (c : ascii) : bool :=
  is_digit c || is_upper c || is_lower c.

(** Whitespace by [str.isspace], which is what [str.strip()] removes: the
    one-byte characters U+0009 to U+000D, U+001C to U+001F and U+0020, *)
Definition is_space (c : ascii) : bool :=
  let n := nat_of_ascii c in
  ((n =? 32) || ((9 <=? n) && (n <=? 13)) || ((28 <=? n) && (n <=? 31)))%nat.

(** the two-byte characters U+0085 and U+00A0, *)
Definition is_space2 (a b : ascii) : bool :=
  let x := nat_of_ascii a in
  let y := nat_of_ascii b in
  ((x =? 194) && ((y =? 133) || (y =? 160)))%nat.

(** and the three-byte characters U+1680, U+2000 to U+200A, U+2028, U+2029,
    U+202F, U+205F and U+3000. *)
Definition is_space3 (a b c : ascii) : bool :=
  let x := nat_of_ascii a in
  let y := nat_of_ascii b in
  let z := nat_of_ascii c in
  (((x =? 225) && (y =? 154) && (z =? 128))
   || ((x =? 226) && (y =? 128)
       && (((128 <=? z) && (z <=? 138)) || (z =? 168) || (z =? 169)
           || (z =? 175)))
   || ((x =? 226) && (y =? 129) && (z =? 159))
   || ((x =? 227) && (y =? 128) && (z =? 128)))%nat.

(** A text that is one whitespace character. *)
Definition is_space_code (u : string) : bool :=
  match u with
  | String a EmptyString => is_space a
  | String a (String b EmptyString) => is_space2 a b
  | String a (String b (String c EmptyString)) => is_space3 a b c
  | _ => false
  end.

Definition lower_char (c : ascii) : ascii :=
  if is_upper c then ascii_of_nat (nat_of_ascii c + 32) else c.

(** [str.lower()] as the comparisons of the code see it: the letters A to
    Z are lowered, every other byte is kept. Python lowers a letter outside
    ASCII to text outside ASCII, except U+212A, lowered to [k], and U+0130,
    lowered to [i] and U+0307; none of the names and keywords that the
    code compares a lowered text with holds a [k] or ends in [i]. *)
Fixpoint lower (s : string) : string :=
  match s with
  | EmptyString => EmptyString
  | String c s' => String (lower_char c) (lower s')
  end.

Fixpoint forall_chars (p : ascii -> bool) (s : string) : bool :=
  match s with
  | EmptyString => true
  | String c s' => p c && forall_chars p s'
  end.

(** [c in s] for a one-character needle. *)
Fixpoint contains_char (c : ascii) (s : string) : bool :=
  match s with
  | EmptyString => false
  | String d s' => Ascii.eqb c d || contains_char c s'
  end.

Definition startswith (s p : string) : bool := String.prefix p s.

(** [needle in s] for an ASCII needle. *)
Fixpoint str_contains (needle s : string) : bool :=
  String.prefix needle s
  || match s with
     | EmptyString => false
     | String _ s' => str_contains needle s'
     end.

(** Drops leading whitespace characters, one, two or three bytes at a
    time. *)
Fixpoint lstrip (s : string) : string :=
  match s with
  | EmptyString => EmptyString
  | String a s1 =>
      if is_space a then lstrip s1
      else
        match s1 with
        | EmptyString => s
        | String b s2 =>
            if is_space2 a b then lstrip s2
            else
              match s2 with
              | EmptyString => s
              | String c s3 => if is_space3 a b c then lstrip s3 else s
              end
        end
  end.

(** Drops trailing whitespace characters: a byte is kept with what is kept
    after it, unless the two together are one whitespace character. *)
Fixpoint rstrip (s : string) : string :=
  match s with
  | EmptyString => EmptyString
  | String c s' =>
      let kept := String c (rstrip s') in
      if is_space_code kept then EmptyString else kept
  end.

Definition strip (s : string) : string := rstrip (lstrip s).

(** The bytes that follow the first byte of a character: none after
    0xxxxxxx, one after 110xxxxx, two after 1110xxxx, three after
    11110xxx. *)
Definition follow (c : ascii) : nat :=
  let n := nat_of_ascii c in
  if (240 <=? n)%nat then 3%nat
  else if (224 <=? n)%nat then 2%nat
  else if (192 <=? n)%nat then 1%nat
  else 0%nat.

(** A byte of the form 10xxxxxx. *)
Definition is_continuation (c : ascii) : bool :=
  let n := nat_of_ascii c in ((128 <=? n) && (n <? 192))%nat.

(** The characters of a text from a byte on, [pending] bytes of an open
    character being expected. *)
Fixpoint len_from (pending : nat) (s : string) : Z :=
  match s with
  | EmptyString => 0
  | String c s' =>
      match pending with
      | S p =>
          if is_continuation c then len_from p s'
          else 1 + len_from (follow c) s'
      | O => 1 + len_from (follow c) s'
      end
  end.

(** [len(s)]: the number of characters, not of bytes. *)
Definition len (s : string) : Z := len_from 0 s.

(** [s.split(sep)] for a one-character separator: every occurrence splits,
    empty fields are kept. *)
Fixpoint split_go (sep : ascii) (s cur : string) : list string :=
  match s with
  | EmptyString => [cur]
  | String c s' =>
      if Ascii.eqb c sep then cur :: split_go sep s' EmptyString
      else split_go sep s' (cur +:+ String c EmptyString)
  end.

Definition split (sep : ascii) (s : string) : list string :=
  split_go sep s EmptyString.

(** [re.split(r'[,\n]+', s)]: a maximal run of separators splits once; a
    run at either end leaves an empty first or last field. *)
Fixpoint re_split_go (is_sep : ascii -> bool) (s cur : string)
    (in_run : bool) : list string :=
  match s with
  | EmptyString => [cur]
  | String c s' =>
      if is_sep c then
        if in_run then re_split_go is_sep s' cur true
        else cur :: re_split_go is_sep s' EmptyString true
      else re_split_go is_sep s' (cur +:+ String c EmptyString) false
  end.

Definition re_split (is_sep : ascii -> bool) (s : string) : list string :=
  re_split_go is_sep s EmptyString false.

(** [sep.join(parts)]. *)
Fixpoint join (sep : string) (parts : list string) : string :=
  match parts with
  | [] => EmptyString
  | [p] => p
  | p :: rest => p +:+ sep +:+ join sep rest
  end.

Definition digit_char (d : Z) : ascii := ascii_of_nat (Z.to_nat (48 + d)).

Fixpoint str_digits (fuel : nat) (n : Z) (acc : string) : string :=
  match fuel with
  | O => acc
  | S fuel' =>
      let acc' := String (digit_char (n mod 10)) acc in
      if n / 10 =? 0 then acc' else str_digits fuel' (n / 10) acc'
  end.

(** [str(n)] for an [int]. *)
Definition str (n : Z) : string :=
  if n <? 0 then String "-"%char (str_digits (Z.to_nat (Z.log2 (- n)) + 1) (- n) EmptyString)
  else str_digits (Z.to_nat (Z.log2 n) + 1) n EmptyString.

(** [int(s, 10)] on a string of ASCII digits. *)
Definition int_of_digits (s : string) : Z :=
  fold_left (fun acc c => 10 * acc + (Z.of_nat (nat_of_ascii c) - 48))
            (list_ascii_of_string s) 0.

(** [range(lo, hi)]. *)
Definition range (lo hi : Z) : list Z :=
  map (fun i => lo + Z.of_nat i) (seq 0 (Z.to_nat (hi - lo))).

(** [range(lo, hi, step)] for a positive step, by repeated stepping. *)
Fixpoint range_step_go (fuel : nat) (lo hi step : Z) : list Z :=
  match fuel with
  | O => []
  | S fuel' => if lo <? hi then lo :: range_step_go fuel' (lo + step) hi step else []
  end.

Definition range_step (lo hi step : Z) : list Z :=
  range_step_go (Z.to_nat (hi - lo)) lo hi step.

(** [l[i:j]] for [0 <= i <= j]. *)
Definition slice {A : Type} (l : list A) (i j : Z) : list A :=
  firstn (Z.to_nat (j - i)) (skipn (Z.to_nat i) l).

(** [round(q)]: to the nearest integer, ties to even. The code rounds a
    [float], the quotient of the counter by the elapsed time in binary
    floating point; here the quotient is exact. *)
Definition round (q : Q) : Z :=
  let f := Qfloor q in
  match Qcompare (q - inject_Z f) (1 # 2) with
  | Lt => f
  | Gt => f + 1
  | Eq => if Z.even f then f else f + 1
  end.

End Py.

(* ===================================================================== *)
(** * CPython's [ipaddress] module, as far as the scanner calls it *)
(* ===================================================================== *)

Module IpAddress.

Definition IPV4LENGTH : Z := 32.
Definition ALL_ONES : Z := 2 ^ IPV4LENGTH - 1.

(** [_BaseV4._parse_octet]: [None] stands for the [ValueError]. *)
Definition parse_octet (octet_str : string) : option Z :=
  if negb (Py.truthy octet_str) then None
  else if negb (Py.forall_chars Py.is_digit octet_str) then None
  else if (3 <? String.length octet_str)%nat then None
  else if negb (String.eqb octet_str "0") && Py.startswith octet_str "0" then None
  else
    let octet_int := Py.int_of_digits octet_str in
    if 255 <? octet_int then None else Some octet_int.

(** [int.from_bytes(octets, 'big')]. *)
Definition from_bytes (octets : list Z) : Z :=
  fold_left (fun acc o => acc * 256 + o) octets 0.

(** [_BaseV4._ip_int_from_string]: [None] stands for [AddressValueError]. *)
Definition ip_int_from_string (ip_str : string) : option Z :=
  if negb (Py.truthy ip_str) then None
  else
    let octets := Py.split "."%char ip_str in
    if negb (length octets =? 4)%nat then None
    else from_bytes <$> mapM parse_octet octets.

(** [IPv4Address(address)] for a [str] argument. *)
Definition IPv4Address (address : string) : option Z :=
  if Py.contains_char "/"%char address then None
  else ip_int_from_string address.

(** [ip_int.to_bytes(4, 'big')]. *)
Definition to_bytes4 (ip_int : Z) : list Z :=
  [ Z.shiftr ip_int 24 mod 256; Z.shiftr ip_int 16 mod 256;
    Z.shiftr ip_int 8 mod 256; ip_int mod 256 ].

(** [_BaseV4._string_from_ip_int], that is [str(IPv4Address(ip_int))]. *)
Definition string_from_ip_int (ip_int : Z) : string :=
  Py.join "." (map Py.str (to_bytes4 ip_int)).

(** [_ip_int_from_prefix]. *)
Definition ip_int_from_prefix (prefixlen : Z) : Z :=
  Z.lxor ALL_ONES (Z.shiftr ALL_ONES prefixlen).

(** [_count_righthand_zero_bits(number, bits)]; the Python expression
    [(~number & (number-1)).bit_length()] counts the trailing zero bits. *)
Definition count_righthand_zero_bits (number bits : Z) : Z :=
  if number =? 0 then bits
  else
    let m := Z.land (Z.lnot number) (number - 1) in
    Z.min bits (if m =? 0 then 0 else Z.log2 m + 1).

(** [_prefix_from_ip_int]: [None] stands for the [ValueError]. *)
Definition prefix_from_ip_int (ip_int : Z) : option Z :=
  let trailing_zeroes := count_righthand_zero_bits ip_int IPV4LENGTH in
  let prefixlen := IPV4LENGTH - trailing_zeroes in
  let leading_ones := Z.shiftr ip_int trailing_zeroes in
  let all_ones := Z.shiftl 1 prefixlen - 1 in
  if negb (leading_ones =? all_ones) then None else Some prefixlen.

(** [_prefix_from_prefix_string]: [None] stands for [NetmaskValueError]. *)
Definition prefix_from_prefix_string (prefixlen_str : string) : option Z :=
  if negb (Py.truthy prefixlen_str && Py.forall_chars Py.is_digit prefixlen_str)
  then None
  else
    let prefixlen := Py.int_of_digits prefixlen_str in
    if negb ((0 <=? prefixlen) && (prefixlen <=? IPV4LENGTH)) then None
    else Some prefixlen.

(** [_prefix_from_ip_string]: a dotted netmask, or else a dotted hostmask. *)
Definition prefix_from_ip_string (ip_str : string) : option Z :=
  match ip_int_from_string ip_str with
  | None => None
  | Some ip_int =>
      match prefix_from_ip_int ip_int with
      | Some p => Some p
      | None => prefix_from_ip_int (Z.lxor ip_int ALL_ONES)
      end
  end.

(** [_make_netmask] for a [str] argument: the prefix length. *)
Definition make_netmask (arg : string) : option Z :=
  match prefix_from_prefix_string arg with
  | Some p => Some p
  | None => prefix_from_ip_string arg
  end.

Record IPv4Network := {
  network_address : Z;
  prefixlen : Z;
}.

Definition netmask (n : IPv4Network) : Z := ip_int_from_prefix (prefixlen n).
Definition hostmask (n : IPv4Network) : Z := Z.lxor (netmask n) ALL_ONES.
Definition broadcast_address (n : IPv4Network) : Z :=
  Z.lor (network_address n) (hostmask n).

(** [IPv4Network(address, strict)] for a [str] argument; [None] stands for
    the [ValueError] (of which the address and netmask errors are
    subclasses). *)
Definition make_IPv4Network (address : string) (strict : bool)
    : option IPv4Network :=
  let addr := Py.split "/"%char address in
  if (2 <? length addr)%nat then None
  else
    match addr with
    | [] => None
    | a :: rest =>
        match IPv4Address a with
        | None => None
        | Some packed =>
            match (match rest with
                   | [] => Some IPV4LENGTH
                   | mask :: _ => make_netmask mask
                   end) with
            | None => None
            | Some p =>
                let nm := ip_int_from_prefix p in
                if negb (Z.land packed nm =? packed) then
                  if strict then None
                  else Some {| network_address := Z.land packed nm; prefixlen := p |}
                else Some {| network_address := packed; prefixlen := p |}
            end
        end
    end.

(** [ip in network] ([_BaseNetwork.__contains__]). *)
Definition contains (n : IPv4Network) (ip : Z) : bool :=
  Z.land ip (netmask n) =? network_address n.

(** [network.hosts()]: the addresses strictly between the network and the
    broadcast address; a /31 yields both its addresses and a /32 its one. *)
Definition hosts (n : IPv4Network) : list Z :=
  if prefixlen n =? IPV4LENGTH - 1
  then Py.range (network_address n) (broadcast_address n + 1)
  else if prefixlen n =? IPV4LENGTH
  then [network_address n]
  else Py.range (network_address n + 1) (broadcast_address n).

(** The literal [ipaddress.IPv4Network("a.b.c.d/p")] of a source file. *)
Definition net (a b c d p : Z) : IPv4Network :=
  {| network_address := from_bytes [a; b; c; d]; prefixlen := p |}.

End IpAddress.

(* ===================================================================== *)
(** * ip_generator.py *)
(* ===================================================================== *)

Module IpGenerator.
Import IpAddress.

Definition EXCLUDED_NETWORKS : list IPv4Network :=
  [ net 0 0 0 0 8;
    net 10 0 0 0 8;
    net 100 64 0 0 10;
    net 127 0 0 0 8;
    net 169 254 0 0 16;
    net 172 16 0 0 12;
    net 192 0 0 0 24;
    net 192 0 2 0 24;
    net 192 88 99 0 24;
    net 192 168 0 0 16;
    net 198 18 0 0 15;
    net 198 51 100 0 24;
    net 203 0 113 0 24;
    net 224 0 0 0 4;
    net 240 0 0 0 4;
    net 255 255 255 255 32 ].

(** The [for] loop of [is_valid_global_ip]: the first network that
    contains the address decides. *)
Fixpoint is_valid_global_ip_in (networks : list IPv4Network) (ip : Z) : bool :=
  match networks with
  | [] => true
  | network :: rest =>
      if contains network ip then false else is_valid_global_ip_in rest ip
  end.

Definition is_valid_global_ip (ip : Z) : bool :=
  is_valid_global_ip_in EXCLUDED_NETWORKS ip.

(** [random.randint(a, b)]: some integer of [[a, b]], chosen by the raw
    value the generator supplies. *)
Definition randint (a b raw : Z) : Z := a + raw mod (b - a + 1).

(** [generate_random_ip]: the [while True] loop draws until a draw is
    valid. [entropy] is the generator's stream of raw values, [k] the
    number of values consumed so far; the result carries the new count.
    [None] means that [fuel] draws were all rejected. *)
Fixpoint generate_random_ip (fuel : nat) (entropy : nat -> Z) (k : nat)
    : option (string * nat) :=
  match fuel with
  | O => None
  | S fuel' =>
      let random_int := randint 1 0xFFFFFFFE (entropy k) in
      if is_valid_global_ip random_int
      then Some (string_from_ip_int random_int, S k)
      else generate_random_ip fuel' entropy (S k)
  end.

(** [generate_random_ips]. *)
Fixpoint generate_random_ips (count fuel : nat) (entropy : nat -> Z) (k : nat)
    : option (list string * nat) :=
  match count with
  | O => Some ([], k)
  | S count' =>
      match generate_random_ip fuel entropy k with
      | None => None
      | Some (ip, k') =>
          match generate_random_ips count' fuel entropy k' with
          | None => None
          | Some (ips, k'') => Some (ip :: ips, k'')
          end
      end
  end.

End IpGenerator.


(* ===================================================================== *)
(** * vuln_scanner.py *)
(* ===================================================================== *)

Module VulnScanner.

(** A finding is a [dict] with the keys [type], [name], [description] and
    [risk]; exposed-path findings also carry [path] and [status]. A key
    that may be absent is an [option]. *)
Record Finding := {
  f_type : string;
  f_name : string;
  f_description : string;
  f_risk : option string;
  f_path : option string;
  f_status : option Z;
}.

Record HeaderInfo := {
  h_name : string;
  h_description : string;
  h_risk : string;
}.

(** The [dict] is iterated with [.items()], in insertion order. *)
Definition SECURITY_HEADERS : list (string * HeaderInfo) :=
  [ ("Strict-Transport-Security",
     {| h_name := "HSTS";
        h_description := "HTTP Strict Transport Security が未設定。中間者攻撃のリスクあり。";
        h_risk := "medium" |});
    ("X-Frame-Options",
     {| h_name := "X-Frame-Options";
        h_description := "クリックジャッキング対策ヘッダーが未設定。";
        h_risk := "medium" |});
    ("X-Content-Type-Options",
     {| h_name := "X-Content-Type-Options";
        h_description := "MIMEスニッフィング対策ヘッダーが未設定。";
        h_risk := "low" |});
    ("Content-Security-Policy",
     {| h_name := "CSP";
        h_description := "Content Security Policy が未設定。XSS攻撃のリスクが増大。";
        h_risk := "medium" |});
    ("X-XSS-Protection",
     {| h_name := "X-XSS-Protection";
        h_description := "XSS保護ヘッダーが未設定。";
        h_risk := "low" |});
    ("Referrer-Policy",
     {| h_name := "Referrer-Policy";
        h_description := "リファラーポリシーが未設定。情報漏洩のリスク。";
        h_risk := "low" |});
    ("Permissions-Policy",
     {| h_name := "Permissions-Policy";
        h_description := "パーミッションポリシーが未設定。";
        h_risk := "low" |}) ].

Definition missing_header_finding (info : HeaderInfo) : Finding :=
  {| f_type := "missing_header";
     f_name := h_name info;
     f_description := h_description info;
     f_risk := Some (h_risk info);
     f_path := None;
     f_status := None |}.

(** [{k.lower() for k in headers.keys()}]. *)
Definition lowered_keys (headers : gmap string string) : gset string :=
  set_map Py.lower (dom headers).

(** One round of the [for] loop of [check_security_headers]. *)
Definition check_header (headers : gmap string string)
    (findings : list Finding) (item : string * HeaderInfo) : list Finding :=
  let '(header_name, info) := item in
  if bool_decide (Py.lower header_name ∉ lowered_keys headers)
  then findings ++ [missing_header_finding info]
  else findings.

Definition check_security_headers (headers : gmap string string)
    : list Finding :=
  fold_left (check_header headers) SECURITY_HEADERS [].

Record PathInfo := {
  p_path : string;
  p_name : string;
  p_risk : string;
}.

Definition SENSITIVE_PATHS : list PathInfo :=
  [ {| p_path := "/admin"; p_name := "管理パネル"; p_risk := "high" |};
    {| p_path := "/admin/"; p_name := "管理パネル"; p_risk := "high" |};
    {| p_path := "/administrator"; p_name := "管理パネル"; p_risk := "high" |};
    {| p_path := "/wp-admin"; p_name := "WordPress管理画面"; p_risk := "high" |};
    {| p_path := "/wp-login.php"; p_name := "WordPressログイン"; p_risk := "high" |};
    {| p_path := "/phpmyadmin"; p_name := "phpMyAdmin"; p_risk := "critical" |};
    {| p_path := "/phpmyadmin/"; p_name := "phpMyAdmin"; p_risk := "critical" |};
    {| p_path := "/cpanel"; p_name := "cPanel"; p_risk := "high" |};
    {| p_path := "/webmail"; p_name := "Webメール"; p_risk := "medium" |};
    {| p_path := "/.env"; p_name := "環境変数ファイル"; p_risk := "critical" |};
    {| p_path := "/.git/config"; p_name := "Git設定ファイル"; p_risk := "critical" |};
    {| p_path := "/.git/HEAD"; p_name := "Git HEADファイル"; p_risk := "critical" |};
    {| p_path := "/robots.txt"; p_name := "robots.txt"; p_risk := "info" |};
    {| p_path := "/sitemap.xml"; p_name := "サイトマップ"; p_risk := "info" |};
    {| p_path := "/.htaccess"; p_name := "Apache設定ファイル"; p_risk := "high" |};
    {| p_path := "/wp-config.php.bak"; p_name := "WP設定バックアップ"; p_risk := "critical" |};
    {| p_path := "/server-status"; p_name := "Apacheサーバーステータス"; p_risk := "medium" |};
    {| p_path := "/server-info"; p_name := "Apacheサーバー情報"; p_risk := "medium" |};
    {| p_path := "/.DS_Store"; p_name := "DS_Store"; p_risk := "low" |};
    {| p_path := "/backup.sql"; p_name := "SQLバックアップ"; p_risk := "critical" |};
    {| p_path := "/dump.sql"; p_name := "SQLダンプ"; p_risk := "critical" |};
    {| p_path := "/debug"; p_name := "デバッグページ"; p_risk := "high" |};
    {| p_path := "/api/swagger"; p_name := "Swagger UI"; p_risk := "medium" |};
    {| p_path := "/api/docs"; p_name := "API ドキュメント"; p_risk := "medium" |};
    {| p_path := "/elmah.axd"; p_name := "ELMAH エラーログ"; p_risk := "high" |};
    {| p_path := "/trace.axd"; p_name := "ASP.NET トレース"; p_risk := "high" |} ].

(** What one [session.get(url, ...)] of [check_path] ends in: an exception
    (connection error, timeout), or a response with its status and, when
    [resp.text()] is called, the body it returns ([None] if it raises). *)
Inductive Fetch :=
| FetchRaised
| FetchResponse (status : Z) (body : option string).

Definition exposed_name (path_info : PathInfo) : string :=
  p_name path_info +:+ " (" +:+ p_path path_info +:+ ")".

(** The inner coroutine [check_path]; [None] is Python's [None]. *)
Definition check_path (fetch : string -> Fetch) (base_url : string)
    (path_info : PathInfo) : option Finding :=
  let url := base_url +:+ p_path path_info in
  match fetch url with
  | FetchRaised => None
  | FetchResponse status body =>
      if status =? 200 then
        match body with
        | None => None
        | Some body =>
            let body_len := Py.len body in
            if 0 <? body_len then
              Some {| f_type := "exposed_path";
                      f_name := exposed_name path_info;
                      f_description :=
                        "パス " +:+ p_path path_info +:+ " がアクセス可能（"
                        +:+ Py.str status +:+ "）。" +:+ Py.str body_len
                        +:+ "バイトのレスポンス。";
                      f_risk := Some (p_risk path_info);
                      f_path := Some (p_path path_info);
                      f_status := Some status |}
            else None
        end
      else if status =? 403 then
        Some {| f_type := "exposed_path";
                f_name := exposed_name path_info;
                f_description :=
                  "パス " +:+ p_path path_info +:+ " が存在するがアクセス拒否（403）。";
                f_risk := Some "low";
                f_path := Some (p_path path_info);
                f_status := Some status |}
      else None
  end.

(** One round of the loop that keeps the [dict] results. *)
Definition keep_result (findings : list Finding) (result : option Finding)
    : list Finding :=
  match result with
  | Some finding => findings ++ [finding]
  | None => findings
  end.

(** [check_exposed_paths]: [asyncio.gather] returns one result per catalog
    entry, in catalog order; the semaphore bounds how many requests are in
    flight and does not change the results. *)
Definition check_exposed_paths (fetch : string -> Fetch) (base_url : string)
    : list Finding :=
  let results := map (check_path fetch base_url) SENSITIVE_PATHS in
  fold_left keep_result results [].

Definition RISK_LEVELS : list string :=
  ["critical"; "high"; "medium"; "low"; "info"].

Record Summary := {
  total : Z;
  risk_counts : gmap string Z;
  max_risk : string;
}.

Definition initial_risk_counts : gmap string Z :=
  list_to_map [("critical", 0); ("high", 0); ("medium", 0); ("low", 0); ("info", 0)].

(** One round of the counting loop: [f.get("risk", "info")], counted when
    it is a key of [risk_counts]. *)
Definition count_risk (risk_counts : gmap string Z) (f : Finding)
    : gmap string Z :=
  let risk := default "info" (f_risk f) in
  match risk_counts !! risk with
  | Some n => <[risk := n + 1]> risk_counts
  | None => risk_counts
  end.

(** The loop that looks for the first level with a positive count. Every
    level is a key of [risk_counts], so the lookup never raises. *)
Fixpoint first_positive (levels : list string) (risk_counts : gmap string Z)
    (max_risk : string) : string :=
  match levels with
  | [] => max_risk
  | level :: rest =>
      if 0 <? default 0 (risk_counts !! level) then level
      else first_positive rest risk_counts max_risk
  end.

Definition summarize_vulns (findings : list Finding) : Summary :=
  let risk_counts := fold_left count_risk findings initial_risk_counts in
  let max_risk := first_positive RISK_LEVELS risk_counts "info" in
  {| total := Z.of_nat (length findings);
     risk_counts := risk_counts;
     max_risk := max_risk |}.

(** ** The checks on the response itself *)

Definition DIRECTORY_LISTING_PATTERNS : list string :=
  [ "Index of /";
    "Directory listing for";
    "<title>Index of";
    "Parent Directory";
    "\[To Parent Directory\]" ].

Definition directory_listing_finding : Finding :=
  {| f_type := "directory_listing";
     f_name := "ディレクトリリスティング";
     f_description := "ディレクトリの一覧表示が有効。内部ファイル構造が露出。";
     f_risk := Some "medium";
     f_path := None;
     f_status := None |}.

Record TechPattern := {
  t_header : string;
  t_pattern : string;
  t_name : string;
  t_risk : string;
}.

Definition TECH_PATTERNS : list TechPattern :=
  [ {| t_header := "Server"; t_pattern := "Apache/(\d[\d.]*)";
       t_name := "Apache"; t_risk := "low" |};
    {| t_header := "Server"; t_pattern := "nginx/(\d[\d.]*)";
       t_name := "Nginx"; t_risk := "low" |};
    {| t_header := "Server"; t_pattern := "Microsoft-IIS/(\d[\d.]*)";
       t_name := "IIS"; t_risk := "low" |};
    {| t_header := "X-Powered-By"; t_pattern := "PHP/(\d[\d.]*)";
       t_name := "PHP"; t_risk := "medium" |};
    {| t_header := "X-Powered-By"; t_pattern := "ASP\.NET";
       t_name := "ASP.NET"; t_risk := "low" |};
    {| t_header := "X-Powered-By"; t_pattern := "Express";
       t_name := "Express.js"; t_risk := "low" |};
    {| t_header := "X-Powered-By"; t_pattern := "Next\.js";
       t_name := "Next.js"; t_risk := "low" |} ].

Record BodyTechPattern := {
  b_pattern : string;
  b_name : string;
  b_risk : string;
}.

(** The quotation mark, which the last body pattern holds four times. *)
Definition double_quote : string := String "034"%char EmptyString.

Definition BODY_TECH_PATTERNS : list BodyTechPattern :=
  [ {| b_pattern := "wp-content/"; b_name := "WordPress"; b_risk := "low" |};
    {| b_pattern := "Joomla!"; b_name := "Joomla"; b_risk := "low" |};
    {| b_pattern := "Drupal"; b_name := "Drupal"; b_risk := "low" |};
    {| b_pattern := "<meta name=\" +:+ double_quote +:+ "generator\"
                    +:+ double_quote +:+ " content=\" +:+ double_quote
                    +:+ "([^\" +:+ double_quote +:+ "]+)\" +:+ double_quote;
       b_name := "CMS Generator"; b_risk := "low" |} ].

(** The certificate data that [get_ssl_info] collects; a value may be
    Python's [None]. *)
Record SslInfo := {
  ssl_issuer : option string;
  ssl_expiry : option string;
  ssl_domain : option string;
}.

Definition http_finding : Finding :=
  {| f_type := "ssl_issue";
     f_name := "HTTP（非暗号化）";
     f_description := "HTTPS未使用。通信内容が平文で送受信される。";
     f_risk := Some "medium";
     f_path := None;
     f_status := None |}.

Definition expired_finding (expiry_str : string) : Finding :=
  {| f_type := "ssl_issue";
     f_name := "SSL証明書期限切れ";
     f_description := "証明書の有効期限が切れています（" +:+ expiry_str +:+ "）。";
     f_risk := Some "high";
     f_path := None;
     f_status := None |}.

Definition self_signed_finding (issuer : string) : Finding :=
  {| f_type := "ssl_issue";
     f_name := "自己署名証明書の疑い";
     f_description := "証明書の発行者が '" +:+ issuer +:+ "' — 自己署名の可能性。";
     f_risk := Some "medium";
     f_path := None;
     f_status := None |}.

Section Checks.

(** The library calls of the checks whose result is not computed here:
    - [re_search pattern text] is [re.search(pattern, text, re.IGNORECASE)]:
      [None] when nothing matches, and otherwise [match.group(1)] when
      [match.lastindex] is set;
    - [strptime text format] is [datetime.strptime], with [None] for its
      [ValueError], and [datetime_now] is [datetime.now()], both in
      microseconds. *)
Variable re_search : string -> string -> option (option string).
Variable strptime : string -> string -> option Z.
Variable datetime_now : Z.

(** The loop of [check_directory_listing]: the first pattern that matches
    adds the finding and ends the loop. *)
Fixpoint directory_listing_in (patterns : list string) (body : string)
    : list Finding :=
  match patterns with
  | [] => []
  | pattern :: rest =>
      match re_search pattern body with
      | Some _ => [directory_listing_finding]
      | None => directory_listing_in rest body
      end
  end.

Definition check_directory_listing (body : string) : list Finding :=
  directory_listing_in DIRECTORY_LISTING_PATTERNS body.

Definition tech_finding (name description risk : string) : Finding :=
  {| f_type := "tech_detected";
     f_name := name;
     f_description := description;
     f_risk := Some risk;
     f_path := None;
     f_status := None |}.

(** One round of the loop over [TECH_PATTERNS]: the findings and the set
    [detected] after it. *)
Definition check_header_tech (headers : gmap string string)
    (acc : list Finding * gset string) (tech : TechPattern)
    : list Finding * gset string :=
  let '(findings, detected) := acc in
  let header_val := default EmptyString (headers !! t_header tech) in
  if Py.truthy header_val then
    match re_search (t_pattern tech) header_val with
    | Some group =>
        let version := default EmptyString group in
        let name := Py.strip (t_name tech +:+ " " +:+ version) in
        if bool_decide (name ∉ detected) then
          (findings
           ++ [tech_finding name
                 ("バージョン情報が露出: " +:+ name +:+ "。攻撃者に有用な情報。")
                 (t_risk tech)],
           {[ name ]} ∪ detected)
        else acc
    | None => acc
    end
  else acc.

(** One round of the loop over [BODY_TECH_PATTERNS]. *)
Definition check_body_tech (body : string)
    (acc : list Finding * gset string) (tech : BodyTechPattern)
    : list Finding * gset string :=
  let '(findings, detected) := acc in
  match re_search (b_pattern tech) body with
  | Some group =>
      let extra := default EmptyString group in
      let name :=
        if Py.truthy extra then Py.strip (b_name tech +:+ " " +:+ extra)
        else b_name tech in
      if bool_decide (name ∉ detected) then
        (findings
         ++ [tech_finding name ("技術情報を検出: " +:+ name) (b_risk tech)],
         {[ name ]} ∪ detected)
      else acc
  | None => acc
  end.

Definition check_tech_fingerprint (headers : gmap string string)
    (body : string) : list Finding :=
  let acc := fold_left (check_header_tech headers) TECH_PATTERNS ([], ∅) in
  let acc :=
    if Py.truthy body then fold_left (check_body_tech body) BODY_TECH_PATTERNS acc
    else acc in
  fst acc.

(** [extract_tech_stack]. *)
Definition extract_tech_stack (findings : list Finding) : list string :=
  map f_name
      (List.filter (fun f => String.eqb (f_type f) "tech_detected") findings).

(** The loop over the two date formats: the first format that parses
    decides and ends the loop. *)
Fixpoint check_expiry (formats : list string) (expiry_str : string)
    : list Finding :=
  match formats with
  | [] => []
  | fmt :: rest =>
      match strptime expiry_str fmt with
      | Some expiry_date =>
          if expiry_date <? datetime_now then [expired_finding expiry_str]
          else []
      | None => check_expiry rest expiry_str
      end
  end.

(** [check_ssl_issues]. *)
Definition check_ssl_issues (ssl_info : SslInfo) (protocol : string)
    : list Finding :=
  if String.eqb protocol "http" then [http_finding]
  else
    let findings :=
      match ssl_expiry ssl_info with
      | Some expiry_str =>
          if Py.truthy expiry_str then
            check_expiry ["%b %d %H:%M:%S %Y %Z"; "%b  %d %H:%M:%S %Y %Z"]
                         expiry_str
          else []
      | None => []
      end in
    let issuer := default EmptyString (ssl_issuer ssl_info) in
    if Py.truthy issuer
       && existsb (fun kw => Py.str_contains kw (Py.lower issuer))
                  ["localhost"; "self-signed"; "test"; "example"]
    then findings ++ [self_signed_finding issuer]
    else findings.

(** [run_vuln_scan]: the five checks, in order. *)
Definition run_vuln_scan (fetch : string -> Fetch) (base_url : string)
    (headers : gmap string string) (body : string) (ssl_info : SslInfo)
    (protocol : string) : list Finding :=
  let all_findings := check_security_headers headers in
  let all_findings := all_findings ++ check_directory_listing body in
  let all_findings := all_findings ++ check_tech_fingerprint headers body in
  let all_findings := all_findings ++ check_ssl_issues ssl_info protocol in
  let exposed := check_exposed_paths fetch base_url in
  all_findings ++ exposed.

End Checks.

End VulnScanner.

(* ===================================================================== *)
(** * scanner.py *)
(* ===================================================================== *)

Module Scanner.

Inductive Mode := Random | Target.

(** The string stored under ["mode"]. *)
Definition mode_name (m : Mode) : string :=
  match m with Random => "random" | Target => "target" end.

(** The module-level [scan_state] dictionary, one field per key. *)
Record ScanState := {
  running : bool;
  total_scanned : Z;
  total_found : Z;
  current_rate : Z;
  start_time : option Q;
  mode : Mode;
  target_total : Z;
  target_done : Z;
}.

Definition initial_scan_state : ScanState :=
  {| running := false; total_scanned := 0; total_found := 0;
     current_rate := 0; start_time := None; mode := Random;
     target_total := 0; target_done := 0 |}.

(** [reset_scan_state] assigns every key. *)
Definition reset_scan_state (s : ScanState) : ScanState :=
  {| running := false; total_scanned := 0; total_found := 0;
     current_rate := 0; start_time := None; mode := Random;
     target_total := 0; target_done := 0 |}.

Definition set_running (b : bool) (s : ScanState) : ScanState :=
  {| running := b; total_scanned := total_scanned s;
     total_found := total_found s; current_rate := current_rate s;
     start_time := start_time s; mode := mode s;
     target_total := target_total s; target_done := target_done s |}.

Definition set_mode (m : Mode) (s : ScanState) : ScanState :=
  {| running := running s; total_scanned := total_scanned s;
     total_found := total_found s; current_rate := current_rate s;
     start_time := start_time s; mode := m;
     target_total := target_total s; target_done := target_done s |}.

Definition set_start_time (t : option Q) (s : ScanState) : ScanState :=
  {| running := running s; total_scanned := total_scanned s;
     total_found := total_found s; current_rate := current_rate s;
     start_time := t; mode := mode s;
     target_total := target_total s; target_done := target_done s |}.

Definition set_total_scanned (n : Z) (s : ScanState) : ScanState :=
  {| running := running s; total_scanned := n;
     total_found := total_found s; current_rate := current_rate s;
     start_time := start_time s; mode := mode s;
     target_total := target_total s; target_done := target_done s |}.

Definition set_total_found (n : Z) (s : ScanState) : ScanState :=
  {| running := running s; total_scanned := total_scanned s;
     total_found := n; current_rate := current_rate s;
     start_time := start_time s; mode := mode s;
     target_total := target_total s; target_done := target_done s |}.

Definition set_current_rate (n : Z) (s : ScanState) : ScanState :=
  {| running := running s; total_scanned := total_scanned s;
     total_found := total_found s; current_rate := n;
     start_time := start_time s; mode := mode s;
     target_total := target_total s; target_done := target_done s |}.

Definition set_target_total (n : Z) (s : ScanState) : ScanState :=
  {| running := running s; total_scanned := total_scanned s;
     total_found := total_found s; current_rate := current_rate s;
     start_time := start_time s; mode := mode s;
     target_total := n; target_done := target_done s |}.

Definition set_target_done (n : Z) (s : ScanState) : ScanState :=
  {| running := running s; total_scanned := total_scanned s;
     total_found := total_found s; current_rate := current_rate s;
     start_time := start_time s; mode := mode s;
     target_total := target_total s; target_done := n |}.

(** ** Target parsing *)

(** What [socket.gethostbyname] ends in. *)
Inductive Lookup :=
| Resolved (ip : string)
| GaiError
| OtherError.

(** The character class [[,\n]] of the splitting pattern. *)
Definition is_separator (c : ascii) : bool :=
  Ascii.eqb c ","%char || Ascii.eqb c "010"%char.

(** One label of the host name pattern:
    [[a-zA-Z0-9]([a-zA-Z0-9\-]*[a-zA-Z0-9])?]. *)
Definition last_char_ok (label : string) : bool :=
  match rev (list_ascii_of_string label) with
  | c :: _ => Py.is_alnum c
  | [] => false
  end.

Definition label_ok (label : string) : bool :=
  match label with
  | EmptyString => false
  | String c _ =>
      Py.is_alnum c
      && Py.forall_chars (fun d => Py.is_alnum d || Ascii.eqb d "-"%char) label
      && last_char_ok label
  end.

(** [re.match] of the host name pattern: two or more labels joined by
    dots. Labels hold no dot, so the split is the only way to match. *)
Definition looks_like_domain (hostname : string) : bool :=
  let labels := Py.split "."%char hostname in
  (2 <=? length labels)%nat && forallb label_ok labels.

Section Resolver.

(** The two library calls whose result is not a function of the text
    alone: the resolver, and [urlparse(part).hostname], where the outer
    [None] stands for an exception and the inner one for Python's
    [None]. *)
Variable gethostbyname : string -> Lookup.
Variable urlparse_hostname : string -> option (option string).

(** [_resolve_hostname]: the result and the updated cache; [None] is an
    exception other than [socket.gaierror], which is not caught here. *)
Definition resolve_hostname (hostname : string)
    (cache : gmap string (option string))
    : option (option string * gmap string (option string)) :=
  match cache !! hostname with
  | Some cached => Some (cached, cache)
  | None =>
      match gethostbyname hostname with
      | Resolved ip => Some (Some ip, <[hostname := Some ip]> cache)
      | GaiError => Some (None, <[hostname := None]> cache)
      | OtherError => None
      end
  end.

(** [ips.append(resolved_ip)] under [if resolved_ip:]. *)
Definition append_resolved (ips : list string) (resolved_ip : option string)
    : list string :=
  match resolved_ip with
  | Some ip => if Py.truthy ip then ips ++ [ip] else ips
  | None => ips
  end.

(** What the [try] block of the CIDR case ends in. *)
Inductive CidrOutcome :=
| CidrContinue (hosts : list string)
| CidrFallThrough.

(** The CIDR case. The first [if] of the block only holds [pass]. A
    [ValueError] of the constructor is caught and falls through. *)
Definition cidr_case (part : string) : CidrOutcome :=
  if Py.contains_char "/"%char part then
    match IpAddress.make_IPv4Network part false with
    | None => CidrFallThrough
    | Some network =>
        if IpAddress.prefixlen network <? 16 then CidrContinue []
        else CidrContinue
               (map IpAddress.string_from_ip_int (IpAddress.hosts network))
    end
  else CidrFallThrough.

Definition host_of (part : string) : string :=
  if Py.contains_char ":"%char part
  then hd EmptyString (Py.split ":"%char part)
  else part.

(** One round of the loop over [parts]: the list of addresses and the
    cache after it. [None] is an exception that leaves the function. *)
Definition parse_part (acc : list string * gmap string (option string))
    (part : string) : option (list string * gmap string (option string)) :=
  let '(ips, cache) := acc in
  let part := Py.strip part in
  if negb (Py.truthy part) then Some acc
  else if Py.startswith part "http://" || Py.startswith part "https://" then
    match urlparse_hostname part with
    | Some (Some hostname) =>
        if Py.truthy hostname then
          match resolve_hostname hostname cache with
          | Some (resolved_ip, cache') =>
              Some (append_resolved ips resolved_ip, cache')
          | None => Some acc
          end
        else Some acc
    | Some None => Some acc
    | None => Some acc
    end
  else
    match cidr_case part with
    | CidrContinue hosts => Some (ips ++ hosts, cache)
    | CidrFallThrough =>
        match IpAddress.IPv4Address part with
        | Some ip => Some (ips ++ [IpAddress.string_from_ip_int ip], cache)
        | None =>
            let hostname := host_of part in
            if looks_like_domain hostname then
              match resolve_hostname hostname cache with
              | Some (resolved_ip, cache') =>
                  Some (append_resolved ips resolved_ip, cache')
              | None => None
              end
            else Some acc
        end
    end.

Fixpoint parse_parts (parts : list string)
    (acc : list string * gmap string (option string))
    : option (list string * gmap string (option string)) :=
  match parts with
  | [] => Some acc
  | part :: rest =>
      match parse_part acc part with
      | Some acc' => parse_parts rest acc'
      | None => None
      end
  end.

(** [parse_target_ips]; [None] is an exception that leaves it. *)
Definition parse_target_ips (target_input : string) : option (list string) :=
  let parts := Py.re_split is_separator (Py.strip target_input) in
  fst <$> parse_parts parts ([], ∅).

End Resolver.

(** ** The vulnerability fields of a probe *)

(** ["https" if port in (443, 8443) else "http"]. *)
Definition protocol_of (port : Z) : string :=
  if (port =? 443) || (port =? 8443) then "https" else "http".

(** The block of [scan_single_ip] under [if run_vuln_check:]: the findings
    that are stored, [vuln_count] and [vuln_max_risk]. [findings] is what
    [run_vuln_scan] returned, [None] when it raised. *)
Definition vuln_fields (run_vuln_check : bool)
    (findings : option (list VulnScanner.Finding))
    : option (list VulnScanner.Finding) * Z * string :=
  if run_vuln_check then
    match findings with
    | Some ((_ :: _) as findings) =>
        let vuln_summary := VulnScanner.summarize_vulns findings in
        (Some findings, VulnScanner.total vuln_summary,
         VulnScanner.max_risk vuln_summary)
    | _ => (None, 0, "info")
    end
  else (None, 0, "info").

Section Probe.

Variable re_search : string -> string -> option (option string).
Variable strptime : string -> string -> option Z.
Variable datetime_now : Z.
Variable fetch : string -> VulnScanner.Fetch.
(** [get_ssl_info(ip, port)]. *)
Variable get_ssl_info : string -> Z -> VulnScanner.SslInfo.

(** What [scan_single_ip] makes of a response for the three vulnerability
    fields of its result: the protocol is chosen by the port, the
    certificate is read for HTTPS only, and the scan runs on the headers
    and the body of the response. *)
Definition scan_single_ip_vulns (ip : string) (port : Z)
    (headers : gmap string string) (body : string) (run_vuln_check : bool)
    : option (list VulnScanner.Finding) * Z * string :=
  let protocol := protocol_of port in
  let url := protocol +:+ "://" +:+ ip +:+ ":" +:+ Py.str port in
  let ssl_info :=
    if String.eqb protocol "https" then get_ssl_info ip port
    else {| VulnScanner.ssl_issuer := None; VulnScanner.ssl_expiry := None;
            VulnScanner.ssl_domain := None |} in
  vuln_fields run_vuln_check
    (Some (VulnScanner.run_vuln_scan re_search strptime datetime_now fetch
             url headers body ssl_info protocol)).

End Probe.

(** ** The subscribers of [notify_ws] *)

(** [ws_connections.remove(ws)]: the first occurrence goes; [None] is the
    [ValueError] for a connection that is not in the list. Connections are
    compared by identity, here by a number. *)
Fixpoint list_remove (ws : nat) (ws_connections : list nat)
    : option (list nat) :=
  match ws_connections with
  | [] => None
  | c :: rest =>
      if (c =? ws)%nat then Some rest else cons c <$> list_remove ws rest
  end.

(** The first loop of [notify_ws]: the connections on which [send_text]
    raises. [send_raises i ws] says whether the i-th send of the call, to
    the connection [ws], raises. *)
Fixpoint disconnected_from (send_raises : nat -> nat -> bool) (i : nat)
    (ws_connections : list nat) : list nat :=
  match ws_connections with
  | [] => []
  | ws :: rest =>
      if send_raises i ws then ws :: disconnected_from send_raises (S i) rest
      else disconnected_from send_raises (S i) rest
  end.

(** The second loop of [notify_ws]. *)
Fixpoint remove_all (disconnected : list nat) (ws_connections : list nat)
    : option (list nat) :=
  match disconnected with
  | [] => Some ws_connections
  | ws :: rest =>
      match list_remove ws ws_connections with
      | Some ws_connections' => remove_all rest ws_connections'
      | None => None
      end
  end.

(** What a call of [notify_ws] leaves of the list [ws_connections], when
    no other task changes the list during the call. *)
Definition notify_ws_connections (send_raises : nat -> nat -> bool)
    (ws_connections : list nat) : option (list nat) :=
  match ws_connections with
  | [] => Some ws_connections
  | _ =>
      let disconnected := disconnected_from send_raises 0 ws_connections in
      remove_all disconnected ws_connections
  end.

(** ** Probe results and published messages *)

(** The [dict] that [scan_single_ip] returns, with the ["id"] key that the
    workers add after saving. *)
Record ProbeResult := {
  r_ip : string;
  r_port : Z;
  r_protocol : string;
  r_status_code : Z;
  r_title : string;
  r_server : string;
  r_ssl_issuer : option string;
  r_ssl_expiry : option string;
  r_ssl_domain : option string;
  r_hostname : option string;
  r_country : option string;
  r_country_code : option string;
  r_screenshot_path : option string;
  r_response_time_ms : Z;
  r_headers : string;
  r_vulnerabilities : option string;
  r_vuln_count : Z;
  r_vuln_max_risk : string;
  r_scanned_at : string;
  r_id : option Z;
}.

(** [result["id"] = result_id]. *)
Definition with_id (r : ProbeResult) (id : Z) : ProbeResult :=
  {| r_ip := r_ip r; r_port := r_port r; r_protocol := r_protocol r;
     r_status_code := r_status_code r; r_title := r_title r;
     r_server := r_server r; r_ssl_issuer := r_ssl_issuer r;
     r_ssl_expiry := r_ssl_expiry r; r_ssl_domain := r_ssl_domain r;
     r_hostname := r_hostname r; r_country := r_country r;
     r_country_code := r_country_code r;
     r_screenshot_path := r_screenshot_path r;
     r_response_time_ms := r_response_time_ms r; r_headers := r_headers r;
     r_vulnerabilities := r_vulnerabilities r;
     r_vuln_count := r_vuln_count r; r_vuln_max_risk := r_vuln_max_risk r;
     r_scanned_at := r_scanned_at r; r_id := Some id |}.

(** The ["data"] of a status message; the target worker adds the two
    target counters. *)
Record StatusData := {
  sd_running : bool;
  sd_total_scanned : Z;
  sd_total_found : Z;
  sd_current_rate : Z;
  sd_mode : string;
  sd_target : option (Z * Z);
}.

Inductive Message :=
| MsgResult (data : ProbeResult)
| MsgStatus (data : StatusData).

(** ** The workers *)

(** What a worker does that the rest of the system can see, in order. *)
Inductive Obs :=
| ObsDispatch (tasks : list (string * Z))
| ObsJoin (results : list (option ProbeResult))
| ObsSave (result : ProbeResult) (id : Z)
| ObsNotify (message : Message).

(** Everything a worker depends on and does not decide:
    - [entropy]: the raw values of the random generator,
    - [probe]: what the n-th call of [scan_single_ip] returns for an
      address, a port and the two flags ([None] when no service answers),
    - [clock]: the successive readings of [time.time()],
    - [interfere]: what the other tasks of the event loop do to
      [scan_state] while the worker is suspended for the n-th time,
    - [row_id]: the identifier [save_result] returns for the n-th row. *)
Record World := {
  entropy : nat -> Z;
  probe : nat -> string -> Z -> bool -> bool -> option ProbeResult;
  clock : nat -> Q;
  interfere : nat -> ScanState -> ScanState;
  row_id : nat -> Z;
}.

(** The state of one worker run: the shared [scan_state], how much of each
    stream of the world is used up, and what was observed so far. *)
Record Run := {
  scan_state : ScanState;
  draws : nat;
  probes : nat;
  reads : nat;
  suspensions : nat;
  saves : nat;
  trace : list Obs;
}.

(** A worker step: the result and the next run state, or [None] when the
    step does not finish within its fuel. *)
Definition M (A : Type) : Type := Run -> option (A * Run).

#[global] Instance M_ret : MRet M := fun A a r => Some (a, r).

#[global] Instance M_bind : MBind M := fun A B f m r =>
  match m r with
  | Some (a, r') => f a r'
  | None => None
  end.

Definition get_state : M ScanState := fun r => Some (scan_state r, r).

Definition update (f : ScanState -> ScanState) : M unit := fun r =>
  Some (tt, {| scan_state := f (scan_state r); draws := draws r;
               probes := probes r; reads := reads r;
               suspensions := suspensions r; saves := saves r;
               trace := trace r |}).

Definition emit (o : Obs) : M unit := fun r =>
  Some (tt, {| scan_state := scan_state r; draws := draws r;
               probes := probes r; reads := reads r;
               suspensions := suspensions r; saves := saves r;
               trace := trace r ++ [o] |}).

(** The step that does not finish. *)
Definition out_of_fuel {A : Type} : M A := fun _ => None.

Section Worker.

Variable w : World.
(** How many draws one call of [generate_random_ip] may take. *)
Variable draw_fuel : nat.

(** An [await] that gives control to the event loop: the other tasks
    run, then the worker resumes. *)
Definition suspend : M unit := fun r =>
  Some (tt, {| scan_state := interfere w (suspensions r) (scan_state r);
               draws := draws r; probes := probes r; reads := reads r;
               suspensions := S (suspensions r); saves := saves r;
               trace := trace r |}).

(** [time.time()]. *)
Definition time_time : M Q := fun r =>
  Some (clock w (reads r),
        {| scan_state := scan_state r; draws := draws r;
           probes := probes r; reads := S (reads r);
           suspensions := suspensions r; saves := saves r;
           trace := trace r |}).

(** [generate_random_ip()]. *)
Definition random_ip : M string := fun r =>
  match IpGenerator.generate_random_ip draw_fuel (entropy w) (draws r) with
  | Some (ip, k) =>
      Some (ip, {| scan_state := scan_state r; draws := k;
                   probes := probes r; reads := reads r;
                   suspensions := suspensions r; saves := saves r;
                   trace := trace r |})
  | None => None
  end.

(** The outcomes of the probes of one batch, numbered from [n]. *)
Fixpoint run_probes (n : nat) (tasks : list (string * Z))
    (take_screenshots run_vuln_check : bool) : list (option ProbeResult) :=
  match tasks with
  | [] => []
  | (ip, port) :: rest =>
      probe w n ip port take_screenshots run_vuln_check
      :: run_probes (S n) rest take_screenshots run_vuln_check
  end.

(** [await asyncio.gather] over the tasks of a batch: the probes
    are started, the worker is suspended until all of them are done, and
    their results come back in the order of [tasks]. A probe that raised
    is not a [dict] and counts as [None]. *)
Definition gather (tasks : list (string * Z))
    (take_screenshots run_vuln_check : bool)
    : M (list (option ProbeResult)) :=
  emit (ObsDispatch tasks);;
  suspend;;
  results ← (fun r =>
    Some (run_probes (probes r) tasks take_screenshots run_vuln_check,
          {| scan_state := scan_state r; draws := draws r;
             probes := (probes r + length tasks)%nat; reads := reads r;
             suspensions := suspensions r; saves := saves r;
             trace := trace r |}));
  emit (ObsJoin results);;
  mret results.

(** [await save_result(result)]: the storage collaborator. *)
Definition save_result (result : ProbeResult) : M Z :=
  suspend;;
  id ← (fun r =>
    Some (row_id w (saves r),
          {| scan_state := scan_state r; draws := draws r;
             probes := probes r; reads := reads r;
             suspensions := suspensions r; saves := S (saves r);
             trace := trace r |}));
  emit (ObsSave result id);;
  mret id.

(** [await notify_ws(data)]: the message is handed to the subscribers;
    sending may suspend the worker. *)
Definition notify_ws (data : Message) : M unit :=
  emit (ObsNotify data);;
  suspend.

(** [await asyncio.sleep(0.01)]. *)
Definition sleep : M unit := suspend.

(** Leaving [async with aiohttp.ClientSession(...)] closes the session. *)
Definition close_session : M unit := suspend.

(** *** [scan_worker] *)

(** The loop that builds the tasks of one batch. No [await] occurs in
    it, so the flag it tests cannot change while it runs. *)
Fixpoint build_tasks (n : nat) (ports : list Z) (tasks : list (string * Z))
    : M (list (string * Z)) :=
  match n with
  | O => mret tasks
  | S n' =>
      s ← get_state;
      if negb (running s) then mret tasks
      else
        ip ← random_ip;
        build_tasks n' ports (tasks ++ map (fun port => (ip, port)) ports)
  end.

(** The loop over the results of a batch in [scan_worker]. *)
Fixpoint handle_results (results : list (option ProbeResult)) : M unit :=
  match results with
  | [] => mret tt
  | result :: rest =>
      s ← get_state;
      if negb (running s) then mret tt
      else
        match result with
        | Some result =>
            result_id ← save_result result;
            update (fun s => set_total_found (total_found s + 1) s);;
            notify_ws (MsgResult (with_id result result_id))
        | None => mret tt
        end;;
        handle_results rest
  end.

Definition random_status (s : ScanState) : StatusData :=
  {| sd_running := running s; sd_total_scanned := total_scanned s;
     sd_total_found := total_found s; sd_current_rate := current_rate s;
     sd_mode := mode_name (mode s); sd_target := None |}.

Definition random_final_status (s : ScanState) : StatusData :=
  {| sd_running := false; sd_total_scanned := total_scanned s;
     sd_total_found := total_found s; sd_current_rate := 0;
     sd_mode := mode_name (mode s); sd_target := None |}.

(** The body of the [while] loop of [scan_worker]: one batch. It
    returns the two local rate variables. *)
Definition scan_worker_round (ports : list Z)
    (take_screenshots run_vuln_check : bool)
    (rate_counter : Z) (rate_start : Q) : M (Z * Q) :=
  tasks ← build_tasks 50 ports [];
  results ← gather tasks take_screenshots run_vuln_check;
  handle_results results;;
  let scanned_count := Z.of_nat (length tasks) in
  update (fun s => set_total_scanned (total_scanned s + scanned_count) s);;
  let rate_counter := rate_counter + scanned_count in
  now ← time_time;
  let elapsed := (now - rate_start)%Q in
  rate ←
    (if Qle_bool 1 elapsed then
       update (set_current_rate (Py.round (inject_Z rate_counter / elapsed)));;
       rate_start' ← time_time;
       s ← get_state;
       notify_ws (MsgStatus (random_status s));;
       mret (0, rate_start')
     else mret (rate_counter, rate_start));
  sleep;;
  mret rate.

(** The [while scan_state["running"]] loop; [rounds] bounds the number
    of batches. *)
Fixpoint scan_worker_loop (rounds : nat) (ports : list Z)
    (take_screenshots run_vuln_check : bool)
    (rate_counter : Z) (rate_start : Q) : M unit :=
  s ← get_state;
  if negb (running s) then mret tt
  else
    match rounds with
    | O => out_of_fuel
    | S rounds' =>
        '(rate_counter', rate_start') ←
          scan_worker_round ports take_screenshots run_vuln_check
                            rate_counter rate_start;
        scan_worker_loop rounds' ports take_screenshots run_vuln_check
                         rate_counter' rate_start'
    end.

Definition scan_worker (rounds : nat) (ports : list Z)
    (take_screenshots run_vuln_check : bool) : M unit :=
  rate_start ← time_time;
  scan_worker_loop rounds ports take_screenshots run_vuln_check 0 rate_start;;
  close_session;;
  s ← get_state;
  notify_ws (MsgStatus (random_final_status s)).

(** *** [scan_target_worker] *)

(** The loop over the results of a batch in [scan_target_worker]. *)
Fixpoint handle_target_results (results : list (option ProbeResult))
    : M unit :=
  match results with
  | [] => mret tt
  | result :: rest =>
      s ← get_state;
      if negb (running s) then mret tt
      else
        update (fun s => set_target_done (target_done s + 1) s);;
        match result with
        | Some result =>
            result_id ← save_result result;
            update (fun s => set_total_found (total_found s + 1) s);;
            notify_ws (MsgResult (with_id result result_id))
        | None => mret tt
        end;;
        handle_target_results rest
  end.

Definition target_status (s : ScanState) : StatusData :=
  {| sd_running := running s; sd_total_scanned := total_scanned s;
     sd_total_found := total_found s; sd_current_rate := current_rate s;
     sd_mode := "target";
     sd_target := Some (target_total s, target_done s) |}.

Definition target_final_status (s : ScanState) : StatusData :=
  {| sd_running := false; sd_total_scanned := total_scanned s;
     sd_total_found := total_found s; sd_current_rate := 0;
     sd_mode := "target";
     sd_target := Some (target_total s, target_done s) |}.

(** [[(ip, port) for ip in target_ips for port in ports]]. *)
Definition all_tasks_of (target_ips : list string) (ports : list Z)
    : list (string * Z) :=
  flat_map (fun ip => map (fun port => (ip, port)) ports) target_ips.

(** The batches [all_tasks[i:i + batch_size]] for
    [i in range(0, len(all_tasks), batch_size)]. *)
Definition target_batches (all_tasks : list (string * Z))
    : list (list (string * Z)) :=
  let batch_size := 20 in
  map (fun i => Py.slice all_tasks i (i + batch_size))
      (Py.range_step 0 (Z.of_nat (length all_tasks)) batch_size).

(** The body of the [for] loop of [scan_target_worker], after its test
    of the flag: one batch. *)
Definition scan_target_round (batch : list (string * Z))
    (take_screenshots run_vuln_check : bool)
    (rate_counter : Z) (rate_start : Q) : M (Z * Q) :=
  results ← gather batch take_screenshots run_vuln_check;
  handle_target_results results;;
  let scanned_count := Z.of_nat (length batch) in
  update (fun s => set_total_scanned (total_scanned s + scanned_count) s);;
  let rate_counter := rate_counter + scanned_count in
  now ← time_time;
  let elapsed := (now - rate_start)%Q in
  rate ←
    (if Qle_bool 1 elapsed then
       update (set_current_rate (Py.round (inject_Z rate_counter / elapsed)));;
       rate_start' ← time_time;
       mret (0, rate_start')
     else mret (rate_counter, rate_start));
  s ← get_state;
  notify_ws (MsgStatus (target_status s));;
  sleep;;
  mret rate.

Fixpoint scan_target_loop (batches : list (list (string * Z)))
    (take_screenshots run_vuln_check : bool)
    (rate_counter : Z) (rate_start : Q) : M unit :=
  match batches with
  | [] => mret tt
  | batch :: rest =>
      s ← get_state;
      if negb (running s) then mret tt
      else
        '(rate_counter', rate_start') ←
          scan_target_round batch take_screenshots run_vuln_check
                            rate_counter rate_start;
        scan_target_loop rest take_screenshots run_vuln_check
                         rate_counter' rate_start'
  end.

Definition scan_target_worker (target_ips : list string) (ports : list Z)
    (take_screenshots run_vuln_check : bool) : M unit :=
  update (set_target_total
            (Z.of_nat (length target_ips) * Z.of_nat (length ports)));;
  update (set_target_done 0);;
  rate_start ← time_time;
  scan_target_loop (target_batches (all_tasks_of target_ips ports))
                   take_screenshots run_vuln_check 0 rate_start;;
  close_session;;
  update (set_running false);;
  s ← get_state;
  notify_ws (MsgStatus (target_final_status s)).

End Worker.

(** A run that starts from a given [scan_state] with nothing used up. *)
Definition start_run (s : ScanState) : Run :=
  {| scan_state := s; draws := 0; probes := 0; reads := 0;
     suspensions := 0; saves := 0; trace := [] |}.

End Scanner.

(* ===================================================================== *)
(** * app.py *)
(* ===================================================================== *)

Module App.
Import Scanner.

Record ScanStartRequest := {
  ports : list Z;
  take_screenshots : bool;
  run_vuln_check : bool;
}.

Record TargetScanRequest := {
  targets : string;
  t_ports : list Z;
  t_take_screenshots : bool;
  t_run_vuln_check : bool;
}.

(** The worker handed to [asyncio.create_task], with its arguments. *)
Inductive Task :=
| RandomTask (ports : list Z) (take_screenshots run_vuln_check : bool)
| TargetTask (target_ips : list string) (ports : list Z)
             (take_screenshots run_vuln_check : bool).

(** What a handler answers: a [JSONResponse] with status 400 and an
    ["error"], one of the three success bodies, or the server error that
    the framework makes of an exception the handler does not catch. *)
Inductive Response :=
| BadRequest (error : string)
| StartedRandom (ports : list Z)
| StartedTarget (ports : list Z) (target_count total_scans : Z)
| Stopped
| ServerError.

(** [p in (80, 443, 8080, 8443)]. *)
Definition valid_port (p : Z) : bool :=
  (p =? 80) || (p =? 443) || (p =? 8080) || (p =? 8443).

Definition already_running : string := "スキャンは既に実行中です".

(** The assignments of both start handlers once the request is accepted;
    [now] is the reading of [time.time()]. *)
Definition begin_scan (m : Mode) (now : Q) (s : ScanState) : ScanState :=
  set_start_time (Some now) (set_mode m (set_running true (reset_scan_state s))).

(** [start_scan]: the answer, the scan state after the call and the task
    it creates, if any. *)
Definition start_scan (now : Q) (request : ScanStartRequest) (s : ScanState)
    : Response * ScanState * option Task :=
  if running s then (BadRequest already_running, s, None)
  else
    let valid_ports := List.filter valid_port (ports request) in
    match valid_ports with
    | [] => (BadRequest "有効なポートを指定してください（80, 443, 8080, 8443）", s, None)
    | _ =>
        (StartedRandom valid_ports,
         begin_scan Random now s,
         Some (RandomTask valid_ports (take_screenshots request)
                          (run_vuln_check request)))
    end.

Section Resolver.

Variable gethostbyname : string -> Lookup.
Variable urlparse_hostname : string -> option (option string).

(** [start_target_scan]. *)
Definition start_target_scan (now : Q) (request : TargetScanRequest)
    (s : ScanState) : Response * ScanState * option Task :=
  if running s then (BadRequest already_running, s, None)
  else
    match parse_target_ips gethostbyname urlparse_hostname (targets request) with
    | None => (ServerError, s, None)
    | Some [] =>
        (BadRequest "有効なIPアドレスが見つかりません。形式: 1.1.1.1 / 1.1.1.1,8.8.8.8 / 192.168.0.0/24",
         s, None)
    | Some target_ips =>
        let valid_ports := List.filter valid_port (t_ports request) in
        match valid_ports with
        | [] => (BadRequest "有効なポートを指定してください", s, None)
        | _ =>
            let total_targets :=
              Z.of_nat (length target_ips) * Z.of_nat (length valid_ports) in
            if 100000 <? total_targets then
              (BadRequest ("ターゲット数が多すぎます（" +:+ Py.str total_targets
                           +:+ "件）。100,000件以下にしてください。"),
               s, None)
            else
              (StartedTarget valid_ports (Z.of_nat (length target_ips))
                             total_targets,
               begin_scan Target now s,
               Some (TargetTask target_ips valid_ports
                                (t_take_screenshots request)
                                (t_run_vuln_check request)))
        end
    end.

End Resolver.

(** [stop_scan]. *)
Definition stop_scan (s : ScanState) : Response * ScanState :=
  if negb (running s) then (BadRequest "スキャンは実行されていません", s)
  else (Stopped, set_running false s).

(** ** Worlds *)

(** A world in which the only thing the other tasks do to [scan_state]
    while a worker is suspended is to serve [stop_scan] requests. *)
Definition only_stops (w : World) : Prop :=
  forall n s, interfere w n s = s \/ interfere w n s = snd (stop_scan s).

(** A world in which no request changes [scan_state] during the run: in
    particular [stop_scan] is never called. *)
Definition never_stopped (w : World) : Prop :=
  forall n s, interfere w n s = s.

(** The world in which [stop_scan] is served during the suspensions that
    [stops] selects, and nothing else happens. *)
Definition stop_at (stops : nat -> bool) (n : nat) (s : ScanState) : ScanState :=
  if stops n then snd (stop_scan s) else s.

End App.

(* ===================================================================== *)
(** * What the statements below speak about *)
(* ===================================================================== *)

Module Props.
Import IpAddress VulnScanner Scanner.

(** The address interval of a network: from the network address to the
    broadcast address. *)
Definition in_range (n : IPv4Network) (ip : Z) : Prop :=
  network_address n <= ip <= broadcast_address n.

Definition valid_prefix (p : Z) : Prop := 0 <= p <= 32.
Definition is_address (ip : Z) : Prop := 0 <= ip < 2 ^ 32.

(** A network as its constructor builds it: the address has no bit
    outside the mask. *)
Definition well_formed (n : IPv4Network) : Prop :=
  valid_prefix (prefixlen n) /\ is_address (network_address n)
  /\ Z.land (network_address n) (netmask n) = network_address n.

(** The two facts about a netmask that the interval reading rests on,
    as a check that can be run on each prefix length. *)
Definition netmask_ok (p : Z) : bool :=
  (ip_int_from_prefix p =? Z.land (Z.lnot (Z.ones (32 - p))) (Z.ones 32))
  && (Z.lxor (ip_int_from_prefix p) ALL_ONES =? Z.ones (32 - p)).

(** A decimal octet is read back as it is written and holds neither a
    dot nor a slash, as a check that can be run on each octet. *)
Definition octet_ok (o : Z) : bool :=
  match parse_octet (Py.str o) with
  | Some o' => o' =? o
  | None => false
  end
  && negb (Py.contains_char "."%char (Py.str o))
  && negb (Py.contains_char "/"%char (Py.str o))
  && Py.truthy (Py.str o).

(** The severity order [critical > high > medium > low > info], as a
    rank; a string that is no level ranks below all of them. *)
Definition rank (risk : string) : Z :=
  if String.eqb risk "critical" then 5
  else if String.eqb risk "high" then 4
  else if String.eqb risk "medium" then 3
  else if String.eqb risk "low" then 2
  else if String.eqb risk "info" then 1
  else 0.

Definition is_level (risk : string) : Prop := In risk RISK_LEVELS.

(** The risk that [summarize_vulns] reads off a finding. *)
Definition risk_of (f : Finding) : string := default "info" (f_risk f).

(** How many findings of a list carry a given risk. *)
Fixpoint count_of (risk : string) (findings : list Finding) : Z :=
  match findings with
  | [] => 0
  | f :: rest => (if String.eqb (risk_of f) risk then 1 else 0) + count_of risk rest
  end.

(** The test of [check_header], for one entry of the table. *)
Definition missing (headers : gmap string string) (item : string * HeaderInfo)
    : bool :=
  bool_decide (Py.lower (fst item) ∉ lowered_keys headers).

(** The address that [check_path] requests for a catalog entry. *)
Definition url_of (base_url : string) (path_info : PathInfo) : string :=
  base_url +:+ p_path path_info.

(** A host that serves a 50-byte file under one path and answers 404
    everywhere else. *)
Definition serves_only (url : string) (u : string) : Fetch :=
  if String.eqb u url
  then FetchResponse 200 (Some "DB_PASSWORD=hunter2 SECRET_KEY=0123456789abcdefgh.")
  else FetchResponse 404 None.

(** Two characters that are the same, or the same letter of A to Z in its
    two cases (65 to 90 and 97 to 122). *)
Definition same_char_nocase (a b : ascii) : bool :=
  let x := nat_of_ascii a in
  let y := nat_of_ascii b in
  ((x =? y)
   || ((65 <=? x) && (x <=? 90) && (y =? x + 32))
   || ((65 <=? y) && (y <=? 90) && (x =? y + 32)))%nat.

(** Two texts that are the same up to the case of their letters. *)
Fixpoint same_nocase (s t : string) : bool :=
  match s, t with
  | EmptyString, EmptyString => true
  | String a s', String b t' => same_char_nocase a b && same_nocase s' t'
  | _, _ => false
  end.

(** A header is absent when no key of the response is its name up to the
    case of the letters. *)
Definition absent (header_name : string) (headers : gmap string string) : Prop :=
  forall k, is_Some (headers !! k) -> same_nocase k header_name = false.

(** The 256 characters, and the check that [lower_char] identifies two of
    them exactly when they are the same up to case. *)
Definition all_chars : list ascii := map ascii_of_nat (seq 0 256).

Definition lower_char_ok (a b : ascii) : bool :=
  Bool.eqb (Ascii.eqb (Py.lower_char a) (Py.lower_char b))
           (same_char_nocase a b).

(** A response that sends two of the audited headers, one in lower and one
    in upper case. *)
Definition mixed_case_headers : gmap string string :=
  <["x-frame-options" := "DENY"]>
    (<["STRICT-TRANSPORT-SECURITY" := "max-age=31536000"]> ∅).

(** The entry of the audit table at a position. *)
Definition audited (i : nat) : string * HeaderInfo :=
  nth i SECURITY_HEADERS
      (EmptyString, {| h_name := EmptyString;
                       h_description := EmptyString;
                       h_risk := EmptyString |}).

(** A request with its list of ports replaced. *)
Definition with_ports (ports : list Z) (request : App.ScanStartRequest)
    : App.ScanStartRequest :=
  {| App.ports := ports;
     App.take_screenshots := App.take_screenshots request;
     App.run_vuln_check := App.run_vuln_check request |}.

Definition with_t_ports (ports : list Z) (request : App.TargetScanRequest)
    : App.TargetScanRequest :=
  {| App.targets := App.targets request;
     App.t_ports := ports;
     App.t_take_screenshots := App.t_take_screenshots request;
     App.t_run_vuln_check := App.t_run_vuln_check request |}.

(** A handler rejects a request when it answers with an error, leaves
    [scan_state] as it is and creates no task. *)
Definition rejected (s : ScanState)
    (outcome : App.Response * ScanState * option App.Task) : Prop :=
  exists error, outcome = (App.BadRequest error, s, None).

(** A call of one of the two start endpoints, with the time it reads. *)
Inductive StartCall :=
| CallStartScan (now : Q) (request : App.ScanStartRequest)
| CallStartTargetScan (now : Q) (request : App.TargetScanRequest).

Definition start_call (gethostbyname : string -> Lookup)
    (urlparse_hostname : string -> option (option string))
    (call : StartCall) (s : ScanState)
    : App.Response * ScanState * option App.Task :=
  match call with
  | CallStartScan now request => App.start_scan now request s
  | CallStartTargetScan now request =>
      App.start_target_scan gethostbyname urlparse_hostname now request s
  end.

(** A resolver that knows no name, and a URL parser that finds no host. *)
Definition no_dns (hostname : string) : Lookup := GaiError.
Definition no_host (url : string) : option (option string) := Some None.

(** A resolver that knows the one name [example.com]. *)
Definition example_dns (hostname : string) : Lookup :=
  if String.eqb hostname "example.com" then Resolved "93.184.216.34"
  else GaiError.

(** The three bytes of U+3000 and the two of U+00A0, put around a text. *)
Definition padded (token : string) : string :=
  String "227"%char (String "128"%char (String "128"%char token))
  +:+ String "194"%char (String "160"%char EmptyString).

(** The batches of a trace, in order. *)
Fixpoint dispatched (tr : list Obs) : list (list (string * Z)) :=
  match tr with
  | [] => []
  | ObsDispatch tasks :: tr' => tasks :: dispatched tr'
  | _ :: tr' => dispatched tr'
  end.

(** Every dispatch is followed at once by the join of as many results,
    and no join occurs without its dispatch. *)
Fixpoint joined (tr : list Obs) : bool :=
  match tr with
  | [] => true
  | ObsDispatch tasks :: ObsJoin results :: tr' =>
      (length tasks =? length results)%nat && joined tr'
  | ObsDispatch _ :: _ => false
  | ObsJoin _ :: _ => false
  | _ :: tr' => joined tr'
  end.

(** A stretch of a trace in which results are saved and messages are
    published, and no batch is dispatched or joined. *)
Definition quiet (tr : list Obs) : bool :=
  forallb (fun o => match o with
                    | ObsSave _ _ | ObsNotify _ => true
                    | _ => false
                    end) tr.

(** The results that were saved, in order. *)
Fixpoint saved (tr : list Obs) : list ProbeResult :=
  match tr with
  | [] => []
  | ObsSave result _ :: tr' => result :: saved tr'
  | _ :: tr' => saved tr'
  end.

(** The services that the probes of the joined batches found, in order. *)
Fixpoint found (tr : list Obs) : list ProbeResult :=
  match tr with
  | [] => []
  | ObsJoin results :: tr' => omap id results ++ found tr'
  | _ :: tr' => found tr'
  end.

(** The status messages of a trace, in order. *)
Fixpoint statuses (tr : list Obs) : list StatusData :=
  match tr with
  | [] => []
  | ObsNotify (MsgStatus data) :: tr' => data :: statuses tr'
  | _ :: tr' => statuses tr'
  end.

(** The last status message of a trace says that the run is over. *)
Definition ends_with_final_status (tr : list Obs) : Prop :=
  exists data, last tr = Some (ObsNotify (MsgStatus data))
               /\ sd_running data = false.

(** A service that answers every probe with status 200. *)
Definition answering (n : nat) (ip : string) (port : Z)
    (take_screenshots run_vuln_check : bool) : option ProbeResult :=
  Some {| r_ip := ip; r_port := port;
          r_protocol := if (port =? 443) || (port =? 8443) then "https" else "http";
          r_status_code := 200; r_title := "It works"; r_server := "nginx";
          r_ssl_issuer := None; r_ssl_expiry := None; r_ssl_domain := None;
          r_hostname := None; r_country := None; r_country_code := None;
          r_screenshot_path := None; r_response_time_ms := 12;
          r_headers := "{}"; r_vulnerabilities := None; r_vuln_count := 0;
          r_vuln_max_risk := "info"; r_scanned_at := "2024-01-01T00:00:00";
          r_id := None |}.

(** A world in which every probe finds a service, the clock advances by a
    quarter of a second per reading, and [stop_scan] is served during the
    suspensions that [stops] selects. *)
Definition answering_world (stops : nat -> bool) : World :=
  {| entropy := fun n => Z.of_nat n * 1000000007;
     probe := answering;
     clock := fun n => (Z.of_nat n # 4)%Q;
     interfere := App.stop_at stops;
     row_id := fun n => Z.of_nat n + 1 |}.

Definition no_stop (n : nat) : bool := false.
Definition stop_during (k : nat) (n : nat) : bool := (n =? k)%nat.

(** The same world with a generator whose every draw is 1.1.1.1. *)
Definition steady_world (stops : nat -> bool) : World :=
  {| entropy := fun _ => 16843008;
     probe := answering;
     clock := fun n => (Z.of_nat n # 4)%Q;
     interfere := App.stop_at stops;
     row_id := fun n => Z.of_nat n + 1 |}.

(** The run state in which a target scan starts its worker. *)
Definition target_start : Run :=
  start_run (App.begin_scan Target 0 initial_scan_state).

(** The run state in which a random scan starts its worker. *)
Definition random_start : Run :=
  start_run (App.begin_scan Random 0 initial_scan_state).

(** The ten digits, and the texts of one to three digits: every text that
    [parse_octet] reads is one of them. *)
Definition digit_chars : list ascii := map Py.digit_char (Py.range 0 10).

Definition digit_strings : list string :=
  let one := map (fun a => String a EmptyString) digit_chars in
  let two := flat_map (fun a => map (String a) one) digit_chars in
  let three := flat_map (fun a => map (String a) two) digit_chars in
  one ++ two ++ three.

(** An octet that is read is an octet, and is written back as the text it
    was read from, as a check that can be run on each text. *)
Definition octet_text_ok (s : string) : bool :=
  match parse_octet s with
  | Some o => String.eqb (Py.str o) s && (0 <=? o) && (o <? 256)
  | None => true
  end.

(** A character that is neither one-byte whitespace nor a separator of
    the target input. *)
Definition token_char (c : ascii) : bool :=
  negb (Py.is_space c) && negb (is_separator c).

(** A one-byte character that is no whitespace: it starts no whitespace
    character. *)
Definition plain_char (c : ascii) : bool :=
  negb (Py.is_space c) && (nat_of_ascii c <? 128)%nat.

(** The characters of a dotted quad. *)
Definition dotted_char (c : ascii) : bool :=
  Py.is_digit c || Ascii.eqb c "."%char.

(** The characters of the host name pattern. *)
Definition host_char (c : ascii) : bool :=
  Py.is_alnum c || Ascii.eqb c "-"%char || Ascii.eqb c "."%char.

(** A text that holds nothing but whitespace characters, of one, two or
    three bytes, and separators of the target input. *)
Fixpoint blank (s : string) : bool :=
  match s with
  | EmptyString => true
  | String a s1 =>
      if Py.is_space a || is_separator a then blank s1
      else
        match s1 with
        | EmptyString => false
        | String b s2 =>
            if Py.is_space2 a b then blank s2
            else
              match s2 with
              | EmptyString => false
              | String c s3 => Py.is_space3 a b c && blank s3
              end
        end
  end.

(** How many addresses a CIDR token adds, by the length of its prefix. *)
Definition host_count (p : Z) : Z :=
  if p <? 16 then 0
  else if p =? 32 then 1
  else if p =? 31 then 2
  else 2 ^ (32 - p) - 2.

(** The rows that were stored, each with the identifier the storage
    returned for it, in order. *)
Fixpoint saved_rows (tr : list Obs) : list ProbeResult :=
  match tr with
  | [] => []
  | ObsSave result id :: tr' => with_id result id :: saved_rows tr'
  | _ :: tr' => saved_rows tr'
  end.

(** Where an address of the target list may come from: it is written as
    an IPv4 address, or it is what the resolver answered for some name. *)
Definition sourced (gethostbyname : string -> Lookup) (ip : string) : Prop :=
  is_Some (IPv4Address ip)
  \/ exists hostname, gethostbyname hostname = Resolved ip.

(** A cache that holds only answers of the resolver. *)
Definition cache_sound (gethostbyname : string -> Lookup)
    (cache : gmap string (option string)) : Prop :=
  forall hostname ip,
    cache !! hostname = Some (Some ip) -> gethostbyname hostname = Resolved ip.

(** A probe of the random worker as it should be: on a requested port, to
    an address of [1, 0xFFFFFFFE] that the address filter accepts. *)
Definition global_task (ports : list Z) (task : string * Z) : Prop :=
  In (snd task) ports
  /\ exists n, fst task = string_from_ip_int n
               /\ 1 <= n <= 0xFFFFFFFE
               /\ IpGenerator.is_valid_global_ip n = true.

(** The test that a text is one of the five risk levels. *)
Definition level_ok (risk : string) : bool :=
  existsb (String.eqb risk) RISK_LEVELS.

(** A finding that carries one of the five risk levels. *)
Definition graded (f : Finding) : Prop :=
  exists risk, f_risk f = Some risk /\ is_level risk.

(** What the loops of [check_tech_fingerprint] keep true of the findings
    and the set [detected]: the findings are graded technology findings
    with distinct names, and the set holds their names. *)
Definition detected_ok (acc : list Finding * gset string) : Prop :=
  Forall (fun f => f_type f = "tech_detected" /\ graded f) (fst acc)
  /\ NoDup (map f_name (fst acc))
  /\ forall name, name ∈ snd acc <-> In name (map f_name (fst acc)).

(** The connections that take the message of a call of [notify_ws], in
    order. *)
Fixpoint delivered (send_raises : nat -> nat -> bool) (i : nat)
    (ws_connections : list nat) : list nat :=
  match ws_connections with
  | [] => []
  | ws :: rest =>
      if send_raises i ws then delivered send_raises (S i) rest
      else ws :: delivered send_raises (S i) rest
  end.

(** The results that were published to the subscribers, in order. *)
Fixpoint published (tr : list Obs) : list ProbeResult :=
  match tr with
  | [] => []
  | ObsNotify (MsgResult data) :: tr' => data :: published tr'
  | _ :: tr' => published tr'
  end.

End Props.

(* ===================================================================== *)
(** * Facts about the Python primitives *)
(* ===================================================================== *)

Module PyFacts.
Import Py.

Lemma append_nil (t : string) : EmptyString +:+ t = t.
Proof. reflexivity. Qed.

Lemma append_cons (c : ascii) (s t : string) :
  String c s +:+ t = String c (s +:+ t).
Proof. reflexivity. Qed.

Lemma append_empty_r (s : string) : s +:+ EmptyString = s.
Proof.
  induction s as [|c s IH]; [reflexivity |].
  now rewrite append_cons, IH.
Qed.

Lemma append_assoc (s t u : string) : (s +:+ t) +:+ u = s +:+ (t +:+ u).
Proof.
  induction s as [|c s IH]; [reflexivity |].
  now rewrite !append_cons, IH.
Qed.

Lemma contains_char_app (c : ascii) (s t : string) :
  contains_char c (s +:+ t) = contains_char c s || contains_char c t.
Proof.
  induction s as [|d s IH]; [reflexivity |].
  rewrite append_cons. simpl. now rewrite IH, orb_assoc.
Qed.

(** A property checked on every element of a [range] holds on the whole
    interval. *)
Lemma forallb_range (P : Z -> bool) (lo hi : Z) :
  forallb P (range lo hi) = true ->
  forall x, lo <= x < hi -> P x = true.
Proof.
  intros Hall x Hx. rewrite forallb_forall in Hall. apply Hall.
  unfold range. apply in_map_iff. exists (Z.to_nat (x - lo)). split.
  - lia.
  - apply in_seq. lia.
Qed.

Lemma length_range (lo hi : Z) : length (range lo hi) = Z.to_nat (hi - lo).
Proof. unfold range. now rewrite length_map, length_seq. Qed.

(** A text without the separator is one field. *)
Lemma split_go_no_sep (sep : ascii) (s cur : string) :
  contains_char sep s = false -> split_go sep s cur = [cur +:+ s].
Proof.
  revert cur. induction s as [|c s IH]; intros cur H; simpl in *.
  - now rewrite append_empty_r.
  - apply orb_false_iff in H as [Hc Hs].
    rewrite Ascii.eqb_sym in Hc. rewrite Hc, IH by assumption.
    now rewrite append_assoc.
Qed.

(** The first separator ends the first field. *)
Lemma split_go_app (sep : ascii) (s rest cur : string) :
  contains_char sep s = false ->
  split_go sep (s +:+ String sep rest) cur
  = (cur +:+ s) :: split_go sep rest EmptyString.
Proof.
  revert cur. induction s as [|c s IH]; intros cur H.
  - rewrite append_nil. simpl. now rewrite Ascii.eqb_refl, append_empty_r.
  - rewrite append_cons. simpl in *. apply orb_false_iff in H as [Hc Hs].
    rewrite Ascii.eqb_sym in Hc. rewrite Hc, IH by assumption.
    now rewrite append_assoc.
Qed.

(** The two fields before a third: what a text that starts with a scheme
    and two slashes splits into. *)
Lemma split_length_ge (sep : ascii) (s cur : string) :
  (1 <= length (split_go sep s cur))%nat.
Proof.
  revert cur. induction s as [|c s IH]; intros cur; simpl; [lia |].
  destruct (Ascii.eqb c sep); simpl; [lia | apply IH].
Qed.

(** A text that is not empty has a character. *)
Lemma len_from_nonneg (pending : nat) (s : string) : 0 <= len_from pending s.
Proof.
  revert pending. induction s as [|c s IH]; intros pending; cbn [len_from];
    [lia |].
  pose proof (IH (follow c)). destruct pending as [|p]; [lia |].
  destruct (is_continuation c); [apply IH | lia].
Qed.

Lemma len_cons (c : ascii) (s : string) : 0 < len (String c s).
Proof.
  unfold len. cbn [len_from]. pose proof (len_from_nonneg (follow c) s). lia.
Qed.

Lemma startswith_app (s p : string) :
  startswith s p = true -> exists rest, s = p +:+ rest.
Proof.
  unfold startswith. revert s. induction p as [|c p IH]; intros s H.
  - exists s. reflexivity.
  - destruct s as [|d s]; simpl in H; [discriminate |].
    destruct (ascii_dec c d) as [->|]; [| discriminate].
    destruct (IH s H) as [rest ->]. exists rest. reflexivity.
Qed.

End PyFacts.

(* ===================================================================== *)
(** * Facts about [ipaddress] *)
(* ===================================================================== *)

Module IpFacts.
Import Py PyFacts IpAddress Props.

(** The 33 netmasks, checked one by one. *)
Lemma netmask_facts (p : Z) :
  valid_prefix p ->
  ip_int_from_prefix p = Z.land (Z.lnot (Z.ones (32 - p))) (Z.ones 32)
  /\ Z.lxor (ip_int_from_prefix p) ALL_ONES = Z.ones (32 - p).
Proof.
  intros Hp. unfold valid_prefix in Hp.
  assert (H : netmask_ok p = true).
  { apply (forallb_range netmask_ok 0 33); [vm_compute; reflexivity | lia]. }
  unfold netmask_ok in H. apply andb_true_iff in H as [H1 H2].
  now rewrite Z.eqb_eq in H1, H2.
Qed.

Lemma netmask_lnot (p : Z) :
  valid_prefix p ->
  ip_int_from_prefix p = Z.land (Z.lnot (Z.ones (32 - p))) (Z.ones 32).
Proof. intros Hp. apply (netmask_facts p Hp). Qed.

Lemma hostmask_ones (p : Z) :
  valid_prefix p -> Z.lxor (ip_int_from_prefix p) ALL_ONES = Z.ones (32 - p).
Proof. intros Hp. apply (netmask_facts p Hp). Qed.

(** Masking an address clears its low bits. *)
Lemma land_netmask (p ip : Z) :
  valid_prefix p -> is_address ip ->
  Z.land ip (ip_int_from_prefix p) = ip / 2 ^ (32 - p) * 2 ^ (32 - p).
Proof.
  intros Hp Hip. unfold valid_prefix, is_address in *.
  rewrite netmask_lnot by assumption.
  rewrite (Z.land_comm (Z.lnot _)), Z.land_assoc.
  rewrite (Z.land_ones ip 32) by lia.
  rewrite Z.mod_small by lia.
  rewrite <- Z.ldiff_land, Z.ldiff_ones_r by lia.
  rewrite Z.shiftr_div_pow2, Z.shiftl_mul_pow2 by lia.
  reflexivity.
Qed.

Lemma broadcast_add (n : IPv4Network) :
  well_formed n ->
  broadcast_address n = network_address n + 2 ^ (32 - prefixlen n) - 1.
Proof.
  intros (Hp & Ha & Hm). unfold broadcast_address, hostmask, netmask in *.
  rewrite hostmask_ones by assumption.
  rewrite land_netmask in Hm by assumption.
  unfold valid_prefix, is_address in *.
  assert (Hk : 0 < 2 ^ (32 - prefixlen n)) by (apply Z.pow_pos_nonneg; lia).
  assert (H0 : Z.land (network_address n) (Z.ones (32 - prefixlen n)) = 0).
  { rewrite Z.land_ones by lia. rewrite <- Hm. apply Z.mod_mul. lia. }
  rewrite <- Z.lxor_lor, <- Z.add_nocarry_lxor by assumption.
  rewrite Z.ones_equiv. lia.
Qed.

(** Membership as the library tests it, and as an interval. *)
Lemma contains_in_range (n : IPv4Network) (ip : Z) :
  well_formed n -> is_address ip ->
  contains n ip = true <-> in_range n ip.
Proof.
  intros Hwf Hip. unfold in_range. rewrite broadcast_add by assumption.
  destruct Hwf as (Hp & Ha & Hm). unfold contains, netmask in *.
  rewrite land_netmask in * by assumption.
  unfold valid_prefix, is_address in *.
  set (k := 2 ^ (32 - prefixlen n)) in *.
  assert (Hk : 0 < k) by (apply Z.pow_pos_nonneg; lia).
  rewrite Z.eqb_eq. split.
  - intros H. pose proof (Z.div_mod ip k). pose proof (Z.mod_pos_bound ip k). lia.
  - intros H. rewrite <- Hm. f_equal.
    symmetry. apply (Z.div_unique ip k _ (ip - network_address n)); lia.
Qed.

(** ** Dotted-quad text *)

Lemma octet_facts (o : Z) :
  0 <= o < 256 ->
  parse_octet (str o) = Some o
  /\ contains_char "."%char (str o) = false
  /\ contains_char "/"%char (str o) = false
  /\ truthy (str o) = true.
Proof.
  intros Ho.
  assert (H : octet_ok o = true).
  { apply (forallb_range octet_ok 0 256); [vm_compute; reflexivity | lia]. }
  unfold octet_ok in H.
  repeat (apply andb_true_iff in H as [H ?]).
  destruct (parse_octet (str o)) as [o'|]; [| discriminate].
  apply Z.eqb_eq in H. subst o'.
  repeat split; try assumption; now apply negb_true_iff.
Qed.

Lemma to_bytes4_octets (n : Z) : Forall (fun o => 0 <= o < 256) (to_bytes4 n).
Proof. unfold to_bytes4. repeat constructor; apply Z.mod_pos_bound; lia. Qed.

Lemma from_bytes_to_bytes4 (n : Z) :
  is_address n -> from_bytes (to_bytes4 n) = n.
Proof.
  unfold is_address, from_bytes, to_bytes4. intros Hn. simpl fold_left.
  rewrite !Z.shiftr_div_pow2 by lia.
  change (2 ^ 32) with 4294967296 in Hn.
  change (2 ^ 24) with 16777216. change (2 ^ 16) with 65536.
  change (2 ^ 8) with 256.
  Z.div_mod_to_equations. lia.
Qed.

Lemma truthy_app (s t : string) : truthy s = true -> truthy (s +:+ t) = true.
Proof. destruct s; [discriminate | reflexivity]. Qed.

(** Four dot-free fields joined by dots split into the four fields. *)
Lemma split_join4 (a b c d : string) :
  contains_char "."%char a = false -> contains_char "."%char b = false ->
  contains_char "."%char c = false -> contains_char "."%char d = false ->
  split "."%char (join "." [a; b; c; d]) = [a; b; c; d].
Proof.
  intros Ha Hb Hc Hd. unfold split. cbn [join].
  change "."%string with (String "."%char EmptyString).
  rewrite !append_cons, !append_nil.
  rewrite split_go_app by assumption. rewrite append_nil.
  rewrite split_go_app by assumption. rewrite append_nil.
  rewrite split_go_app by assumption. rewrite append_nil.
  rewrite split_go_no_sep by assumption. now rewrite append_nil.
Qed.

(** Four octets written as a dotted quad are read back as they are. *)
Lemma IPv4Address_join (a b c d : Z) :
  0 <= a < 256 -> 0 <= b < 256 -> 0 <= c < 256 -> 0 <= d < 256 ->
  IPv4Address (join "." [str a; str b; str c; str d])
  = Some (from_bytes [a; b; c; d]).
Proof.
  intros Ha Hb Hc Hd.
  destruct (octet_facts a Ha) as (Pa & Da & Sa & Ta).
  destruct (octet_facts b Hb) as (Pb & Db & Sb & Tb).
  destruct (octet_facts c Hc) as (Pc & Dc & Sc & Tc).
  destruct (octet_facts d Hd) as (Pd & Dd & Sd & Td).
  generalize dependent (str a). generalize dependent (str b).
  generalize dependent (str c). generalize dependent (str d).
  intros sd Pd Dd Sd Td sc Pc Dc Sc Tc sb Pb Db Sb Tb sa Pa Da Sa Ta.
  assert (Hslash : contains_char "/"%char (join "." [sa; sb; sc; sd]) = false).
  { cbn [join]. rewrite !contains_char_app, Sa, Sb, Sc, Sd. reflexivity. }
  assert (Htruthy : truthy (join "." [sa; sb; sc; sd]) = true).
  { cbn [join]. now apply truthy_app. }
  assert (Hoct : mapM parse_octet [sa; sb; sc; sd] = Some [a; b; c; d]).
  { apply mapM_Some_2. repeat constructor; assumption. }
  unfold IPv4Address, ip_int_from_string.
  rewrite Hslash, Htruthy, split_join4 by assumption.
  cbn [negb length Nat.eqb]. rewrite Hoct. reflexivity.
Qed.

(** What [str] of an address is, read back, is the address. *)
Lemma IPv4Address_string_from_ip_int (n : Z) :
  is_address n -> IPv4Address (string_from_ip_int n) = Some n.
Proof.
  intros Hn. pose proof (from_bytes_to_bytes4 n Hn) as Hfb.
  pose proof (to_bytes4_octets n) as Hoct.
  unfold string_from_ip_int. unfold to_bytes4 in *.
  inversion_clear Hoct as [|? ? Ha Hoct']. inversion_clear Hoct' as [|? ? Hb Hoct].
  inversion_clear Hoct as [|? ? Hc Hoct']. inversion_clear Hoct' as [|? ? Hd _].
  cbn [map]. rewrite IPv4Address_join by assumption. now rewrite Hfb.
Qed.

End IpFacts.

(* ===================================================================== *)
(** * ip_generator.py: the sampler *)
(* ===================================================================== *)

Module GeneratorFacts.
Import Py PyFacts IpAddress IpFacts IpGenerator Props.

Lemma randint_bounds (a b raw : Z) : a <= b -> a <= randint a b raw <= b.
Proof.
  intros Hab. unfold randint.
  pose proof (Z.mod_pos_bound raw (b - a + 1)). lia.
Qed.

Lemma excluded_well_formed : Forall well_formed EXCLUDED_NETWORKS.
Proof.
  unfold EXCLUDED_NETWORKS.
  repeat constructor; try (vm_compute; congruence); vm_compute; reflexivity.
Qed.

(** The loop of [is_valid_global_ip] answers [True] only when no network
    of the list contains the address. *)
Lemma is_valid_global_ip_in_true (networks : list IPv4Network) (ip : Z) :
  is_valid_global_ip_in networks ip = true <->
  forall network, In network networks -> contains network ip = false.
Proof.
  induction networks as [|network rest IH]; simpl.
  - split; [intros _ ? [] | reflexivity].
  - destruct (contains network ip) eqn:Hc.
    + split; [discriminate |]. intros H. rewrite (H network) in Hc by now left.
      discriminate.
    + rewrite IH. split.
      * intros H n [<- | Hn]; [assumption | now apply H].
      * intros H n Hn. apply H. now right.
Qed.

(** The draw that [generate_random_ip] returns. *)
Lemma generate_random_ip_draw (fuel : nat) (entropy : nat -> Z) (k : nat)
    (s : string) (k' : nat) :
  generate_random_ip fuel entropy k = Some (s, k') ->
  exists j, (k <= j)%nat /\ k' = S j
    /\ s = string_from_ip_int (randint 1 0xFFFFFFFE (entropy j))
    /\ is_valid_global_ip (randint 1 0xFFFFFFFE (entropy j)) = true.
Proof.
  revert k. induction fuel as [|fuel IH]; intros k H; cbn [generate_random_ip] in H.
  - discriminate.
  - destruct (is_valid_global_ip (randint 1 4294967294 (entropy k))) eqn:Hv.
    + inversion H; subst. exists k. repeat split; try lia; assumption.
    + destruct (IH _ H) as (j & Hj & ? & ? & ?).
      exists j. repeat split; try assumption. lia.
Qed.

(** The sampler returns as soon as the generator supplies a valid draw
    within the fuel. *)
Lemma generate_random_ip_returns (fuel : nat) (entropy : nat -> Z) (k j : nat) :
  (k <= j < k + fuel)%nat ->
  is_valid_global_ip (randint 1 0xFFFFFFFE (entropy j)) = true ->
  exists s k', generate_random_ip fuel entropy k = Some (s, k').
Proof.
  revert k. induction fuel as [|fuel IH]; intros k Hj Hv; [lia |].
  cbn [generate_random_ip].
  destruct (is_valid_global_ip (randint 1 4294967294 (entropy k))) eqn:Hk.
  - eauto.
  - apply IH; [| assumption].
    assert (j <> k) by (intros ->; congruence). lia.
Qed.

End GeneratorFacts.

(** C8 (as stated): the list of excluded networks does not have 15
    entries; it has 16, the 6to4 relay block 192.88.99.0/24 among them. *)
Lemma C8_excluded_networks_not_15 :
  length IpGenerator.EXCLUDED_NETWORKS <> 15%nat
  /\ length IpGenerator.EXCLUDED_NETWORKS = 16%nat
  /\ In (IpAddress.net 192 88 99 0 24) IpGenerator.EXCLUDED_NETWORKS.
Proof.
  split; [vm_compute; lia |]. split; [reflexivity |].
  unfold IpGenerator.EXCLUDED_NETWORKS. simpl. tauto.
Qed.

(** C8 (amended): every address that [generate_random_ip] returns is the
    dotted-quad text of an integer of [1, 0xFFFFFFFE], reads back as that
    integer, and lies in none of the 16 excluded networks, neither by the
    library's membership test nor as an address of the network's interval. *)
Theorem C8_generate_random_ip_global (fuel : nat) (entropy : nat -> Z)
    (k : nat) (s : string) (k' : nat) :
  IpGenerator.generate_random_ip fuel entropy k = Some (s, k') ->
  exists n,
    1 <= n <= 0xFFFFFFFE
    /\ s = IpAddress.string_from_ip_int n
    /\ IpAddress.IPv4Address s = Some n
    /\ length IpGenerator.EXCLUDED_NETWORKS = 16%nat
    /\ forall network, In network IpGenerator.EXCLUDED_NETWORKS ->
         IpAddress.contains network n = false /\ ~ Props.in_range network n.
Proof.
  intros H.
  destruct (GeneratorFacts.generate_random_ip_draw _ _ _ _ _ H)
    as (j & _ & _ & -> & Hv).
  set (n := IpGenerator.randint 1 4294967294 (entropy j)) in *.
  assert (Hn : 1 <= n <= 4294967294)
    by (apply GeneratorFacts.randint_bounds; lia).
  assert (Ha : Props.is_address n)
    by (unfold Props.is_address; change (2 ^ 32) with 4294967296; lia).
  assert (Hout : forall network, In network IpGenerator.EXCLUDED_NETWORKS ->
                   IpAddress.contains network n = false).
  { now apply GeneratorFacts.is_valid_global_ip_in_true. }
  exists n. repeat split; try lia.
  - now apply IpFacts.IPv4Address_string_from_ip_int.
  - now apply Hout.
  - intros Hr.
    assert (Hw : Props.well_formed network).
    { pose proof GeneratorFacts.excluded_well_formed as Hall.
      rewrite Forall_forall in Hall. apply Hall. now apply list_elem_of_In. }
    apply (IpFacts.contains_in_range network n Hw Ha) in Hr.
    rewrite Hout in Hr by assumption. discriminate.
Qed.

(** A run of the sampler on a concrete stream of raw values. *)
Lemma C8_generate_random_ip_global_witness :
  IpGenerator.generate_random_ip 5 (fun n => Z.of_nat n * 1000000007) 0
  = Some ("59.154.202.8", 2%nat)
  /\ exists n,
    1 <= n <= 0xFFFFFFFE
    /\ "59.154.202.8" = IpAddress.string_from_ip_int n
    /\ IpAddress.IPv4Address "59.154.202.8" = Some n
    /\ length IpGenerator.EXCLUDED_NETWORKS = 16%nat
    /\ forall network, In network IpGenerator.EXCLUDED_NETWORKS ->
         IpAddress.contains network n = false /\ ~ Props.in_range network n.
Proof.
  split; [vm_compute; reflexivity |].
  apply (C8_generate_random_ip_global 5 (fun n => Z.of_nat n * 1000000007) 0
           "59.154.202.8" 2).
  vm_compute. reflexivity.
Defined.

(* ===================================================================== *)
(** * vuln_scanner.py: the aggregation *)
(* ===================================================================== *)

Module VulnFacts.
Import Py VulnScanner Props.

Lemma count_of_nonneg (risk : string) (findings : list Finding) :
  0 <= count_of risk findings.
Proof.
  induction findings as [|f rest IH]; cbn [count_of]; [lia |].
  destruct (String.eqb (risk_of f) risk); lia.
Qed.

Lemma count_of_pos_in (f : Finding) (findings : list Finding) :
  In f findings -> 0 < count_of (risk_of f) findings.
Proof.
  induction findings as [|g rest IH]; intros Hin; [destruct Hin |].
  cbn [count_of]. pose proof (count_of_nonneg (risk_of f) rest).
  destruct Hin as [-> | Hin].
  - rewrite String.eqb_refl. lia.
  - specialize (IH Hin). destruct (String.eqb (risk_of g) (risk_of f)); lia.
Qed.

Lemma count_of_pos_ex (risk : string) (findings : list Finding) :
  0 < count_of risk findings -> exists f, In f findings /\ risk_of f = risk.
Proof.
  induction findings as [|g rest IH]; cbn [count_of]; intros H; [lia |].
  destruct (String.eqb (risk_of g) risk) eqn:Hg.
  - exists g. split; [now left | now apply String.eqb_eq].
  - destruct IH as (f & Hf & Hr); [lia |]. exists f. split; [now right | assumption].
Qed.

(** What the counting loop leaves under a key: the keys never change, and
    the count of a key grows by the number of findings of that risk. *)
Lemma fold_count_risk (findings : list Finding) (counts : gmap string Z)
    (k : string) :
  fold_left count_risk findings counts !! k
  = (fun n => n + count_of k findings) <$> counts !! k.
Proof.
  revert counts. induction findings as [|f rest IH]; intros counts.
  - cbn [fold_left count_of]. destruct (counts !! k); cbn; [f_equal; lia | reflexivity].
  - cbn [fold_left count_of]. rewrite IH. unfold count_risk. fold (risk_of f).
    destruct (counts !! risk_of f) as [n|] eqn:Hr.
    + destruct (String.eqb_spec (risk_of f) k) as [<- | Hne].
      * rewrite lookup_insert_eq, Hr. cbn. f_equal. lia.
      * rewrite lookup_insert_ne by assumption.
        destruct (counts !! k); cbn; [f_equal; lia | reflexivity].
    + destruct (String.eqb_spec (risk_of f) k) as [<- | Hne].
      * rewrite Hr. reflexivity.
      * destruct (counts !! k); cbn; [f_equal; lia | reflexivity].
Qed.

Lemma summarize_counts (findings : list Finding) (level : string) :
  is_level level ->
  risk_counts (summarize_vulns findings) !! level
  = Some (count_of level findings).
Proof.
  intros Hl. unfold summarize_vulns. cbn [risk_counts].
  rewrite fold_count_risk.
  assert (H0 : initial_risk_counts !! level = Some 0).
  { unfold is_level, RISK_LEVELS in Hl.
    destruct Hl as [<- | [<- | [<- | [<- | [<- | []]]]]]; vm_compute; reflexivity. }
  rewrite H0. reflexivity.
Qed.

(** The level that the second loop picks, in terms of the counts. *)
Lemma summarize_max_risk (findings : list Finding) :
  max_risk (summarize_vulns findings)
  = if 0 <? count_of "critical" findings then "critical"
    else if 0 <? count_of "high" findings then "high"
    else if 0 <? count_of "medium" findings then "medium"
    else if 0 <? count_of "low" findings then "low"
    else "info".
Proof.
  pose proof (summarize_counts findings) as Hc.
  unfold summarize_vulns in *. cbn [risk_counts max_risk] in *.
  unfold RISK_LEVELS. cbn [first_positive].
  rewrite !Hc by (unfold is_level, RISK_LEVELS; simpl; tauto).
  cbn [default from_option]. unfold id.
  destruct (0 <? count_of "info" findings); reflexivity.
Qed.

End VulnFacts.

(** C3: for findings whose risks are among the five levels, [summarize_vulns]
    gives the number of findings as the total, and as [max_risk] a level
    that is present in the list and that no finding of the list exceeds in
    the order critical > high > medium > low > info; on the empty list it
    gives [info]. *)
Theorem C3_summarize_vulns_max_risk (findings : list VulnScanner.Finding) :
  (forall f, In f findings ->
     exists risk, VulnScanner.f_risk f = Some risk /\ Props.is_level risk) ->
  let summary := VulnScanner.summarize_vulns findings in
  VulnScanner.total summary = Z.of_nat (length findings)
  /\ (findings = [] -> VulnScanner.max_risk summary = "info")
  /\ (findings <> [] ->
      exists f, In f findings
                /\ Props.risk_of f = VulnScanner.max_risk summary)
  /\ (forall f, In f findings ->
      Props.rank (Props.risk_of f) <= Props.rank (VulnScanner.max_risk summary)).
Proof.
  intros Hlevels summary.
  assert (Hlv : forall f, In f findings -> Props.is_level (Props.risk_of f)).
  { intros f Hf. destruct (Hlevels f Hf) as (risk & Hr & Hl).
    unfold Props.risk_of. now rewrite Hr. }
  assert (Hpos : forall f, In f findings ->
                   0 < Props.count_of (Props.risk_of f) findings).
  { intros f Hf. now apply VulnFacts.count_of_pos_in. }
  subst summary. rewrite VulnFacts.summarize_max_risk.
  split; [reflexivity |]. split; [intros ->; reflexivity |]. split.
  - intros Hne.
    destruct (0 <? Props.count_of "critical" findings) eqn:H5;
      [apply Z.ltb_lt in H5; now apply VulnFacts.count_of_pos_ex |].
    destruct (0 <? Props.count_of "high" findings) eqn:H4;
      [apply Z.ltb_lt in H4; now apply VulnFacts.count_of_pos_ex |].
    destruct (0 <? Props.count_of "medium" findings) eqn:H3;
      [apply Z.ltb_lt in H3; now apply VulnFacts.count_of_pos_ex |].
    destruct (0 <? Props.count_of "low" findings) eqn:H2;
      [apply Z.ltb_lt in H2; now apply VulnFacts.count_of_pos_ex |].
    destruct findings as [|f rest]; [congruence |].
    exists f. split; [now left |].
    assert (Hf : In f (f :: rest)) by now left.
    specialize (Hpos f Hf). specialize (Hlv f Hf).
    apply Z.ltb_ge in H5, H4, H3, H2.
    unfold Props.is_level, VulnScanner.RISK_LEVELS in Hlv.
    destruct Hlv as [E | [E | [E | [E | [E | []]]]]];
      rewrite <- E in *; try lia; reflexivity.
  - intros f Hf. specialize (Hpos f Hf). specialize (Hlv f Hf).
    unfold Props.is_level, VulnScanner.RISK_LEVELS in Hlv.
    destruct (0 <? Props.count_of "critical" findings) eqn:H5;
      [destruct Hlv as [E | [E | [E | [E | [E | []]]]]]; rewrite <- E;
       vm_compute; congruence |].
    destruct (0 <? Props.count_of "high" findings) eqn:H4;
      [apply Z.ltb_ge in H5;
       destruct Hlv as [E | [E | [E | [E | [E | []]]]]]; rewrite <- E in *;
       try lia; vm_compute; congruence |].
    destruct (0 <? Props.count_of "medium" findings) eqn:H3;
      [apply Z.ltb_ge in H5, H4;
       destruct Hlv as [E | [E | [E | [E | [E | []]]]]]; rewrite <- E in *;
       try lia; vm_compute; congruence |].
    destruct (0 <? Props.count_of "low" findings) eqn:H2;
      [apply Z.ltb_ge in H5, H4, H3;
       destruct Hlv as [E | [E | [E | [E | [E | []]]]]]; rewrite <- E in *;
       try lia; vm_compute; congruence |].
    apply Z.ltb_ge in H5, H4, H3, H2.
    destruct Hlv as [E | [E | [E | [E | [E | []]]]]]; rewrite <- E in *;
      try lia; vm_compute; congruence.
Qed.

(** C3 at the seven findings of a response without security headers. *)
Lemma C3_summarize_vulns_max_risk_witness :
  let findings := VulnScanner.check_security_headers ∅ in
  let summary := VulnScanner.summarize_vulns findings in
  VulnScanner.total summary = Z.of_nat (length findings)
  /\ (findings = [] -> VulnScanner.max_risk summary = "info")
  /\ (findings <> [] ->
      exists f, In f findings
                /\ Props.risk_of f = VulnScanner.max_risk summary)
  /\ (forall f, In f findings ->
      Props.rank (Props.risk_of f) <= Props.rank (VulnScanner.max_risk summary)).
Proof.
  apply (C3_summarize_vulns_max_risk (VulnScanner.check_security_headers ∅)).
  intros f Hf. vm_compute in Hf.
  repeat (destruct Hf as [<- | Hf];
          [eexists; split; [reflexivity | vm_compute; tauto] |]).
  destruct Hf.
Defined.

(* ===================================================================== *)
(** * vuln_scanner.py: the header audit and the exposed-path probe *)
(* ===================================================================== *)

Module AuditFacts.
Import Py VulnScanner Props.

(** The loop of [check_security_headers] appends, in table order, the
    finding of every entry whose test succeeds. *)
Lemma fold_check_header (headers : gmap string string)
    (table : list (string * HeaderInfo)) (findings : list Finding) :
  fold_left (check_header headers) table findings
  = findings
    ++ map (fun item => missing_header_finding (snd item))
           (List.filter (missing headers) table).
Proof.
  revert findings. induction table as [|[header_name info] rest IH]; intros findings.
  - cbn. now rewrite app_nil_r.
  - cbn [fold_left List.filter]. rewrite IH.
    unfold check_header, missing. cbn [fst snd]. destruct (bool_decide _).
    + cbn [map]. now rewrite <- app_assoc.
    + reflexivity.
Qed.

(** [lower_char] sends two characters to the same one exactly when they
    are the same up to case. *)
Lemma all_chars_complete (c : ascii) : In c all_chars.
Proof.
  unfold all_chars. apply in_map_iff. exists (nat_of_ascii c).
  split; [apply ascii_nat_embedding |]. apply in_seq.
  pose proof (nat_ascii_bounded c). lia.
Qed.

Lemma lower_char_table :
  forallb (fun a => forallb (lower_char_ok a) all_chars) all_chars = true.
Proof. vm_compute. reflexivity. Qed.

Lemma lower_char_same (a b : ascii) :
  lower_char a = lower_char b <-> same_char_nocase a b = true.
Proof.
  pose proof lower_char_table as Htable. rewrite forallb_forall in Htable.
  specialize (Htable a (all_chars_complete a)).
  rewrite forallb_forall in Htable.
  specialize (Htable b (all_chars_complete b)).
  unfold lower_char_ok in Htable. apply Bool.eqb_prop in Htable.
  rewrite <- Htable. symmetry. apply Ascii.eqb_eq.
Qed.

(** [str.lower()] sends two texts to the same one exactly when they are
    the same up to case. *)
Lemma lower_same (s t : string) :
  lower s = lower t <-> same_nocase s t = true.
Proof.
  revert t. induction s as [|a s IH]; intros [|b t]; cbn [lower same_nocase];
    try (split; [discriminate | discriminate]); [tauto |].
  rewrite andb_true_iff, <- IH, <- lower_char_same. split.
  - intros H. injection H as Hc Hs. now split.
  - intros [-> ->]. reflexivity.
Qed.

(** The test of the code is the case-insensitive absence of the name. *)
Lemma missing_absent (headers : gmap string string) (item : string * HeaderInfo) :
  missing headers item = true <-> absent (fst item) headers.
Proof.
  unfold missing, absent, lowered_keys. rewrite bool_decide_eq_true.
  rewrite elem_of_map. split.
  - intros Hno k Hk. destruct (same_nocase k (fst item)) eqn:Hsame;
      [| reflexivity].
    exfalso. apply Hno. exists k. apply lower_same in Hsame.
    split; [now symmetry |]. now apply elem_of_dom.
  - intros Hab (k & Heq & Hk). apply elem_of_dom in Hk.
    specialize (Hab k Hk). symmetry in Heq. apply lower_same in Heq.
    congruence.
Qed.

(** Two entries of a table without repeated images that have the same
    image are the same entry. *)
Lemma NoDup_map_inj {A B : Type} (g : A -> B) (l : list A) (x y : A) :
  NoDup (map g l) -> In x l -> In y l -> g x = g y -> x = y.
Proof.
  induction l as [|z l IH]; cbn [map In]; [tauto |]. intros Hnd Hx Hy Hg.
  apply NoDup_cons in Hnd as [Hz Hl].
  assert (Hout : forall w, In w l -> g w <> g z).
  { intros w Hw Heq. apply Hz. rewrite <- Heq. apply list_elem_of_In.
    now apply in_map. }
  destruct Hx as [<- | Hx], Hy as [<- | Hy].
  - reflexivity.
  - symmetry in Hg. now destruct (Hout y Hy).
  - now destruct (Hout x Hx).
  - now apply IH.
Qed.

Lemma NoDup_map_filter {A B : Type} (g : A -> B) (p : A -> bool) (l : list A) :
  NoDup (map g l) -> NoDup (map g (List.filter p l)).
Proof.
  induction l as [|x l IH]; cbn [map List.filter]; intros Hnd; [constructor |].
  apply NoDup_cons in Hnd as [Hx Hl]. destruct (p x); [| now apply IH].
  cbn [map]. apply NoDup_cons. split; [| now apply IH].
  intros Hin. apply Hx. apply list_elem_of_In. apply list_elem_of_In in Hin.
  apply in_map_iff in Hin as (y & <- & Hy).
  apply in_map_iff. exists y. split; [reflexivity |].
  now apply filter_In in Hy.
Qed.

Lemma header_findings_distinct :
  NoDup (map (fun item : string * HeaderInfo => missing_header_finding (snd item))
                  SECURITY_HEADERS).
Proof.
  apply (NoDup_fmap_1 f_name).
  apply (bool_decide_unpack _). vm_compute. exact I.
Qed.

(** The loop that keeps the [dict] results keeps them in order. *)
Lemma fold_keep_result (results : list (option Finding)) (findings : list Finding) :
  fold_left keep_result results findings = findings ++ omap id results.
Proof.
  revert findings. induction results as [|[f|] rest IH]; intros findings.
  - cbn. now rewrite app_nil_r.
  - cbn [fold_left keep_result]. rewrite IH. cbn. now rewrite <- app_assoc.
  - cbn [fold_left keep_result]. rewrite IH. reflexivity.
Qed.

End AuditFacts.

(** C7: the table holds the seven headers with the risks medium, medium,
    low, medium, low, low, low; the audit emits exactly the
    [missing_header] findings of the entries whose name no response
    header equals up to case, one each, so that a header sent in any
    casing of its name keeps its finding out; when all seven are absent
    there are seven findings and their maximum risk is medium. *)
Theorem C7_check_security_headers (headers : gmap string string) :
  map (fun item => (fst item, VulnScanner.h_name (snd item),
                    VulnScanner.h_risk (snd item)))
      VulnScanner.SECURITY_HEADERS
  = [ ("Strict-Transport-Security", "HSTS", "medium");
      ("X-Frame-Options", "X-Frame-Options", "medium");
      ("X-Content-Type-Options", "X-Content-Type-Options", "low");
      ("Content-Security-Policy", "CSP", "medium");
      ("X-XSS-Protection", "X-XSS-Protection", "low");
      ("Referrer-Policy", "Referrer-Policy", "low");
      ("Permissions-Policy", "Permissions-Policy", "low") ]
  /\ (forall f, In f (VulnScanner.check_security_headers headers) <->
        exists header_name info,
          In (header_name, info) VulnScanner.SECURITY_HEADERS
          /\ Props.absent header_name headers
          /\ f = VulnScanner.missing_header_finding info)
  /\ (forall header_name info k,
        In (header_name, info) VulnScanner.SECURITY_HEADERS ->
        is_Some (headers !! k) ->
        Props.same_nocase k header_name = true ->
        ~ In (VulnScanner.missing_header_finding info)
             (VulnScanner.check_security_headers headers))
  /\ NoDup (VulnScanner.check_security_headers headers)
  /\ (forall f, In f (VulnScanner.check_security_headers headers) ->
        VulnScanner.f_type f = "missing_header")
  /\ ((forall header_name info,
         In (header_name, info) VulnScanner.SECURITY_HEADERS ->
         Props.absent header_name headers) ->
      length (VulnScanner.check_security_headers headers) = 7%nat
      /\ VulnScanner.max_risk
           (VulnScanner.summarize_vulns
              (VulnScanner.check_security_headers headers)) = "medium").
Proof.
  assert (Hin : forall f, In f (VulnScanner.check_security_headers headers) <->
        exists header_name info,
          In (header_name, info) VulnScanner.SECURITY_HEADERS
          /\ Props.absent header_name headers
          /\ f = VulnScanner.missing_header_finding info).
  { intros f. unfold VulnScanner.check_security_headers.
    rewrite AuditFacts.fold_check_header. cbn [app]. rewrite in_map_iff. split.
    - intros ([header_name info] & <- & Hitem). apply filter_In in Hitem as [Hi Hm].
      apply AuditFacts.missing_absent in Hm. exists header_name, info. auto.
    - intros (header_name & info & Hi & Hab & ->). exists (header_name, info).
      split; [reflexivity |]. apply filter_In. split; [assumption |].
      now apply AuditFacts.missing_absent. }
  split; [reflexivity |]. split; [exact Hin |]. split; [| split; [| split]].
  - intros header_name info k Hi Hk Hsame Hf.
    apply Hin in Hf as (header_name' & info' & Hi' & Hab & Heq).
    assert (Hsame_entry : (header_name, info) = (header_name', info')).
    { apply (AuditFacts.NoDup_map_inj
               (fun item : string * VulnScanner.HeaderInfo =>
                  VulnScanner.missing_header_finding (snd item))
               VulnScanner.SECURITY_HEADERS); try assumption.
      apply AuditFacts.header_findings_distinct. }
    injection Hsame_entry as <- <-. specialize (Hab k Hk). congruence.
  - unfold VulnScanner.check_security_headers.
    rewrite AuditFacts.fold_check_header. cbn [app].
    apply AuditFacts.NoDup_map_filter, AuditFacts.header_findings_distinct.
  - intros f Hf. apply Hin in Hf as (? & ? & _ & _ & ->). reflexivity.
  - intros Hall.
    assert (Hfull : VulnScanner.check_security_headers headers
                    = map (fun item => VulnScanner.missing_header_finding (snd item))
                          VulnScanner.SECURITY_HEADERS).
    { unfold VulnScanner.check_security_headers.
      rewrite AuditFacts.fold_check_header. cbn [app]. f_equal.
      apply forallb_filter_id. apply forallb_forall. intros [header_name info] Hi.
      apply AuditFacts.missing_absent. now apply (Hall header_name info). }
    rewrite Hfull. split; vm_compute; reflexivity.
Qed.

(** C7 at a response without any header, and at one that sends
    [x-frame-options] and [STRICT-TRANSPORT-SECURITY]: the findings of
    these two entries of the table are not reported, the one of the
    Content-Security-Policy is. *)
Lemma C7_check_security_headers_witness :
  (length (VulnScanner.check_security_headers ∅) = 7%nat
   /\ VulnScanner.max_risk
        (VulnScanner.summarize_vulns (VulnScanner.check_security_headers ∅))
      = "medium")
  /\ ~ In (VulnScanner.missing_header_finding (snd (Props.audited 0)))
          (VulnScanner.check_security_headers Props.mixed_case_headers)
  /\ ~ In (VulnScanner.missing_header_finding (snd (Props.audited 1)))
          (VulnScanner.check_security_headers Props.mixed_case_headers)
  /\ In (VulnScanner.missing_header_finding (snd (Props.audited 3)))
        (VulnScanner.check_security_headers Props.mixed_case_headers).
Proof.
  split.
  - apply (C7_check_security_headers ∅).
    intros header_name info _ k Hk. rewrite lookup_empty in Hk.
    destruct Hk as [? Hk]. discriminate.
  - destruct (C7_check_security_headers Props.mixed_case_headers)
      as (_ & Hin & Hsent & _).
    split; [| split].
    + apply (Hsent (fst (Props.audited 0)) _ "STRICT-TRANSPORT-SECURITY");
        [cbn; tauto | | vm_compute; reflexivity].
      unfold Props.mixed_case_headers.
      rewrite lookup_insert_ne by discriminate.
      rewrite lookup_insert_eq. eauto.
    + apply (Hsent (fst (Props.audited 1)) _ "x-frame-options");
        [cbn; tauto | | vm_compute; reflexivity].
      unfold Props.mixed_case_headers. rewrite lookup_insert_eq. eauto.
    + apply Hin. exists (fst (Props.audited 3)), (snd (Props.audited 3)).
      split; [cbn; tauto |]. split; [| reflexivity].
      intros k [v Hk]. unfold Props.mixed_case_headers in Hk.
      destruct (decide (k = "x-frame-options")) as [-> | Hne1];
        [vm_compute; reflexivity |].
      rewrite lookup_insert_ne in Hk by congruence.
      destruct (decide (k = "STRICT-TRANSPORT-SECURITY")) as [-> | Hne2];
        [vm_compute; reflexivity |].
      rewrite lookup_insert_ne in Hk by congruence.
      rewrite lookup_empty in Hk. discriminate.
Defined.

(** C2 (as stated): the catalog of sensitive paths does not have 25
    entries; it has 26. *)
Lemma C2_sensitive_paths_not_25 :
  length VulnScanner.SENSITIVE_PATHS <> 25%nat
  /\ length VulnScanner.SENSITIVE_PATHS = 26%nat.
Proof. split; [vm_compute; lia | reflexivity]. Qed.

(** C2 (amended): the catalog has 26 paths, [/.env] among them at risk
    critical. For each path, a 200 response with a non-empty body yields one
    [exposed_path] finding at the catalog risk of the path, a 403 response
    yields one at risk low, and an exception, an unreadable or empty body
    under 200, or any other status yields none. The findings of the check
    are those of the paths, in catalog order. *)
Theorem C2_check_exposed_paths (fetch : string -> VulnScanner.Fetch)
    (base_url : string) :
  length VulnScanner.SENSITIVE_PATHS = 26%nat
  /\ In {| VulnScanner.p_path := "/.env";
           VulnScanner.p_name := "環境変数ファイル";
           VulnScanner.p_risk := "critical" |} VulnScanner.SENSITIVE_PATHS
  /\ (forall path_info body,
        fetch (Props.url_of base_url path_info)
          = VulnScanner.FetchResponse 200 (Some body) ->
        body <> EmptyString ->
        exists f,
          VulnScanner.check_path fetch base_url path_info = Some f
          /\ VulnScanner.f_type f = "exposed_path"
          /\ VulnScanner.f_risk f = Some (VulnScanner.p_risk path_info)
          /\ VulnScanner.f_path f = Some (VulnScanner.p_path path_info)
          /\ VulnScanner.f_status f = Some 200)
  /\ (forall path_info body,
        fetch (Props.url_of base_url path_info)
          = VulnScanner.FetchResponse 403 body ->
        exists f,
          VulnScanner.check_path fetch base_url path_info = Some f
          /\ VulnScanner.f_type f = "exposed_path"
          /\ VulnScanner.f_risk f = Some "low"
          /\ VulnScanner.f_path f = Some (VulnScanner.p_path path_info)
          /\ VulnScanner.f_status f = Some 403)
  /\ (forall path_info,
        (fetch (Props.url_of base_url path_info) = VulnScanner.FetchRaised
         \/ fetch (Props.url_of base_url path_info)
              = VulnScanner.FetchResponse 200 None
         \/ fetch (Props.url_of base_url path_info)
              = VulnScanner.FetchResponse 200 (Some EmptyString)
         \/ exists status body,
              fetch (Props.url_of base_url path_info)
                = VulnScanner.FetchResponse status body
              /\ status <> 200 /\ status <> 403) ->
        VulnScanner.check_path fetch base_url path_info = None)
  /\ VulnScanner.check_exposed_paths fetch base_url
     = omap (VulnScanner.check_path fetch base_url) VulnScanner.SENSITIVE_PATHS.
Proof.
  split; [reflexivity |]. split; [cbn; tauto |].
  unfold Props.url_of. split; [| split; [| split]].
  - intros path_info body Hf Hb. unfold VulnScanner.check_path. rewrite Hf.
    cbn [Z.eqb Pos.eqb]. destruct body as [|c body]; [congruence |].
    cbv zeta. pose proof (PyFacts.len_cons c body) as Hlen.
    apply Z.ltb_lt in Hlen. rewrite Hlen. eexists. repeat split.
  - intros path_info body Hf. unfold VulnScanner.check_path. rewrite Hf.
    cbn [Z.eqb Pos.eqb]. eexists. repeat split.
  - intros path_info [Hf | [Hf | [Hf | (status & body & Hf & H200 & H403)]]];
      unfold VulnScanner.check_path; rewrite Hf; try reflexivity.
    apply Z.eqb_neq in H200, H403. now rewrite H200, H403.
  - unfold VulnScanner.check_exposed_paths.
    rewrite AuditFacts.fold_keep_result. cbn [app].
    generalize VulnScanner.SENSITIVE_PATHS. intros l.
    induction l as [|p l IH]; [reflexivity |].
    cbn [map omap list_omap]. rewrite <- IH.
    destruct (VulnScanner.check_path fetch base_url p); reflexivity.
Qed.

(** C2 at a host that serves a 50-byte [/.env] and nothing else. *)
Lemma C2_check_exposed_paths_witness :
  let fetch := Props.serves_only "http://198.51.100.7:80/.env" in
  let env := {| VulnScanner.p_path := "/.env";
                VulnScanner.p_name := "環境変数ファイル";
                VulnScanner.p_risk := "critical" |} in
  (exists f,
     VulnScanner.check_path fetch "http://198.51.100.7:80" env = Some f
     /\ VulnScanner.f_type f = "exposed_path"
     /\ VulnScanner.f_risk f = Some "critical"
     /\ VulnScanner.f_path f = Some "/.env"
     /\ VulnScanner.f_status f = Some 200)
  /\ map VulnScanner.f_risk
         (VulnScanner.check_exposed_paths fetch "http://198.51.100.7:80")
     = [Some "critical"].
Proof.
  intros fetch env.
  destruct (C2_check_exposed_paths fetch "http://198.51.100.7:80")
    as (_ & _ & H200 & _ & _ & _).
  split.
  - apply (H200 env "DB_PASSWORD=hunter2 SECRET_KEY=0123456789abcdefgh.").
    + vm_compute. reflexivity.
    + discriminate.
  - vm_compute. reflexivity.
Defined.

(* ===================================================================== *)
(** * app.py: the start and stop handlers *)
(* ===================================================================== *)

Module AppFacts.
Import Scanner App Props.

Lemma begin_scan_running (m : Mode) (now : Q) (s : ScanState) :
  running (begin_scan m now s) = true.
Proof. reflexivity. Qed.

(** A start handler creates a task only when it sets the run going. *)
Lemma start_scan_task (now : Q) (request : ScanStartRequest) (s s1 : ScanState)
    (response : Response) (task : Task) :
  start_scan now request s = (response, s1, Some task) ->
  running s = false /\ s1 = begin_scan Random now s.
Proof.
  unfold start_scan. destruct (running s); [discriminate |].
  destruct (List.filter valid_port (ports request)); [discriminate |].
  intros H. inversion H. auto.
Qed.

Lemma start_target_scan_task (gethostbyname : string -> Lookup)
    (urlparse_hostname : string -> option (option string))
    (now : Q) (request : TargetScanRequest) (s s1 : ScanState)
    (response : Response) (task : Task) :
  start_target_scan gethostbyname urlparse_hostname now request s
    = (response, s1, Some task) ->
  running s = false /\ s1 = begin_scan Target now s.
Proof.
  unfold start_target_scan. destruct (running s); [discriminate |].
  destruct (parse_target_ips _ _ _) as [[|ip ips]|]; try discriminate.
  destruct (List.filter valid_port (t_ports request)); [discriminate |].
  destruct (100000 <? _); [discriminate |].
  intros H. inversion H. auto.
Qed.

Lemma filter_valid_port_idem (ports : list Z) :
  List.filter valid_port (List.filter valid_port ports)
  = List.filter valid_port ports.
Proof.
  apply forallb_filter_id. apply forallb_forall.
  intros p Hp. now apply filter_In in Hp.
Qed.

End AppFacts.

(** C4: while a run is going, both start handlers answer with an error and
    leave [scan_state] and the tasks alone; while no run is going,
    [stop_scan] does the same. A start call that follows an accepted one
    is therefore rejected, and the state stays as the first call left it. *)
Theorem C4_state_conflicts_rejected
    (gethostbyname : string -> Scanner.Lookup)
    (urlparse_hostname : string -> option (option string))
    (s : Scanner.ScanState) :
  (Scanner.running s = true ->
     forall call,
       Props.start_call gethostbyname urlparse_hostname call s
       = (App.BadRequest App.already_running, s, None))
  /\ (Scanner.running s = false ->
      App.stop_scan s = (App.BadRequest "スキャンは実行されていません", s))
  /\ (forall first response s1 task,
        Props.start_call gethostbyname urlparse_hostname first s
        = (response, s1, Some task) ->
        Scanner.running s1 = true
        /\ forall second,
             Props.start_call gethostbyname urlparse_hostname second s1
             = (App.BadRequest App.already_running, s1, None)).
Proof.
  assert (Hrun : forall s0, Scanner.running s0 = true -> forall call,
            Props.start_call gethostbyname urlparse_hostname call s0
            = (App.BadRequest App.already_running, s0, None)).
  { intros s0 Hr [now request | now request]; cbn [Props.start_call];
      unfold App.start_scan, App.start_target_scan; now rewrite Hr. }
  split; [apply Hrun |]. split.
  - intros Hr. unfold App.stop_scan. now rewrite Hr.
  - intros first response s1 task Hfirst.
    assert (Hs1 : Scanner.running s1 = true).
    { destruct first as [now request | now request]; cbn [Props.start_call] in Hfirst.
      - apply AppFacts.start_scan_task in Hfirst as [_ ->]. reflexivity.
      - apply AppFacts.start_target_scan_task in Hfirst as [_ ->]. reflexivity. }
    split; [assumption | now apply Hrun].
Qed.

(** C4 at the idle state: [stop_scan] is rejected, a first start is
    accepted, and a second start is rejected and changes nothing. *)
Lemma C4_state_conflicts_rejected_witness :
  let request := {| App.ports := [80; 443]; App.take_screenshots := false;
                    App.run_vuln_check := true |} in
  let s1 := App.begin_scan Scanner.Random 1 Scanner.initial_scan_state in
  App.stop_scan Scanner.initial_scan_state
  = (App.BadRequest "スキャンは実行されていません", Scanner.initial_scan_state)
  /\ App.start_scan 1 request Scanner.initial_scan_state
     = (App.StartedRandom [80; 443], s1,
        Some (App.RandomTask [80; 443] false true))
  /\ App.start_scan 2 request s1
     = (App.BadRequest App.already_running, s1, None).
Proof.
  intros request s1.
  destruct (C4_state_conflicts_rejected Props.no_dns Props.no_host
              Scanner.initial_scan_state) as (_ & Hstop & Hsecond).
  split; [apply Hstop; reflexivity |]. split; [reflexivity |].
  destruct (Hsecond (Props.CallStartScan 1 request)
                    (App.StartedRandom [80; 443]) s1
                    (App.RandomTask [80; 443] false true) eq_refl)
    as [_ Hrej].
  exact (Hrej (Props.CallStartScan 2 request)).
Defined.

(** C10: with no run going, [start_scan] is rejected on account of the
    ports exactly when none of the requested ports is one of 80, 443, 8080
    and 8443; otherwise it starts the worker on the valid ports, in the
    order and number in which they were requested. The same holds for
    [start_target_scan] once the targets resolve to some address and the
    number of probes is within the cap. For both handlers the ports
    outside the four have no influence at all: the request without them
    has the same outcome. *)
Theorem C10_invalid_ports_filtered
    (gethostbyname : string -> Scanner.Lookup)
    (urlparse_hostname : string -> option (option string))
    (now : Q) (s : Scanner.ScanState) :
  (forall ports p,
     In p (List.filter App.valid_port ports) <->
     In p ports /\ (p = 80 \/ p = 443 \/ p = 8080 \/ p = 8443))
  /\ (forall request,
       App.start_scan now request s
       = App.start_scan now
           (Props.with_ports (List.filter App.valid_port (App.ports request))
                             request) s)
  /\ (forall request,
       App.start_target_scan gethostbyname urlparse_hostname now request s
       = App.start_target_scan gethostbyname urlparse_hostname now
           (Props.with_t_ports
              (List.filter App.valid_port (App.t_ports request)) request) s)
  /\ (Scanner.running s = false ->
      forall request,
        let valid_ports := List.filter App.valid_port (App.ports request) in
        (valid_ports = [] -> Props.rejected s (App.start_scan now request s))
        /\ (valid_ports <> [] ->
            App.start_scan now request s
            = (App.StartedRandom valid_ports,
               App.begin_scan Scanner.Random now s,
               Some (App.RandomTask valid_ports (App.take_screenshots request)
                                    (App.run_vuln_check request)))))
  /\ (Scanner.running s = false ->
      forall request target_ips,
        Scanner.parse_target_ips gethostbyname urlparse_hostname
                                 (App.targets request) = Some target_ips ->
        target_ips <> [] ->
        let valid_ports := List.filter App.valid_port (App.t_ports request) in
        let total := Z.of_nat (length target_ips) * Z.of_nat (length valid_ports) in
        (valid_ports = [] ->
         Props.rejected s
           (App.start_target_scan gethostbyname urlparse_hostname now request s))
        /\ (valid_ports <> [] -> total <= 100000 ->
            App.start_target_scan gethostbyname urlparse_hostname now request s
            = (App.StartedTarget valid_ports (Z.of_nat (length target_ips)) total,
               App.begin_scan Scanner.Target now s,
               Some (App.TargetTask target_ips valid_ports
                                    (App.t_take_screenshots request)
                                    (App.t_run_vuln_check request))))).
Proof.
  split; [| split; [| split; [| split]]].
  - intros ports p. rewrite filter_In. unfold App.valid_port.
    rewrite !orb_true_iff, !Z.eqb_eq. tauto.
  - intros request. unfold App.start_scan, Props.with_ports. cbn [App.ports
      App.take_screenshots App.run_vuln_check].
    now rewrite AppFacts.filter_valid_port_idem.
  - intros request. unfold App.start_target_scan, Props.with_t_ports.
    cbn [App.targets App.t_ports App.t_take_screenshots App.t_run_vuln_check].
    now rewrite AppFacts.filter_valid_port_idem.
  - intros Hidle request valid_ports. unfold App.start_scan. rewrite Hidle.
    fold valid_ports. split.
    + intros ->. eexists. reflexivity.
    + intros Hne. destruct valid_ports; [congruence | reflexivity].
  - intros Hidle request target_ips Hparse Hips valid_ports total.
    unfold App.start_target_scan. rewrite Hidle, Hparse.
    destruct target_ips as [|ip ips]; [congruence |].
    fold valid_ports. split.
    + intros ->. eexists. reflexivity.
    + intros Hne Hcap. subst total.
      destruct valid_ports as [|p ps] eqn:Hv; [congruence |].
      apply Z.ltb_ge in Hcap. rewrite Hcap. reflexivity.
Qed.

(** C10 at a request for the ports 80, 22, 443 and 3306, and at one for
    the ports 22 and 3306 only. *)
Lemma C10_invalid_ports_filtered_witness :
  let mixed := {| App.ports := [80; 22; 443; 3306];
                  App.take_screenshots := false;
                  App.run_vuln_check := true |} in
  let invalid := {| App.ports := [22; 3306]; App.take_screenshots := false;
                    App.run_vuln_check := true |} in
  App.start_scan 1 mixed Scanner.initial_scan_state
  = (App.StartedRandom [80; 443],
     App.begin_scan Scanner.Random 1 Scanner.initial_scan_state,
     Some (App.RandomTask [80; 443] false true))
  /\ Props.rejected Scanner.initial_scan_state
       (App.start_scan 1 invalid Scanner.initial_scan_state).
Proof.
  intros mixed invalid.
  destruct (C10_invalid_ports_filtered Props.no_dns Props.no_host 1
              Scanner.initial_scan_state) as (_ & _ & _ & Hrandom & _).
  split.
  - apply (Hrandom eq_refl mixed). discriminate.
  - apply (Hrandom eq_refl invalid). reflexivity.
Defined.

(* ===================================================================== *)
(** * scanner.py: target parsing *)
(* ===================================================================== *)

Module ParseFacts.
Import Py PyFacts IpAddress Scanner Props.

(** A text that starts with a scheme and two slashes has three fields or
    more around its slashes, so it is no network. *)
Lemma scheme_not_network (scheme rest : string) (strict : bool) :
  contains_char "/"%char scheme = false ->
  make_IPv4Network (scheme +:+ "//" +:+ rest) strict = None.
Proof.
  intros Hs. unfold make_IPv4Network, split.
  change ("//" +:+ rest) with (String "/"%char (String "/"%char rest)).
  rewrite split_go_app by assumption.
  cbn [split_go]. rewrite Ascii.eqb_refl.
  pose proof (split_length_ge "/"%char rest EmptyString) as Hlen.
  cbn [length]. destruct (length (split_go "/"%char rest EmptyString)) as [|n];
    [lia | reflexivity].
Qed.

Lemma network_not_url (part : string) (network : IPv4Network) :
  make_IPv4Network part false = Some network ->
  startswith part "http://" || startswith part "https://" = false.
Proof.
  intros Hn. apply orb_false_iff. split.
  - destruct (startswith part "http://") eqn:Hp; [| reflexivity].
    apply startswith_app in Hp as [rest ->].
    change ("http://" +:+ rest) with ("http:" +:+ "//" +:+ rest) in Hn.
    rewrite scheme_not_network in Hn by reflexivity. discriminate.
  - destruct (startswith part "https://") eqn:Hp; [| reflexivity].
    apply startswith_app in Hp as [rest ->].
    change ("https://" +:+ rest) with ("https:" +:+ "//" +:+ rest) in Hn.
    rewrite scheme_not_network in Hn by reflexivity. discriminate.
Qed.

Lemma contains_char_truthy (c : ascii) (s : string) :
  contains_char c s = true -> truthy s = true.
Proof. destruct s; [discriminate | reflexivity]. Qed.

End ParseFacts.

(** C9 (as stated): a token that holds a slash is not always read as a
    network. The token ["example.com:80/path"] holds a slash, is no URL
    and no IPv4 network; it is not skipped but taken as a host name with a
    port, and adds the address that the resolver gives for
    [example.com]. *)
Lemma C9_slash_token_resolved :
  Py.contains_char "/"%char "example.com:80/path" = true
  /\ Py.startswith "example.com:80/path" "http://"
     || Py.startswith "example.com:80/path" "https://" = false
  /\ IpAddress.make_IPv4Network "example.com:80/path" false = None
  /\ Scanner.parse_target_ips Props.example_dns Props.no_host
                              "example.com:80/path"
     = Some ["93.184.216.34"].
Proof. vm_compute. repeat split. Qed.

(** C9 (amended): a token that holds a slash and is no URL is first tried
    as an IPv4 network. When it reads as one, it adds no address for a
    prefix shorter than 16 and otherwise the host addresses of the block,
    in order, whatever the resolver answers, and the cache is left alone;
    the input ["192.168.1.0/24"] yields 254 addresses and ["10.0.0.0/8"]
    none. When it does not read as a network, it is taken as a host name:
    the text before its first colon is resolved when it has the form of a
    domain name, and nothing is added otherwise. *)
Theorem C9_cidr_token
    (gethostbyname : string -> Scanner.Lookup)
    (urlparse_hostname : string -> option (option string))
    (part : string) (ips : list string) (cache : gmap string (option string)) :
  Py.contains_char "/"%char (Py.strip part) = true ->
  (forall network,
     IpAddress.make_IPv4Network (Py.strip part) false = Some network ->
     Scanner.parse_part gethostbyname urlparse_hostname (ips, cache) part
     = Some (ips ++ (if IpAddress.prefixlen network <? 16 then []
                     else map IpAddress.string_from_ip_int
                              (IpAddress.hosts network)),
             cache))
  /\ (IpAddress.make_IPv4Network (Py.strip part) false = None ->
      Py.startswith (Py.strip part) "http://"
      || Py.startswith (Py.strip part) "https://" = false ->
      Scanner.parse_part gethostbyname urlparse_hostname (ips, cache) part
      = if Scanner.looks_like_domain (Scanner.host_of (Py.strip part)) then
          match Scanner.resolve_hostname gethostbyname
                  (Scanner.host_of (Py.strip part)) cache with
          | Some (resolved_ip, cache') =>
              Some (Scanner.append_resolved ips resolved_ip, cache')
          | None => None
          end
        else Some (ips, cache))
  /\ (length <$> Scanner.parse_target_ips gethostbyname urlparse_hostname
                                          "192.168.1.0/24") = Some 254%nat
  /\ Scanner.parse_target_ips gethostbyname urlparse_hostname "10.0.0.0/8"
     = Some [].
Proof.
  intros Hslash. split; [| split; [| split; vm_compute; reflexivity]].
  - intros network Hnet. unfold Scanner.parse_part.
    rewrite (ParseFacts.contains_char_truthy _ _ Hslash).
    rewrite (ParseFacts.network_not_url _ _ Hnet).
    cbn [negb]. unfold Scanner.cidr_case. rewrite Hslash, Hnet.
    destruct (IpAddress.prefixlen network <? 16); [| reflexivity].
    now rewrite app_nil_r.
  - intros Hnet Hurl. unfold Scanner.parse_part.
    rewrite (ParseFacts.contains_char_truthy _ _ Hslash), Hurl.
    cbn [negb]. unfold Scanner.cidr_case, IpAddress.IPv4Address.
    rewrite Hslash, Hnet. reflexivity.
Qed.

(** C9 at the token [172.20.5.9/30] between the whitespace characters
    U+3000 and U+00A0, whose block holds two hosts, and at the token
    [example.com:80/path] behind a space. *)
Lemma C9_cidr_token_witness :
  Scanner.parse_part Props.example_dns Props.no_host (["1.1.1.1"], ∅)
                     (Props.padded "172.20.5.9/30")
  = Some (["1.1.1.1"; "172.20.5.9"; "172.20.5.10"], ∅)
  /\ Scanner.parse_part Props.example_dns Props.no_host (["1.1.1.1"], ∅)
                        " example.com:80/path"
     = Some (["1.1.1.1"; "93.184.216.34"],
             <["example.com" := Some "93.184.216.34"]> ∅).
Proof.
  split.
  - destruct (C9_cidr_token Props.example_dns Props.no_host
                (Props.padded "172.20.5.9/30") ["1.1.1.1"] ∅) as [H _];
      [vm_compute; reflexivity |].
    rewrite (H {| IpAddress.network_address := 2886993160;
                  IpAddress.prefixlen := 30 |}); vm_compute; reflexivity.
  - destruct (C9_cidr_token Props.example_dns Props.no_host
                " example.com:80/path" ["1.1.1.1"] ∅) as (_ & H & _);
      [vm_compute; reflexivity |].
    rewrite H; [| vm_compute; reflexivity | vm_compute; reflexivity].
    change (Py.strip " example.com:80/path") with "example.com:80/path".
    change (Scanner.host_of "example.com:80/path") with "example.com".
    change (Scanner.looks_like_domain "example.com") with true. cbn iota.
    unfold Scanner.resolve_hostname. rewrite lookup_empty. reflexivity.
Defined.

(* ===================================================================== *)
(** * scanner.py: the workers *)
(* ===================================================================== *)

Module WorkerFacts.
Import Py PyFacts Scanner App Props.

(** One step of symbolic execution of a worker. *)
Ltac exec_step :=
  unfold mbind, M_bind, mret, M_ret, get_state, update, emit, suspend,
    time_time, save_result, notify_ws, sleep, close_session, gather;
  cbn beta iota;
  cbn [scan_state trace draws probes reads suspensions saves].

Ltac exec := exec_step; repeat (progress exec_step).

(** ** Traces *)

Lemma joined_app_aux (b : list Obs) (a : list Obs) :
  (joined a = true -> joined (a ++ b) = joined b)
  /\ (forall x, joined (x :: a) = true -> joined ((x :: a) ++ b) = joined b).
Proof.
  induction a as [|y a [IH1 IH2]].
  - split; [reflexivity |]. intros x Hx. destruct x; try discriminate; reflexivity.
  - split; [apply IH2 |]. intros x Hx.
    destruct x as [tasks | results | result id | message];
      try discriminate; try (now apply IH2).
    destruct y as [| results | |]; try discriminate.
    cbn [joined app] in *. apply andb_true_iff in Hx as [Hlen Hx].
    rewrite Hlen. now apply IH1.
Qed.

Lemma joined_app (a b : list Obs) :
  joined a = true -> joined (a ++ b) = joined b.
Proof. apply joined_app_aux. Qed.

Lemma quiet_joined (tr : list Obs) : quiet tr = true -> joined tr = true.
Proof.
  induction tr as [|o tr IH]; [reflexivity |]. unfold quiet. cbn [forallb].
  intros H. apply andb_true_iff in H as [Ho Htr].
  destruct o; try discriminate; now apply IH.
Qed.

Lemma quiet_app (a b : list Obs) :
  quiet a = true -> quiet b = true -> quiet (a ++ b) = true.
Proof. unfold quiet. rewrite forallb_app. now intros -> ->. Qed.

Lemma dispatched_app (a b : list Obs) :
  dispatched (a ++ b) = dispatched a ++ dispatched b.
Proof.
  induction a as [|o a IH]; [reflexivity |].
  destruct o; cbn [app dispatched]; now rewrite IH.
Qed.

Lemma quiet_dispatched (tr : list Obs) : quiet tr = true -> dispatched tr = [].
Proof.
  induction tr as [|o tr IH]; [reflexivity |]. unfold quiet. cbn [forallb].
  intros H. apply andb_true_iff in H as [Ho Htr].
  destruct o; try discriminate; now apply IH.
Qed.

(** A batch that is dispatched, joined, and followed by a quiet stretch
    keeps a trace in which every earlier batch was joined in that state. *)
Lemma joined_round (tr : list Obs) (tasks : list (string * Z))
    (results : list (option ProbeResult)) (extra : list Obs) :
  joined tr = true -> length results = length tasks -> quiet extra = true ->
  joined (tr ++ ObsDispatch tasks :: ObsJoin results :: extra) = true.
Proof.
  intros Htr Hlen Hq. rewrite joined_app by assumption.
  cbn [joined]. rewrite Hlen, Nat.eqb_refl. now apply quiet_joined.
Qed.

Lemma length_run_probes (w : World) (n : nat) (tasks : list (string * Z))
    (take_screenshots run_vuln_check : bool) :
  length (run_probes w n tasks take_screenshots run_vuln_check) = length tasks.
Proof.
  revert n. induction tasks as [|[ip port] rest IH]; intros n; [reflexivity |].
  cbn [run_probes length]. now rewrite IH.
Qed.

(** ** Worlds *)

Lemma never_only (w : World) : never_stopped w -> only_stops w.
Proof. intros H n s. left. apply H. Qed.

Lemma stop_at_only (w : World) (stops : nat -> bool) :
  interfere w = stop_at stops -> only_stops w.
Proof.
  intros Hw n s. rewrite Hw. unfold stop_at. destruct (stops n); [now right | now left].
Qed.

Lemma only_stops_fields (w : World) (n : nat) (s : ScanState) :
  only_stops w ->
  total_scanned (interfere w n s) = total_scanned s
  /\ total_found (interfere w n s) = total_found s
  /\ target_total (interfere w n s) = target_total s
  /\ target_done (interfere w n s) = target_done s
  /\ (running s = false -> running (interfere w n s) = false).
Proof.
  intros Hw. destruct (Hw n s) as [-> | ->]; [tauto |].
  unfold stop_scan. destruct (running s) eqn:Hr; cbn; rewrite ?Hr; tauto.
Qed.

Lemma os_total_scanned (w : World) (n : nat) (s : ScanState) :
  only_stops w -> total_scanned (interfere w n s) = total_scanned s.
Proof. intros Hw. apply (only_stops_fields w n s Hw). Qed.

Lemma os_target_total (w : World) (n : nat) (s : ScanState) :
  only_stops w -> target_total (interfere w n s) = target_total s.
Proof. intros Hw. apply (only_stops_fields w n s Hw). Qed.

Lemma os_target_done (w : World) (n : nat) (s : ScanState) :
  only_stops w -> target_done (interfere w n s) = target_done s.
Proof. intros Hw. apply (only_stops_fields w n s Hw). Qed.

(** Reads a counter through the assignments and the stop requests that
    leave it alone. *)
Ltac through Hw :=
  repeat first
    [ rewrite os_total_scanned by exact Hw
    | rewrite os_target_total by exact Hw
    | rewrite os_target_done by exact Hw
    | progress cbn [total_scanned target_total target_done total_found running
                    set_running set_total_scanned set_total_found
                    set_current_rate set_target_total set_target_done] ].

(** ** The result loops *)

Section Handlers.
Variable w : World.

(** Once the flag is clear, the result loop of either worker handles
    nothing more. *)
Lemma handle_target_results_stopped (results : list (option ProbeResult)) (r : Run) :
  running (scan_state r) = false ->
  handle_target_results w results r = Some (tt, r).
Proof.
  intros Hr. destruct results as [|result rest]; [reflexivity |].
  cbn [handle_target_results]. exec. now rewrite Hr.
Qed.

Lemma handle_results_stopped (results : list (option ProbeResult)) (r : Run) :
  running (scan_state r) = false ->
  handle_results w results r = Some (tt, r).
Proof.
  intros Hr. destruct results as [|result rest]; [reflexivity |].
  cbn [handle_results]. exec. now rewrite Hr.
Qed.

(** The result loop of the target worker always finishes; it adds a quiet
    stretch to the trace; stop requests leave the two batch counters to
    it; and when nothing interferes it counts every result. *)
Lemma handle_target_results_spec (results : list (option ProbeResult)) (r : Run) :
  exists r' extra,
    handle_target_results w results r = Some (tt, r')
    /\ trace r' = trace r ++ extra /\ quiet extra = true
    /\ (only_stops w ->
        total_scanned (scan_state r') = total_scanned (scan_state r)
        /\ target_total (scan_state r') = target_total (scan_state r))
    /\ (never_stopped w -> running (scan_state r) = true ->
        running (scan_state r') = true
        /\ target_done (scan_state r')
           = target_done (scan_state r) + Z.of_nat (length results)).
Proof.
  revert r. induction results as [|result rest IH]; intros r.
  - exists r, []. cbn [handle_target_results]. exec. rewrite app_nil_r.
    repeat split; try reflexivity; try assumption. cbn [length]. lia.
  - destruct (running (scan_state r)) eqn:Hr.
    2:{ exists r, []. rewrite handle_target_results_stopped by assumption.
        rewrite app_nil_r. repeat split; try reflexivity; congruence. }
    cbn [handle_target_results]. exec. rewrite Hr. cbn [negb].
    destruct result as [result|]; exec.
    + match goal with |- context [handle_target_results w rest ?r1] =>
        destruct (IH r1) as (r' & extra & Hrun & Htr & Hq & Hos & Hns) end.
      cbn [scan_state trace] in *.
      eexists r', (_ :: _ :: extra). split; [exact Hrun |].
      split; [rewrite Htr, <- !app_assoc; reflexivity |].
      split; [unfold quiet in *; cbn [forallb andb]; exact Hq |]. split.
      * intros Hw. destruct (Hos Hw) as [-> ->]. through Hw.
        split; reflexivity.
      * intros Hw _. rewrite !Hw in *. cbn in Hns.
        destruct (Hns Hw Hr) as [-> ->]. split; [reflexivity |].
        cbn [length]. lia.
    + match goal with |- context [handle_target_results w rest ?r1] =>
        destruct (IH r1) as (r' & extra & Hrun & Htr & Hq & Hos & Hns) end.
      cbn [scan_state trace] in *.
      exists r', extra. split; [exact Hrun |]. split; [exact Htr |].
      split; [exact Hq |]. split.
      * intros Hw. destruct (Hos Hw) as [-> ->]. split; reflexivity.
      * intros Hw _. destruct (Hns Hw Hr) as [-> ->]. split; [reflexivity |].
        cbn [length target_done set_target_done]. lia.
Qed.

(** The result loop of the random worker: the same, without the target
    counters. *)
Lemma handle_results_spec (results : list (option ProbeResult)) (r : Run) :
  exists r' extra,
    handle_results w results r = Some (tt, r')
    /\ trace r' = trace r ++ extra /\ quiet extra = true
    /\ (only_stops w ->
        total_scanned (scan_state r') = total_scanned (scan_state r)).
Proof.
  revert r. induction results as [|result rest IH]; intros r.
  - exists r, []. cbn [handle_results]. exec. rewrite app_nil_r.
    repeat split; reflexivity.
  - destruct (running (scan_state r)) eqn:Hr.
    2:{ exists r, []. rewrite handle_results_stopped by assumption.
        rewrite app_nil_r. repeat split; reflexivity. }
    cbn [handle_results]. exec. rewrite Hr. cbn [negb].
    destruct result as [result|]; exec.
    + match goal with |- context [handle_results w rest ?r1] =>
        destruct (IH r1) as (r' & extra & Hrun & Htr & Hq & Hos) end.
      cbn [scan_state trace] in *.
      eexists r', (_ :: _ :: extra). split; [exact Hrun |].
      split; [rewrite Htr, <- !app_assoc; reflexivity |].
      split; [unfold quiet in *; cbn [forallb andb]; exact Hq |].
      intros Hw. rewrite (Hos Hw). through Hw. reflexivity.
    + match goal with |- context [handle_results w rest ?r1] =>
        destruct (IH r1) as (r' & extra & Hrun & Htr & Hq & Hos) end.
      exists r', extra. repeat split; assumption.
Qed.

(** ** The target worker *)

(** One batch of the target worker: it always finishes; the batch is
    dispatched and joined before anything else happens; [total_scanned]
    grows by the size of the batch; and when nothing interferes every
    result is counted in [target_done]. *)
Lemma scan_target_round_spec (batch : list (string * Z))
    (take_screenshots run_vuln_check : bool) (rate_counter : Z) (rate_start : Q)
    (r : Run) :
  exists rate r' results extra,
    scan_target_round w batch take_screenshots run_vuln_check
                      rate_counter rate_start r = Some (rate, r')
    /\ trace r' = trace r ++ ObsDispatch batch :: ObsJoin results :: extra
    /\ length results = length batch /\ quiet extra = true
    /\ (only_stops w ->
        total_scanned (scan_state r')
        = total_scanned (scan_state r) + Z.of_nat (length batch)
        /\ target_total (scan_state r') = target_total (scan_state r))
    /\ (never_stopped w -> running (scan_state r) = true ->
        running (scan_state r') = true
        /\ target_done (scan_state r')
           = target_done (scan_state r) + Z.of_nat (length batch)).
Proof.
  unfold scan_target_round. exec.
  match goal with |- context [handle_target_results w ?results ?r1] =>
    destruct (handle_target_results_spec results r1)
      as (r2 & extra & Hrun & Htr & Hq & Hos & Hns);
    set (rs := results) in * end.
  cbn [scan_state trace] in *. rewrite Hrun. exec.
  assert (Hlen : length rs = length batch) by apply length_run_probes.
  destruct (Qle_bool 1 _); exec.
  - eexists _, _, rs, (extra ++ [_]). split; [reflexivity |].
    cbn [trace scan_state]. split; [rewrite Htr, <- !app_assoc; reflexivity |].
    split; [exact Hlen |].
    split; [apply quiet_app; [exact Hq | reflexivity] |]. split.
    + intros Hw. through Hw. destruct (Hos Hw) as [-> ->]. through Hw.
      split; reflexivity.
    + intros Hw Hr. rewrite !Hw in *. cbn.
      destruct (Hns Hw Hr) as [-> ->]. rewrite Hlen. split; reflexivity.
  - eexists _, _, rs, (extra ++ [_]). split; [reflexivity |].
    cbn [trace scan_state]. split; [rewrite Htr, <- !app_assoc; reflexivity |].
    split; [exact Hlen |].
    split; [apply quiet_app; [exact Hq | reflexivity] |]. split.
    + intros Hw. through Hw. destruct (Hos Hw) as [-> ->]. through Hw.
      split; reflexivity.
    + intros Hw Hr. rewrite !Hw in *. cbn.
      destruct (Hns Hw Hr) as [-> ->]. rewrite Hlen. split; reflexivity.
Qed.

(** The loop over the batches: it always finishes, every batch it
    dispatches is joined, and when nothing interferes it runs every batch
    and counts every probe. *)
Lemma scan_target_loop_spec (batches : list (list (string * Z)))
    (take_screenshots run_vuln_check : bool) (rate_counter : Z) (rate_start : Q)
    (r : Run) :
  exists r' extra,
    scan_target_loop w batches take_screenshots run_vuln_check
                     rate_counter rate_start r = Some (tt, r')
    /\ trace r' = trace r ++ extra /\ joined extra = true
    /\ (only_stops w ->
        target_total (scan_state r') = target_total (scan_state r))
    /\ (never_stopped w -> running (scan_state r) = true ->
        running (scan_state r') = true
        /\ dispatched extra = batches
        /\ target_done (scan_state r')
           = target_done (scan_state r) + Z.of_nat (length (concat batches))
        /\ total_scanned (scan_state r')
           = total_scanned (scan_state r) + Z.of_nat (length (concat batches))).
Proof.
  revert rate_counter rate_start r.
  induction batches as [|batch rest IH]; intros rate_counter rate_start r.
  - exists r, []. cbn [scan_target_loop]. exec. rewrite app_nil_r.
    repeat split; try reflexivity; try assumption; cbn; lia.
  - cbn [scan_target_loop]. exec.
    destruct (running (scan_state r)) eqn:Hr; cbn [negb].
    2:{ exists r, []. rewrite app_nil_r. repeat split; try reflexivity; congruence. }
    destruct (scan_target_round_spec batch take_screenshots run_vuln_check
                rate_counter rate_start r)
      as ([rc rs] & r1 & results & extra1 & Hrun & Htr & Hlen & Hq & Hos & Hns).
    rewrite Hrun.
    destruct (IH rc rs r1) as (r2 & extra2 & Hrun2 & Htr2 & Hj2 & Hos2 & Hns2).
    rewrite Hrun2.
    exists r2, (ObsDispatch batch :: ObsJoin results :: extra1 ++ extra2).
    split; [reflexivity |].
    split; [rewrite Htr2, Htr, <- app_assoc; reflexivity |]. split; [| split].
    + cbn [joined]. rewrite Hlen, Nat.eqb_refl. cbn [andb].
      rewrite joined_app by now apply quiet_joined. exact Hj2.
    + intros Hw. rewrite (Hos2 Hw). apply (Hos Hw).
    + intros Hw _. destruct (Hns Hw Hr) as [Hr1 Hd1].
      destruct (Hns2 Hw Hr1) as (Hr2 & Hdisp & Hd2 & Hs2).
      destruct (Hos (never_only w Hw)) as [Hs1 _].
      split; [exact Hr2 |]. split; [| split].
      * cbn [dispatched]. f_equal.
        now rewrite dispatched_app, (quiet_dispatched _ Hq), Hdisp.
      * rewrite Hd2, Hd1. cbn [concat]. rewrite length_app. lia.
      * rewrite Hs2, Hs1. cbn [concat]. rewrite length_app. lia.
Qed.

(** The target worker as a whole. *)
Lemma scan_target_worker_spec (target_ips : list string) (ports : list Z)
    (take_screenshots run_vuln_check : bool) (r : Run) :
  let total := Z.of_nat (length target_ips) * Z.of_nat (length ports) in
  exists r' extra data,
    scan_target_worker w target_ips ports take_screenshots run_vuln_check r
    = Some (tt, r')
    /\ trace r' = trace r ++ extra /\ joined extra = true
    /\ last extra = Some (ObsNotify (MsgStatus data))
    /\ sd_running data = false
    /\ (only_stops w ->
        running (scan_state r') = false
        /\ target_total (scan_state r') = total
        /\ exists done, sd_target data = Some (total, done)
                        /\ target_done (scan_state r') = done)
    /\ (never_stopped w -> running (scan_state r) = true ->
        dispatched extra = target_batches (all_tasks_of target_ips ports)
        /\ target_done (scan_state r')
           = Z.of_nat (length (concat (target_batches
                                         (all_tasks_of target_ips ports))))
        /\ total_scanned (scan_state r')
           = total_scanned (scan_state r)
             + Z.of_nat (length (concat (target_batches
                                           (all_tasks_of target_ips ports))))).
Proof.
  intros total. unfold scan_target_worker. exec.
  match goal with |- context [scan_target_loop w ?bs ?a ?b ?c ?d ?r1] =>
    destruct (scan_target_loop_spec bs a b c d r1)
      as (r2 & extra & Hrun & Htr & Hj & Hos & Hns) end.
  cbn [scan_state trace] in *. rewrite Hrun. exec.
  eexists _, (extra ++ [_]), _. split; [reflexivity |]. cbn [trace scan_state].
  split; [rewrite Htr, <- app_assoc; reflexivity |].
  split; [rewrite joined_app by exact Hj; reflexivity |].
  split; [apply last_snoc |]. split; [reflexivity |]. split.
  - intros Hw.
    assert (Hstop : forall n s, running s = false ->
                      running (interfere w n s) = false).
    { intros n s. apply (only_stops_fields w n s Hw). }
    split; [apply Hstop; reflexivity |].
    assert (Htot : forall n s, target_total (interfere w n s) = target_total s)
      by (intros; now apply os_target_total).
    assert (Hdone : forall n s, target_done (interfere w n s) = target_done s)
      by (intros n s; apply (only_stops_fields w n s Hw)).
    cbn [target_final_status sd_target]. through Hw.
    rewrite ?Htot, (Hos Hw). through Hw. split; [reflexivity |].
    eexists. split; [reflexivity |]. through Hw. reflexivity.
  - intros Hw Hr. destruct (Hns Hw Hr) as (_ & Hd & Hdone & Hscan).
    split; [| split].
    + rewrite dispatched_app, Hd. cbn [dispatched]. apply app_nil_r.
    + pose proof (never_only w Hw) as Ho. through Ho. rewrite Hdone.
      through Ho. lia.
    + pose proof (never_only w Hw) as Ho. through Ho. rewrite Hscan.
      through Ho. reflexivity.
Qed.

End Handlers.

(** ** The batches of the target worker *)

Lemma length_all_tasks_of (target_ips : list string) (ports : list Z) :
  length (all_tasks_of target_ips ports)
  = (length target_ips * length ports)%nat.
Proof.
  unfold all_tasks_of. induction target_ips as [|ip rest IH]; [reflexivity |].
  cbn [flat_map length]. rewrite length_app, length_map, IH. lia.
Qed.

(** The slices taken from an offset on: together they are the list from
    that offset on, each holds between 1 and 20 pairs, and each but the
    last holds 20. *)
Lemma batches_from (l : list (string * Z)) (fuel : nat) (lo : Z) :
  0 <= lo -> (Z.to_nat (Z.of_nat (length l) - lo) <= fuel)%nat ->
  let batches := map (fun i => slice l i (i + 20))
                     (range_step_go fuel lo (Z.of_nat (length l)) 20) in
  concat batches = drop (Z.to_nat lo) l
  /\ Forall (fun b => (1 <= length b <= 20)%nat) batches
  /\ (forall pre b post, batches = pre ++ b :: post -> post <> [] ->
      length b = 20%nat).
Proof.
  revert lo. induction fuel as [|fuel IH]; intros lo Hlo Hfuel batches; subst batches.
  - cbn [range_step_go map concat]. split; [| split].
    + symmetry. apply drop_ge. lia.
    + constructor.
    + intros [|? ?] ? ? H; discriminate.
  - cbn [range_step_go]. destruct (lo <? Z.of_nat (length l)) eqn:Hlt.
    2:{ apply Z.ltb_ge in Hlt. cbn [map concat]. split; [| split].
        - symmetry. apply drop_ge. lia.
        - constructor.
        - intros [|? ?] ? ? H; discriminate. }
    apply Z.ltb_lt in Hlt. cbn [map concat].
    destruct (IH (lo + 20)) as (Hc & Hf & Hl); [lia | lia |].
    assert (Hslice : slice l lo (lo + 20) = take 20 (drop (Z.to_nat lo) l)).
    { unfold slice. replace (Z.to_nat (lo + 20 - lo)) with 20%nat by lia.
      reflexivity. }
    assert (Hlen : length (slice l lo (lo + 20))
                   = Nat.min 20 (length l - Z.to_nat lo)).
    { rewrite Hslice, length_take, length_drop. reflexivity. }
    split; [| split].
    + rewrite Hc, Hslice.
      replace (Z.to_nat (lo + 20)) with (Z.to_nat lo + 20)%nat by lia.
      rewrite <- drop_drop. apply take_drop.
    + constructor; [rewrite Hlen; lia | exact Hf].
    + intros [|x pre] b post Heq Hpost.
      * cbn [app] in Heq. injection Heq as <- Hrest. rewrite Hlen.
        destruct fuel as [|fuel']; [cbn in Hrest; congruence |].
        cbn [range_step_go] in Hrest.
        destruct (lo + 20 <? Z.of_nat (length l)) eqn:Hnext;
          [apply Z.ltb_lt in Hnext; lia | cbn in Hrest; congruence].
      * cbn [app] in Heq. injection Heq as _ Hrest. now apply (Hl pre b post).
Qed.

(** The batches of the target worker are the queue cut into groups of 20,
    the last group holding what is left. *)
Lemma target_batches_spec (all_tasks : list (string * Z)) :
  concat (target_batches all_tasks) = all_tasks
  /\ Forall (fun b => (1 <= length b <= 20)%nat) (target_batches all_tasks)
  /\ (forall pre b post, target_batches all_tasks = pre ++ b :: post ->
      post <> [] -> length b = 20%nat).
Proof.
  unfold target_batches, range_step.
  apply (batches_from all_tasks _ 0); lia.
Qed.


(** ** The random worker *)

Section Random.
Variable w : World.
Variable draw_fuel : nat.

(** The loop that builds a batch touches neither [scan_state] nor the
    trace; with the flag set it draws as many addresses as it is asked for
    and pairs each with every port. *)
Lemma build_tasks_spec (n : nat) (ports : list Z) (tasks0 tasks : list (string * Z))
    (r r' : Run) :
  build_tasks w draw_fuel n ports tasks0 r = Some (tasks, r') ->
  scan_state r' = scan_state r /\ trace r' = trace r
  /\ (running (scan_state r) = true ->
      exists ips, length ips = n
                  /\ tasks = tasks0 ++ all_tasks_of ips ports
                  /\ Forall (fun ip => exists k k',
                               IpGenerator.generate_random_ip
                                 draw_fuel (entropy w) k = Some (ip, k')) ips).
Proof.
  revert tasks0 r. induction n as [|n IH]; intros tasks0 r.
  - cbn [build_tasks]. exec. intros H. injection H as <- <-.
    repeat split. intros _. exists []. cbn. now rewrite app_nil_r.
  - cbn [build_tasks]. exec. destruct (running (scan_state r)) eqn:Hr; cbn [negb].
    + unfold random_ip.
      destruct (IpGenerator.generate_random_ip draw_fuel (entropy w) (draws r))
        as [[ip k]|] eqn:Hip; [| discriminate].
      intros H. apply IH in H as (Hs & Ht & Hips). cbn [scan_state trace] in *.
      split; [exact Hs |]. split; [exact Ht |]. intros _.
      destruct (Hips Hr) as (ips & Hlen & -> & Hall).
      exists (ip :: ips). split; [cbn; now rewrite Hlen |]. split.
      * unfold all_tasks_of. cbn [flat_map]. now rewrite app_assoc.
      * constructor; [eauto | exact Hall].
    + intros H. injection H as <- <-. repeat split. discriminate.
Qed.

(** One batch of the random worker, when it finishes. *)
Lemma scan_worker_round_spec (ports : list Z)
    (take_screenshots run_vuln_check : bool) (rate_counter : Z) (rate_start : Q)
    (r r' : Run) (rate : Z * Q) :
  scan_worker_round w draw_fuel ports take_screenshots run_vuln_check
                    rate_counter rate_start r = Some (rate, r') ->
  exists tasks results extra,
    trace r' = trace r ++ ObsDispatch tasks :: ObsJoin results :: extra
    /\ length results = length tasks /\ quiet extra = true
    /\ (running (scan_state r) = true ->
        exists ips, length ips = 50%nat /\ tasks = all_tasks_of ips ports
                    /\ Forall (fun ip => exists k k',
                                 IpGenerator.generate_random_ip
                                   draw_fuel (entropy w) k = Some (ip, k')) ips)
    /\ (only_stops w ->
        total_scanned (scan_state r')
        = total_scanned (scan_state r) + Z.of_nat (length tasks)).
Proof.
  unfold scan_worker_round. exec.
  destruct (build_tasks w draw_fuel 50 ports [] r) as [[tasks r0]|] eqn:Hb;
    [| discriminate].
  apply build_tasks_spec in Hb as (Hs0 & Ht0 & Hips). exec.
  match goal with |- context [handle_results w ?results ?r1] =>
    destruct (handle_results_spec w results r1)
      as (r2 & extra & Hrun & Htr & Hq & Hos);
    set (rs := results) in * end.
  cbn [scan_state trace] in *. rewrite Hrun. exec.
  assert (Hlen : length rs = length tasks) by apply length_run_probes.
  destruct (Qle_bool 1 _); exec; intros H; injection H as <- <-;
    cbn [trace scan_state].
  - eexists tasks, rs, (extra ++ [_]).
    split; [rewrite Htr, Ht0, <- !app_assoc; reflexivity |].
    split; [exact Hlen |].
    split; [apply quiet_app; [exact Hq | reflexivity] |].
    split; [exact Hips |].
    intros Hw. through Hw. rewrite (Hos Hw), Hs0. through Hw. reflexivity.
  - exists tasks, rs, extra.
    split; [rewrite Htr, Ht0, <- !app_assoc; reflexivity |].
    split; [exact Hlen |]. split; [exact Hq |]. split; [exact Hips |].
    intros Hw. through Hw. rewrite (Hos Hw), Hs0. through Hw. reflexivity.
Qed.

(** The [while] loop, when it finishes: every batch it dispatched was
    joined, and the flag is clear. *)
Lemma scan_worker_loop_spec (rounds : nat) (ports : list Z)
    (take_screenshots run_vuln_check : bool) (rate_counter : Z) (rate_start : Q)
    (r r' : Run) :
  scan_worker_loop w draw_fuel rounds ports take_screenshots run_vuln_check
                   rate_counter rate_start r = Some (tt, r') ->
  exists extra, trace r' = trace r ++ extra /\ joined extra = true
                /\ running (scan_state r') = false.
Proof.
  revert rate_counter rate_start r.
  induction rounds as [|rounds IH]; intros rate_counter rate_start r.
  - cbn [scan_worker_loop]. exec.
    destruct (running (scan_state r)) eqn:Hr; cbn [negb]; [discriminate |].
    intros H. injection H as <-. exists []. now rewrite app_nil_r.
  - cbn [scan_worker_loop]. exec.
    destruct (running (scan_state r)) eqn:Hr; cbn [negb].
    2:{ intros H. injection H as <-. exists []. now rewrite app_nil_r. }
    destruct (scan_worker_round w draw_fuel ports take_screenshots
                run_vuln_check rate_counter rate_start r)
      as [[[rc rs] r1]|] eqn:Hround; [| discriminate].
    apply scan_worker_round_spec in Hround
      as (tasks & results & extra1 & Htr & Hlen & Hq & _ & _).
    intros H. apply IH in H as (extra2 & Htr2 & Hj2 & Hr2).
    exists (ObsDispatch tasks :: ObsJoin results :: extra1 ++ extra2).
    split; [rewrite Htr2, Htr, <- app_assoc; reflexivity |]. split; [| exact Hr2].
    cbn [joined]. rewrite Hlen, Nat.eqb_refl. cbn [andb].
    rewrite joined_app by now apply quiet_joined. exact Hj2.
Qed.

(** The random worker as a whole, when it finishes. *)
Lemma scan_worker_spec (rounds : nat) (ports : list Z)
    (take_screenshots run_vuln_check : bool) (r r' : Run) :
  scan_worker w draw_fuel rounds ports take_screenshots run_vuln_check r
  = Some (tt, r') ->
  exists extra data,
    trace r' = trace r ++ extra /\ joined extra = true
    /\ last extra = Some (ObsNotify (MsgStatus data))
    /\ sd_running data = false.
Proof.
  unfold scan_worker. exec.
  match goal with |- context [scan_worker_loop w draw_fuel ?n ?p ?a ?b ?c ?d ?r1] =>
    destruct (scan_worker_loop w draw_fuel n p a b c d r1) as [[[] r2]|] eqn:Hloop;
      [| discriminate] end.
  apply scan_worker_loop_spec in Hloop as (extra & Htr & Hj & _).
  cbn [trace] in Htr. exec. intros H. injection H as <-. cbn [trace].
  eexists (extra ++ [_]), _.
  split; [rewrite Htr, <- app_assoc; reflexivity |].
  split; [rewrite joined_app by exact Hj; reflexivity |].
  split; [apply last_snoc | reflexivity].
Qed.

End Random.

End WorkerFacts.




(** C6: a target run in which nothing interferes with [scan_state], so
    that [stop_scan] is never served, runs every batch of its queue and
    ends with the flag clear, with [target_done] and [target_total] both
    equal to the number of addresses times the number of ports, with that
    many probes dispatched and counted in [total_scanned], and with a last
    status message that carries [running = false] and the two counters. *)
Theorem C6_target_run_completes (w : Scanner.World)
    (target_ips : list string) (ports : list Z)
    (take_screenshots run_vuln_check : bool) (r : Scanner.Run) :
  App.never_stopped w ->
  Scanner.running (Scanner.scan_state r) = true ->
  let total := Z.of_nat (length target_ips) * Z.of_nat (length ports) in
  exists r' extra data,
    Scanner.scan_target_worker w target_ips ports take_screenshots
                               run_vuln_check r = Some (tt, r')
    /\ Scanner.trace r' = Scanner.trace r ++ extra
    /\ concat (Props.dispatched extra)
       = Scanner.all_tasks_of target_ips ports
    /\ Z.of_nat (length (concat (Props.dispatched extra))) = total
    /\ Props.joined extra = true
    /\ Scanner.running (Scanner.scan_state r') = false
    /\ Scanner.target_done (Scanner.scan_state r') = total
    /\ Scanner.target_total (Scanner.scan_state r') = total
    /\ Scanner.total_scanned (Scanner.scan_state r')
       = Scanner.total_scanned (Scanner.scan_state r) + total
    /\ last extra = Some (Scanner.ObsNotify (Scanner.MsgStatus data))
    /\ Scanner.sd_running data = false
    /\ Scanner.sd_target data = Some (total, total).
Proof.
  intros Hw Hr total.
  destruct (WorkerFacts.scan_target_worker_spec w target_ips ports
              take_screenshots run_vuln_check r)
    as (r' & extra & data & Hrun & Htr & Hj & Hlast & Hdata & Hos & Hns).
  destruct (Hos (WorkerFacts.never_only w Hw))
    as (Hstop & Htotal & done & Htarget & Hdone).
  destruct (Hns Hw Hr) as (Hdisp & Hd & Hscan).
  destruct (WorkerFacts.target_batches_spec
              (Scanner.all_tasks_of target_ips ports)) as (Hconcat & _ & _).
  rewrite Hconcat, WorkerFacts.length_all_tasks_of, Nat2Z.inj_mul in Hd, Hscan.
  fold total in Hd, Hscan, Htotal, Htarget.
  exists r', extra, data. rewrite Hdisp, Hconcat.
  rewrite WorkerFacts.length_all_tasks_of, Nat2Z.inj_mul.
  repeat split; try assumption.
  rewrite Htarget. congruence.
Qed.

(** C6 at three addresses and two ports: six probes, and both counters at
    six when the run is over. *)
Lemma C6_target_run_completes_witness :
  exists r' extra data,
    Scanner.scan_target_worker (Props.answering_world Props.no_stop)
      ["198.51.100.1"; "198.51.100.2"; "198.51.100.3"] [80; 443] false false
      Props.target_start = Some (tt, r')
    /\ Scanner.trace r' = Scanner.trace Props.target_start ++ extra
    /\ Scanner.running (Scanner.scan_state r') = false
    /\ Scanner.target_done (Scanner.scan_state r') = 6
    /\ Scanner.target_total (Scanner.scan_state r') = 6
    /\ last extra = Some (Scanner.ObsNotify (Scanner.MsgStatus data))
    /\ Scanner.sd_running data = false
    /\ Scanner.sd_target data = Some (6, 6).
Proof.
  destruct (C6_target_run_completes (Props.answering_world Props.no_stop)
              ["198.51.100.1"; "198.51.100.2"; "198.51.100.3"] [80; 443]
              false false Props.target_start)
    as (r' & extra & data & Hrun & Htr & _ & _ & _ & Hstop & Hdone & Htotal
        & _ & Hlast & Hdata & Htarget).
  - intros n s. reflexivity.
  - reflexivity.
  - exists r', extra, data. repeat split; assumption.
Defined.




(* ===================================================================== *)
(** * ip_generator.py: further properties of the sampler *)
(* ===================================================================== *)

Module SamplerFacts.
Import Py PyFacts IpAddress IpFacts IpGenerator GeneratorFacts Props.

Lemma is_valid_global_ip_in_false (networks : list IPv4Network) (ip : Z) :
  is_valid_global_ip_in networks ip = false <->
  exists network, In network networks /\ contains network ip = true.
Proof.
  induction networks as [|network rest IH]; cbn [is_valid_global_ip_in].
  - split; [discriminate | intros (? & [] & _)].
  - destruct (contains network ip) eqn:Hc.
    + split; [| reflexivity]. intros _. exists network. split; [now left | exact Hc].
    + rewrite IH. split.
      * intros (n & Hn & Hcn). exists n. split; [now right | exact Hcn].
      * intros (n & [<- | Hn] & Hcn); [congruence |]. now exists n.
Qed.

(** [generate_random_ips]: as many addresses as asked for, each the text
    of an integer of [1, 0xFFFFFFFE] that the filter accepts. *)
Lemma generate_random_ips_spec (count fuel : nat) (entropy : nat -> Z)
    (k : nat) (ips : list string) (k' : nat) :
  generate_random_ips count fuel entropy k = Some (ips, k') ->
  length ips = count
  /\ (k + count <= k')%nat
  /\ Forall (fun s => exists n,
               s = string_from_ip_int n
               /\ 1 <= n <= 0xFFFFFFFE
               /\ is_valid_global_ip n = true) ips.
Proof.
  revert k ips k'. induction count as [|count IH]; intros k ips k';
    cbn [generate_random_ips].
  - intros H. injection H as <- <-. repeat split; [lia | constructor].
  - destruct (generate_random_ip fuel entropy k)
      as [[ip k1]|] eqn:Hip; [| discriminate].
    destruct (generate_random_ips count fuel entropy k1)
      as [[rest k2]|] eqn:Hrest; [| discriminate].
    intros H. injection H as <- <-.
    destruct (IH _ _ _ Hrest) as (Hlen & Hk & Hall).
    apply generate_random_ip_draw in Hip
      as (j & Hj & -> & -> & Hv).
    repeat split; [cbn; now rewrite Hlen | lia |].
    constructor; [| exact Hall].
    eexists. split; [reflexivity |]. split; [| exact Hv].
    apply randint_bounds. lia.
Qed.

End SamplerFacts.

(** X1: the address filter rejects exactly the addresses of the intervals of
    the excluded networks: a 32-bit address is refused if and only if it
    lies between the network address and the broadcast address of one of
    them. *)
Theorem X1_is_valid_global_ip_intervals (ip : Z) :
  Props.is_address ip ->
  IpGenerator.is_valid_global_ip ip = false <->
  exists network,
    In network IpGenerator.EXCLUDED_NETWORKS /\ Props.in_range network ip.
Proof.
  intros Hip. unfold IpGenerator.is_valid_global_ip.
  rewrite SamplerFacts.is_valid_global_ip_in_false.
  pose proof GeneratorFacts.excluded_well_formed as Hall.
  rewrite Forall_forall in Hall.
  split; intros (network & Hin & H); exists network; (split; [exact Hin |]);
    apply (IpFacts.contains_in_range network ip); try assumption;
    apply Hall; now apply list_elem_of_In.
Qed.

(** X1 at 172.31.255.255, the last address of 172.16.0.0/12. *)
Lemma X1_is_valid_global_ip_intervals_witness :
  IpGenerator.is_valid_global_ip 2887778303 = false.
Proof.
  apply (X1_is_valid_global_ip_intervals 2887778303).
  - unfold Props.is_address. change (2 ^ 32) with 4294967296. lia.
  - exists (IpAddress.net 172 16 0 0 12). split.
    + unfold IpGenerator.EXCLUDED_NETWORKS. cbn [In]. tauto.
    + unfold Props.in_range. vm_compute. split; discriminate.
Defined.

(** X2: [generate_random_ip] returns the first valid draw: it succeeds
    exactly when some draw within the fuel is a valid address, it returns
    the earliest such draw, and it consumes the stream up to and including
    it. *)
Theorem X2_generate_random_ip_first_valid (fuel : nat) (entropy : nat -> Z)
    (k : nat) (s : string) (k' : nat) :
  IpGenerator.generate_random_ip fuel entropy k = Some (s, k') <->
  exists j,
    (k <= j < k + fuel)%nat /\ k' = S j
    /\ s = IpAddress.string_from_ip_int
             (IpGenerator.randint 1 0xFFFFFFFE (entropy j))
    /\ IpGenerator.is_valid_global_ip
         (IpGenerator.randint 1 0xFFFFFFFE (entropy j)) = true
    /\ forall i, (k <= i < j)%nat ->
         IpGenerator.is_valid_global_ip
           (IpGenerator.randint 1 0xFFFFFFFE (entropy i)) = false.
Proof.
  revert k. induction fuel as [|fuel IH]; intros k;
    cbn [IpGenerator.generate_random_ip].
  - split; [discriminate | intros (j & Hj & _); lia].
  - destruct (IpGenerator.is_valid_global_ip
                (IpGenerator.randint 1 4294967294 (entropy k))) eqn:Hk.
    + split.
      * intros H. injection H as <- <-. exists k.
        repeat split; try lia; try assumption.
      * intros (j & Hj & -> & -> & Hv & Hfirst).
        destruct (Nat.eq_dec j k) as [-> | Hne]; [reflexivity |].
        rewrite Hfirst in Hk by lia. discriminate.
    + rewrite IH. split.
      * intros (j & Hj & Hk' & Hs & Hv & Hfirst). exists j.
        repeat split; try lia; try assumption.
        all: intros i Hi; destruct (Nat.eq_dec i k) as [-> | Hne]; [exact Hk |].
        all: apply Hfirst; lia.
      * intros (j & Hj & Hk' & Hs & Hv & Hfirst). exists j.
        assert (j <> k) by (intros ->; congruence).
        repeat split; try lia; try assumption.
        all: intros i Hi; apply Hfirst; lia.
Qed.

(** X3: [generate_random_ips] returns as many addresses as it is asked for,
    and each is the text of an integer of [1, 0xFFFFFFFE] that the address
    filter accepts. *)
Theorem X3_generate_random_ips_count (count fuel : nat) (entropy : nat -> Z)
    (k : nat) (ips : list string) (k' : nat) :
  IpGenerator.generate_random_ips count fuel entropy k = Some (ips, k') ->
  length ips = count
  /\ (k + count <= k')%nat
  /\ Forall (fun s => exists n,
               s = IpAddress.string_from_ip_int n
               /\ 1 <= n <= 0xFFFFFFFE
               /\ IpGenerator.is_valid_global_ip n = true) ips.
Proof. apply SamplerFacts.generate_random_ips_spec. Qed.

(** X3 at three addresses drawn from a concrete stream. *)
Lemma X3_generate_random_ips_count_witness :
  exists ips k',
    IpGenerator.generate_random_ips 3 5 (fun n => Z.of_nat n * 1000000007) 0
    = Some (ips, k')
    /\ length ips = 3%nat.
Proof.
  destruct (IpGenerator.generate_random_ips 3 5
              (fun n => Z.of_nat n * 1000000007) 0) as [[ips k']|] eqn:H;
    [| vm_compute in H; discriminate].
  exists ips, k'. split; [reflexivity |].
  apply (X3_generate_random_ips_count 3 5 _ 0 ips k' H).
Defined.

(* ===================================================================== *)
(** * scanner.py: further properties of target parsing *)
(* ===================================================================== *)

Module TextFacts.
Import Py PyFacts IpAddress IpFacts Scanner Props.

Lemma forall_chars_app (p : ascii -> bool) (s t : string) :
  forall_chars p (s +:+ t) = forall_chars p s && forall_chars p t.
Proof.
  induction s as [|c s IH]; [now rewrite append_nil |].
  rewrite append_cons. cbn [forall_chars]. rewrite IH. now rewrite andb_assoc.
Qed.

Lemma forall_chars_impl (p q : ascii -> bool) (s : string) :
  (forall c, p c = true -> q c = true) ->
  forall_chars p s = true -> forall_chars q s = true.
Proof.
  intros Hpq. induction s as [|c s IH]; [reflexivity |]. cbn [forall_chars].
  intros H. apply andb_true_iff in H as [Hc Hs]. rewrite (Hpq c Hc). now apply IH.
Qed.

(** Joining the fields of a split gives the text back. *)
Lemma join_split_go (sep : ascii) (s cur : string) :
  join (String sep EmptyString) (split_go sep s cur) = cur +:+ s.
Proof.
  revert cur. induction s as [|c s IH]; intros cur; cbn [split_go].
  - cbn [join]. now rewrite append_empty_r.
  - destruct (Ascii.eqb c sep) eqn:Hc.
    + apply Ascii.eqb_eq in Hc. subst c.
      pose proof (split_length_ge sep s EmptyString) as Hlen.
      pose proof (IH EmptyString) as IH0.
      destruct (split_go sep s EmptyString) as [|x xs]; [cbn in Hlen; lia |].
      change (join (String sep EmptyString) (cur :: x :: xs))
        with (cur +:+ String sep EmptyString
                  +:+ join (String sep EmptyString) (x :: xs)).
      rewrite IH0, append_nil. reflexivity.
    + rewrite IH, append_assoc. reflexivity.
Qed.

Lemma join_split (sep : ascii) (s : string) :
  join (String sep EmptyString) (split sep s) = s.
Proof. unfold split. now rewrite join_split_go, append_nil. Qed.

(** ** Stripping *)

(** A whitespace character starts with a whitespace byte or with a byte
    above the one-byte range. *)
Lemma space_code_head (c : ascii) (s : string) :
  plain_char c = true -> is_space_code (String c s) = false.
Proof.
  unfold plain_char. intros H. apply andb_true_iff in H as [Hsp Hlt].
  apply negb_true_iff in Hsp. apply Nat.ltb_lt in Hlt.
  destruct s as [|b [|d [|e s]]]; cbn [is_space_code]; [exact Hsp | | | reflexivity].
  - unfold is_space2. cbv zeta.
    destruct (Nat.eqb_spec (nat_of_ascii c) 194) as [He|]; [lia | reflexivity].
  - unfold is_space3. cbv zeta.
    destruct (Nat.eqb_spec (nat_of_ascii c) 225) as [He|]; [lia |].
    destruct (Nat.eqb_spec (nat_of_ascii c) 226) as [He|]; [lia |].
    destruct (Nat.eqb_spec (nat_of_ascii c) 227) as [He|]; [lia |].
    reflexivity.
Qed.

Lemma lstrip_cons_plain (c : ascii) (s : string) :
  plain_char c = true -> lstrip (String c s) = String c s.
Proof.
  intros H.
  pose proof (space_code_head c EmptyString H) as H1.
  cbn [lstrip]. cbn [is_space_code] in H1. rewrite H1.
  destruct s as [|b s]; [reflexivity |].
  pose proof (space_code_head c (String b EmptyString) H) as H2.
  cbn [is_space_code] in H2. rewrite H2.
  destruct s as [|d s]; [reflexivity |].
  pose proof (space_code_head c (String b (String d EmptyString)) H) as H3.
  cbn [is_space_code] in H3. now rewrite H3.
Qed.

Lemma rstrip_cons_plain (c : ascii) (s : string) :
  plain_char c = true -> rstrip (String c s) = String c (rstrip s).
Proof. intros H. cbn [rstrip]. cbv zeta. now rewrite space_code_head. Qed.

(** Trailing whitespace is dropped behind a stretch of plain characters. *)
Lemma rstrip_app_plain (p s : string) :
  forall_chars plain_char p = true -> rstrip (p +:+ s) = p +:+ rstrip s.
Proof.
  induction p as [|c p IH]; [reflexivity |]. cbn [forall_chars]. intros H.
  apply andb_true_iff in H as [Hc Hp].
  now rewrite !append_cons, rstrip_cons_plain, IH.
Qed.

(** A text of plain characters is left as it is by [strip]. *)
Lemma rstrip_clean (s : string) :
  forall_chars plain_char s = true -> rstrip s = s.
Proof.
  intros H. rewrite <- (append_empty_r s) at 1.
  rewrite rstrip_app_plain by exact H. cbn [rstrip]. apply append_empty_r.
Qed.

Lemma strip_clean (s : string) :
  forall_chars plain_char s = true -> strip s = s.
Proof.
  intros H. unfold strip.
  assert (Hl : lstrip s = s).
  { destruct s as [|c s]; [reflexivity |]. cbn [forall_chars] in H.
    apply andb_true_iff in H as [Hc _]. now apply lstrip_cons_plain. }
  rewrite Hl. now apply rstrip_clean.
Qed.

(** What [rstrip] keeps, it keeps for good. *)
Lemma rstrip_idem (s : string) : rstrip (rstrip s) = rstrip s.
Proof.
  induction s as [|c s IH]; [reflexivity |]. cbn [rstrip]. cbv zeta.
  destruct (is_space_code (String c (rstrip s))) eqn:Hk; [reflexivity |].
  cbn [rstrip]. cbv zeta. now rewrite IH, Hk.
Qed.

(** A stretch without separators is read into the current field. *)
Lemma re_split_go_field (is_sep : ascii -> bool) (t s cur : string)
    (in_run : bool) :
  forall_chars (fun c => negb (is_sep c)) t = true ->
  re_split_go is_sep (t +:+ s) cur in_run
  = re_split_go is_sep s (cur +:+ t) (in_run && negb (truthy t)).
Proof.
  revert cur in_run. induction t as [|c t IH]; intros cur in_run H.
  - rewrite append_nil, append_empty_r. cbn [truthy negb].
    now rewrite andb_true_r.
  - rewrite append_cons. cbn [forall_chars re_split_go truthy negb] in *.
    apply andb_true_iff in H as [Hc Ht]. apply negb_true_iff in Hc.
    rewrite Hc, (IH _ _ Ht). rewrite append_assoc. cbn [andb].
    now rewrite andb_false_r.
Qed.

(** Fields that hold a character and no separator, joined by commas, are
    split into the same fields. *)
Lemma re_split_join (is_sep : ascii -> bool) (tokens : list string)
    (in_run : bool) :
  is_sep ","%char = true ->
  tokens <> [] ->
  Forall (fun t => truthy t = true
                   /\ forall_chars (fun c => negb (is_sep c)) t = true) tokens ->
  re_split_go is_sep (join "," tokens) EmptyString in_run = tokens.
Proof.
  intros Hsep Hne Hall. revert in_run.
  induction Hall as [|t ts [Ht Hclean] Hts IH]; intros in_run; [congruence |].
  destruct ts as [|t2 ts'].
  - cbn [join]. rewrite <- (append_empty_r t) at 1.
    rewrite re_split_go_field by exact Hclean. now rewrite append_nil.
  - change (join "," (t :: t2 :: ts'))
      with (t +:+ String ","%char EmptyString +:+ join "," (t2 :: ts')).
    rewrite re_split_go_field by exact Hclean.
    rewrite Ht, andb_false_r, append_nil, append_cons, append_nil.
    cbn [re_split_go]. rewrite Hsep. f_equal. apply IH. discriminate.
Qed.

(** ** Dotted quads *)

Lemma is_digit_cases (c : ascii) : is_digit c = true -> In c digit_chars.
Proof.
  destruct c as [[] [] [] [] [] [] [] []]; vm_compute; intros H;
    first [discriminate H | tauto].
Qed.

Lemma digit_strings_complete (s : string) :
  truthy s = true -> forall_chars is_digit s = true ->
  (String.length s <= 3)%nat -> In s digit_strings.
Proof.
  intros Ht Hd Hlen. unfold digit_strings.
  destruct s as [|a [|b [|c [|]]]]; cbn [truthy forall_chars String.length] in *;
    try discriminate; try lia.
  - apply andb_true_iff in Hd as [Ha _]. apply in_or_app. left.
    apply in_map_iff. exists a. split; [reflexivity | now apply is_digit_cases].
  - apply andb_true_iff in Hd as [Ha Hd]. apply andb_true_iff in Hd as [Hb _].
    apply in_or_app. right. apply in_or_app. left.
    apply in_flat_map. exists a. split; [now apply is_digit_cases |].
    apply in_map_iff. eexists. split; [reflexivity |].
    apply in_map_iff. exists b. split; [reflexivity | now apply is_digit_cases].
  - apply andb_true_iff in Hd as [Ha Hd]. apply andb_true_iff in Hd as [Hb Hd].
    apply andb_true_iff in Hd as [Hc _].
    apply in_or_app. right. apply in_or_app. right.
    apply in_flat_map. exists a. split; [now apply is_digit_cases |].
    apply in_map_iff. eexists. split; [reflexivity |].
    apply in_flat_map. exists b. split; [now apply is_digit_cases |].
    apply in_map_iff. eexists. split; [reflexivity |].
    apply in_map_iff. exists c. split; [reflexivity | now apply is_digit_cases].
Qed.

Lemma digit_strings_ok : forallb octet_text_ok digit_strings = true.
Proof. vm_compute. reflexivity. Qed.

(** An octet that is read is written back as the same text. *)
Lemma parse_octet_str (s : string) (o : Z) :
  parse_octet s = Some o ->
  str o = s /\ 0 <= o < 256 /\ forall_chars is_digit s = true.
Proof.
  intros H.
  assert (Hparts : truthy s = true /\ forall_chars is_digit s = true
                   /\ (String.length s <= 3)%nat).
  { unfold parse_octet in H.
    destruct (truthy s); [| discriminate].
    destruct (forall_chars is_digit s); [| discriminate].
    destruct (3 <? String.length s)%nat eqn:Hl; [discriminate |].
    apply Nat.ltb_ge in Hl. auto. }
  destruct Hparts as (Ht & Hd & Hl).
  pose proof (digit_strings_complete s Ht Hd Hl) as Hin.
  pose proof digit_strings_ok as Hall. rewrite forallb_forall in Hall.
  specialize (Hall s Hin). unfold octet_text_ok in Hall. rewrite H in Hall.
  apply andb_true_iff in Hall as [Hall Hhi].
  apply andb_true_iff in Hall as [Heq Hlo].
  apply String.eqb_eq in Heq. split; [exact Heq |]. split; [lia | exact Hd].
Qed.

Lemma to_bytes4_from_bytes (a b c d : Z) :
  0 <= a < 256 -> 0 <= b < 256 -> 0 <= c < 256 -> 0 <= d < 256 ->
  to_bytes4 (from_bytes [a; b; c; d]) = [a; b; c; d].
Proof.
  intros Ha Hb Hc Hd. unfold to_bytes4, from_bytes. cbn [fold_left].
  rewrite !Z.shiftr_div_pow2 by lia.
  change (2 ^ 24) with 16777216. change (2 ^ 16) with 65536.
  change (2 ^ 8) with 256.
  repeat f_equal; Z.div_mod_to_equations; lia.
Qed.

Lemma digit_dotted_char (c : ascii) :
  is_digit c = true -> dotted_char c = true.
Proof. unfold dotted_char. now intros ->. Qed.

(** The characters of a dotted quad are plain and separate nothing. *)
Lemma dotted_char_cases (c : ascii) :
  dotted_char c = true -> plain_char c = true /\ token_char c = true.
Proof.
  unfold dotted_char. intros H. apply orb_true_iff in H as [H | H].
  - apply is_digit_cases in H. vm_compute in H.
    repeat (destruct H as [<- | H]; [split; reflexivity |]). destruct H.
  - apply Ascii.eqb_eq in H as ->. split; reflexivity.
Qed.

Lemma dotted_plain (t : string) :
  forall_chars dotted_char t = true -> forall_chars plain_char t = true.
Proof. apply forall_chars_impl. intros c H. now apply dotted_char_cases. Qed.

Lemma dotted_token (t : string) :
  forall_chars dotted_char t = true -> forall_chars token_char t = true.
Proof. apply forall_chars_impl. intros c H. now apply dotted_char_cases. Qed.

(** A text that [IPv4Address] reads is the text of the address it reads,
    and holds digits and dots only. *)
Lemma IPv4Address_text (t : string) (n : Z) :
  IPv4Address t = Some n ->
  string_from_ip_int n = t /\ is_address n
  /\ truthy t = true /\ forall_chars dotted_char t = true.
Proof.
  unfold IPv4Address, ip_int_from_string. intros H.
  destruct (contains_char "/"%char t); [discriminate |].
  destruct (truthy t) eqn:Ht; [| discriminate]. cbn [negb] in H.
  pose proof (join_split "."%char t) as Hjoin.
  destruct (split "."%char t) as [|a [|b [|c [|d [|]]]]]; try discriminate.
  cbn [length Nat.eqb negb] in H.
  destruct (mapM parse_octet [a; b; c; d]) as [octets|] eqn:Hm; [| discriminate].
  injection H as <-.
  apply mapM_Some_1 in Hm.
  inversion Hm as [|? oa ? l1 Pa H1]; subst.
  inversion H1 as [|? ob ? l2 Pb H2]; subst.
  inversion H2 as [|? oc ? l3 Pc H3]; subst.
  inversion H3 as [|? od ? l4 Pd H4]; subst. inversion H4; subst.
  apply parse_octet_str in Pa as (Sa & Ba & Da).
  apply parse_octet_str in Pb as (Sb & Bb & Db).
  apply parse_octet_str in Pc as (Sc & Bc & Dc).
  apply parse_octet_str in Pd as (Sd & Bd & Dd).
  split; [| split; [| split; [reflexivity |]]].
  - unfold string_from_ip_int. rewrite to_bytes4_from_bytes by assumption.
    cbn [map]. now rewrite Sa, Sb, Sc, Sd.
  - unfold is_address, from_bytes. cbn [fold_left].
    change (2 ^ 32) with 4294967296. lia.
  - cbn [join]. rewrite !forall_chars_app.
    rewrite (forall_chars_impl _ _ a digit_dotted_char Da).
    rewrite (forall_chars_impl _ _ b digit_dotted_char Db).
    rewrite (forall_chars_impl _ _ c digit_dotted_char Dc).
    rewrite (forall_chars_impl _ _ d digit_dotted_char Dd).
    reflexivity.
Qed.

Lemma token_no_separator (t : string) :
  forall_chars token_char t = true ->
  forall_chars (fun c => negb (is_separator c)) t = true.
Proof.
  apply forall_chars_impl. unfold token_char. intros c H.
  now apply andb_true_iff in H as [_ H].
Qed.

(** ** One literal address *)

Section Literal.
Variable gethostbyname : string -> Lookup.
Variable urlparse_hostname : string -> option (option string).

Lemma parse_part_literal (ips : list string)
    (cache : gmap string (option string)) (part : string) (n : Z) :
  IPv4Address (strip part) = Some n ->
  parse_part gethostbyname urlparse_hostname (ips, cache) part
  = Some (ips ++ [strip part], cache).
Proof.
  intros H. pose proof (IPv4Address_text _ _ H) as (Hs & _ & Ht & _).
  unfold parse_part. rewrite Ht. cbn [negb].
  assert (Hslash : contains_char "/"%char (strip part) = false).
  { unfold IPv4Address in H.
    destruct (contains_char "/"%char (strip part)); [discriminate | reflexivity]. }
  assert (Hurl : startswith (strip part) "http://"
                 || startswith (strip part) "https://" = false).
  { apply orb_false_iff. split.
    - destruct (startswith (strip part) "http://") eqn:Hp; [| reflexivity].
      apply startswith_app in Hp as [rest Hp]. rewrite Hp in Hslash.
      vm_compute in Hslash. discriminate.
    - destruct (startswith (strip part) "https://") eqn:Hp; [| reflexivity].
      apply startswith_app in Hp as [rest Hp]. rewrite Hp in Hslash.
      vm_compute in Hslash. discriminate. }
  rewrite Hurl. unfold cidr_case. rewrite Hslash, H, Hs. reflexivity.
Qed.

Lemma parse_parts_literals (tokens ips : list string)
    (cache : gmap string (option string)) :
  Forall (fun t => is_Some (IPv4Address t)) tokens ->
  parse_parts gethostbyname urlparse_hostname tokens (ips, cache)
  = Some (ips ++ tokens, cache).
Proof.
  intros Hall. revert ips.
  induction Hall as [|t ts [n Ht] _ IH]; intros ips; cbn [parse_parts].
  - now rewrite app_nil_r.
  - pose proof (IPv4Address_text _ _ Ht) as (_ & _ & _ & Hc).
    pose proof (strip_clean t (dotted_plain t Hc)) as Hstrip.
    rewrite (parse_part_literal ips cache t n) by now rewrite Hstrip.
    rewrite Hstrip, IH, <- app_assoc. reflexivity.
Qed.

End Literal.

(** A comma-separated list of dotted quads is parsed into that list. *)
Lemma parse_target_ips_literals (gethostbyname : string -> Lookup)
    (urlparse_hostname : string -> option (option string))
    (tokens : list string) :
  Forall (fun t => is_Some (IPv4Address t)) tokens ->
  parse_target_ips gethostbyname urlparse_hostname (join "," tokens)
  = Some tokens.
Proof.
  intros Hall. unfold parse_target_ips.
  destruct tokens as [|t ts].
  { vm_compute. reflexivity. }
  assert (Hclean : Forall (fun t => truthy t = true
                     /\ forall_chars dotted_char t = true) (t :: ts)).
  { eapply Forall_impl; [exact Hall |]. intros x [n Hx].
    now destruct (IPv4Address_text _ _ Hx) as (_ & _ & ? & ?). }
  assert (Hplain : forall_chars plain_char (join "," (t :: ts)) = true).
  { clear Hall. revert t Hclean. induction ts as [|t2 ts IH]; intros t Hc.
    - inversion Hc as [|? ? [_ H] _]; subst. cbn [join].
      now apply dotted_plain.
    - inversion Hc as [|? ? [_ H] Hrest]; subst.
      change (join "," (t :: t2 :: ts))
        with (t +:+ String ","%char EmptyString +:+ join "," (t2 :: ts)).
      rewrite !forall_chars_app, (dotted_plain t H).
      rewrite (IH t2 Hrest). reflexivity. }
  rewrite (strip_clean _ Hplain). unfold re_split.
  rewrite re_split_join; [| reflexivity | discriminate |].
  - now rewrite parse_parts_literals.
  - eapply Forall_impl; [exact Hclean |]. intros x [Hx Hc].
    split; [exact Hx | now apply token_no_separator, dotted_token].
Qed.

End TextFacts.

(** X4: [_resolve_hostname] asks the resolver once per name. After a
    lookup that returns, the cache holds the answer under that name and
    nothing else has changed in it; a second lookup of the name returns the
    same answer and leaves the cache alone, whatever the resolver would
    answer by then. A failed resolution is cached like a successful one. *)
Theorem X4_resolve_hostname_cached
    (gethostbyname later : string -> Scanner.Lookup) (hostname : string)
    (cache cache' : gmap string (option string)) (resolved_ip : option string) :
  Scanner.resolve_hostname gethostbyname hostname cache
  = Some (resolved_ip, cache') ->
  cache' !! hostname = Some resolved_ip
  /\ (forall other, other <> hostname -> cache' !! other = cache !! other)
  /\ Scanner.resolve_hostname later hostname cache' = Some (resolved_ip, cache').
Proof.
  unfold Scanner.resolve_hostname. intros H.
  destruct (cache !! hostname) as [cached|] eqn:Hc.
  - injection H as <- <-. rewrite Hc. repeat split; try reflexivity.
  - destruct (gethostbyname hostname) as [ip| |]; [| | discriminate];
      injection H as <- <-; rewrite lookup_insert_eq;
      (split; [reflexivity |]);
      (split; [intros other Hne; now rewrite lookup_insert_ne | reflexivity]).
Qed.

(** X4 at a name that does not resolve: the failure is cached, and a
    resolver that would now answer is not asked. *)
Lemma X4_resolve_hostname_cached_witness :
  Scanner.resolve_hostname (fun _ => Scanner.Resolved "93.184.216.34")
                           "example.com" (<["example.com" := None]> ∅)
  = Some (None, <["example.com" := None]> ∅).
Proof.
  apply (X4_resolve_hostname_cached Props.no_dns _ "example.com" ∅).
  reflexivity.
Defined.

(** X5: a comma-separated list of dotted quads is parsed into exactly that
    list: every literal is kept as it is written, in the order of the
    input, duplicates included, and neither the resolver nor the URL parser
    has a say. *)
Theorem X5_parse_target_ips_literals
    (gethostbyname : string -> Scanner.Lookup)
    (urlparse_hostname : string -> option (option string))
    (tokens : list string) :
  Forall (fun t => is_Some (IpAddress.IPv4Address t)) tokens ->
  Scanner.parse_target_ips gethostbyname urlparse_hostname (Py.join "," tokens)
  = Some tokens.
Proof. apply TextFacts.parse_target_ips_literals. Qed.

(** X5 at an input that names one address twice. *)
Lemma X5_parse_target_ips_literals_witness :
  Scanner.parse_target_ips Props.no_dns Props.no_host "8.8.8.8,1.1.1.1,8.8.8.8"
  = Some ["8.8.8.8"; "1.1.1.1"; "8.8.8.8"].
Proof.
  apply (X5_parse_target_ips_literals Props.no_dns Props.no_host
           ["8.8.8.8"; "1.1.1.1"; "8.8.8.8"]).
  repeat constructor; vm_compute; eauto.
Defined.

Module NetworkFacts.
Import Py PyFacts IpAddress IpFacts Scanner Props.

Lemma prefix_from_ip_int_valid (ip_int p : Z) :
  prefix_from_ip_int ip_int = Some p -> valid_prefix p.
Proof.
  unfold prefix_from_ip_int, count_righthand_zero_bits, IPV4LENGTH, valid_prefix.
  destruct (negb _); [discriminate |]. intros H. injection H as <-.
  destruct (ip_int =? 0); [lia |].
  destruct (Z.land (Z.lnot ip_int) (ip_int - 1) =? 0); [lia |].
  pose proof (Z.log2_nonneg (Z.land (Z.lnot ip_int) (ip_int - 1))). lia.
Qed.

Lemma make_netmask_valid (arg : string) (p : Z) :
  make_netmask arg = Some p -> valid_prefix p.
Proof.
  unfold make_netmask. destruct (prefix_from_prefix_string arg) as [q|] eqn:Hq.
  - intros H. injection H as <-. unfold prefix_from_prefix_string in Hq.
    destruct (negb (truthy arg && forall_chars is_digit arg)); [discriminate |].
    destruct ((0 <=? int_of_digits arg) && (int_of_digits arg <=? IPV4LENGTH))
      eqn:Hb; [| discriminate].
    injection Hq as <-. apply andb_true_iff in Hb as [H1 H2].
    unfold valid_prefix, IPV4LENGTH in *. lia.
  - unfold prefix_from_ip_string.
    destruct (ip_int_from_string arg) as [ip_int|]; [| discriminate].
    destruct (prefix_from_ip_int ip_int) as [q|] eqn:Hp.
    + intros H. injection H as <-. now apply (prefix_from_ip_int_valid ip_int).
    + apply prefix_from_ip_int_valid.
Qed.

(** What the constructor of a network returns is a block: a prefix length
    of 0 to 32 and a 32-bit address without a bit outside the mask. *)
Lemma make_IPv4Network_well_formed (address : string) (strict : bool)
    (network : IPv4Network) :
  make_IPv4Network address strict = Some network -> well_formed network.
Proof.
  unfold make_IPv4Network.
  destruct (2 <? length (split "/"%char address))%nat; [discriminate |].
  destruct (split "/"%char address) as [|a rest]; [discriminate |].
  destruct (IPv4Address a) as [packed|] eqn:Ha; [| discriminate].
  apply TextFacts.IPv4Address_text in Ha as (_ & Hpacked & _).
  assert (Hmask : forall p,
            match rest with [] => Some IPV4LENGTH | mask :: _ => make_netmask mask end
            = Some p -> valid_prefix p).
  { intros p. destruct rest as [|mask ?].
    - intros H. injection H as <-. unfold valid_prefix, IPV4LENGTH. lia.
    - apply make_netmask_valid. }
  destruct (match rest with [] => Some IPV4LENGTH | mask :: _ => make_netmask mask end)
    as [p|]; [| discriminate].
  specialize (Hmask p eq_refl).
  destruct (Z.land packed (ip_int_from_prefix p) =? packed) eqn:Heq; cbn [negb].
  - intros H. injection H as <-. apply Z.eqb_eq in Heq.
    unfold well_formed, netmask. cbn [prefixlen network_address]. auto.
  - destruct strict; [discriminate |]. intros H. injection H as <-.
    unfold well_formed, netmask. cbn [prefixlen network_address].
    split; [exact Hmask |]. split.
    + rewrite land_netmask by assumption.
      unfold valid_prefix, is_address in *.
      assert (0 < 2 ^ (32 - p)) by (apply Z.pow_pos_nonneg; lia).
      pose proof (Z.mul_div_le packed (2 ^ (32 - p))).
      pose proof (Z.div_pos packed (2 ^ (32 - p))). nia.
    + now rewrite <- Z.land_assoc, Z.land_diag.
Qed.

Lemma Forall_range (P : Z -> Prop) (lo hi : Z) :
  (forall x, lo <= x < hi -> P x) -> Forall P (range lo hi).
Proof.
  intros H. apply Forall_forall. intros x Hx. apply list_elem_of_In in Hx.
  unfold range in Hx. apply in_map_iff in Hx as (i & <- & Hi).
  apply in_seq in Hi. apply H. lia.
Qed.

(** The block of a network ends within the 32-bit addresses. *)
Lemma block_bound (n : IPv4Network) :
  well_formed n ->
  0 < 2 ^ (32 - prefixlen n)
  /\ network_address n + 2 ^ (32 - prefixlen n) <= 2 ^ 32.
Proof.
  intros (Hp & Ha & Hm). unfold netmask in Hm.
  rewrite land_netmask in Hm by assumption.
  unfold valid_prefix, is_address in *.
  set (k := 2 ^ (32 - prefixlen n)) in *.
  assert (Hk : 0 < k) by (apply Z.pow_pos_nonneg; lia).
  assert (H32 : 2 ^ 32 = 2 ^ prefixlen n * k).
  { unfold k. rewrite <- Z.pow_add_r by lia. f_equal. lia. }
  split; [exact Hk |].
  set (q := network_address n / k) in *.
  assert (Hq : q < 2 ^ prefixlen n) by nia.
  rewrite <- Hm, H32. nia.
Qed.

(** The hosts of a block: how many they are, and that each is a 32-bit
    address of the block. *)
Lemma hosts_spec (n : IPv4Network) :
  well_formed n ->
  Z.of_nat (length (hosts n))
  = (if prefixlen n =? 32 then 1
     else if prefixlen n =? 31 then 2
     else 2 ^ (32 - prefixlen n) - 2)
  /\ Forall (fun ip => in_range n ip /\ is_address ip) (hosts n).
Proof.
  intros Hwf. pose proof (broadcast_add n Hwf) as Hb.
  pose proof (block_bound n Hwf) as [Hk H32].
  destruct Hwf as (Hp & Ha & _). unfold valid_prefix, is_address in *.
  unfold hosts, in_range, IPV4LENGTH. rewrite Hb.
  change (32 - 1) with 31.
  destruct (prefixlen n =? 31) eqn:H31.
  - apply Z.eqb_eq in H31. rewrite H31 in *.
    change (31 =? 32) with false. cbn iota.
    change (2 ^ (32 - 31)) with 2 in *. split.
    + rewrite length_range. lia.
    + apply Forall_range. intros x Hx. unfold is_address. lia.
  - destruct (prefixlen n =? 32) eqn:H32'.
    + apply Z.eqb_eq in H32'. rewrite H32' in *.
      change (2 ^ (32 - 32)) with 1 in *. split; [reflexivity |].
      constructor; [| constructor]. unfold is_address. lia.
    + apply Z.eqb_neq in H31, H32'.
      assert (4 <= 2 ^ (32 - prefixlen n)).
      { change 4 with (2 ^ 2). apply Z.pow_le_mono_r; lia. }
      split.
      * rewrite length_range. lia.
      * apply Forall_range. intros x Hx. unfold is_address. lia.
Qed.

End NetworkFacts.

(** X6: what a CIDR token adds. When the CIDR case of [parse_target_ips]
    takes a token, the token reads as a well-formed network; the number of
    addresses it adds is fixed by the prefix length (none below /16, one
    for /32, two for /31, otherwise the size of the block minus two) and
    never exceeds 65534; and each address added is the text of a 32-bit
    address of the block. *)
Theorem X6_cidr_case_hosts (part : string) (hosts : list string) :
  Scanner.cidr_case part = Scanner.CidrContinue hosts ->
  exists network,
    IpAddress.make_IPv4Network part false = Some network
    /\ Props.well_formed network
    /\ Z.of_nat (length hosts) = Props.host_count (IpAddress.prefixlen network)
    /\ Z.of_nat (length hosts) <= 65534
    /\ Forall (fun h => exists ip,
                 h = IpAddress.string_from_ip_int ip
                 /\ IpAddress.IPv4Address h = Some ip
                 /\ IpAddress.contains network ip = true) hosts.
Proof.
  unfold Scanner.cidr_case.
  destruct (Py.contains_char "/"%char part); [| discriminate].
  destruct (IpAddress.make_IPv4Network part false) as [network|] eqn:Hnet;
    [| discriminate].
  pose proof (NetworkFacts.make_IPv4Network_well_formed _ _ _ Hnet) as Hwf.
  pose proof (NetworkFacts.hosts_spec network Hwf) as [Hlen Hall].
  intros H. exists network. split; [reflexivity |]. split; [exact Hwf |].
  unfold Props.host_count.
  destruct (IpAddress.prefixlen network <? 16) eqn:H16; injection H as <-.
  - cbn [length]. repeat split; try lia. constructor.
  - apply Z.ltb_ge in H16. rewrite length_map.
    split; [exact Hlen |]. split.
    + rewrite Hlen. destruct Hwf as (Hp & _). unfold Props.valid_prefix in Hp.
      destruct (IpAddress.prefixlen network =? 32); [lia |].
      destruct (IpAddress.prefixlen network =? 31); [lia |].
      assert (2 ^ (32 - IpAddress.prefixlen network) <= 2 ^ 16)
        by (apply Z.pow_le_mono_r; lia).
      change (2 ^ 16) with 65536 in *. lia.
    + apply Forall_fmap. eapply Forall_impl; [exact Hall |].
      intros ip [Hin Hip]. exists ip. split; [reflexivity |]. split.
      * now apply IpFacts.IPv4Address_string_from_ip_int.
      * now apply IpFacts.contains_in_range.
Qed.

(** X6 at the token [10.1.2.3/22], whose block holds 1022 hosts. *)
Lemma X6_cidr_case_hosts_witness :
  exists hosts,
    Scanner.cidr_case "10.1.2.3/22" = Scanner.CidrContinue hosts
    /\ Z.of_nat (length hosts) = 1022.
Proof.
  destruct (Scanner.cidr_case "10.1.2.3/22") as [hosts|] eqn:H;
    [| vm_compute in H; discriminate].
  exists hosts. split; [reflexivity |].
  destruct (X6_cidr_case_hosts "10.1.2.3/22" hosts H)
    as (network & Hnet & _ & Hlen & _).
  vm_compute in Hnet. injection Hnet as <-.
  rewrite Hlen. reflexivity.
Defined.

(* ===================================================================== *)
(** * scanner.py: what the workers count, save and publish *)
(* ===================================================================== *)

Module CountFacts.
Import Py PyFacts Scanner App Props WorkerFacts.

Lemma os_total_found (w : World) (n : nat) (s : ScanState) :
  only_stops w -> total_found (interfere w n s) = total_found s.
Proof. intros Hw. apply (only_stops_fields w n s Hw). Qed.

Lemma os_running_false (w : World) (n : nat) (s : ScanState) :
  only_stops w -> running s = false -> running (interfere w n s) = false.
Proof. intros Hw. apply (only_stops_fields w n s Hw). Qed.

Lemma os_running_true (w : World) (n : nat) (s : ScanState) :
  only_stops w -> running (interfere w n s) = true -> running s = true.
Proof.
  intros Hw H. destruct (running s) eqn:Hr; [reflexivity |].
  rewrite os_running_false in H by assumption. discriminate.
Qed.

(** Reads a counter through the assignments and the stop requests that
    leave it alone. *)
Ltac reads Hw :=
  repeat first
    [ rewrite os_total_scanned by exact Hw
    | rewrite os_target_total by exact Hw
    | rewrite os_target_done by exact Hw
    | rewrite os_total_found by exact Hw
    | progress cbn [total_scanned target_total target_done total_found running
                    set_running set_total_scanned set_total_found
                    set_current_rate set_target_total set_target_done] ].

Lemma saved_app (a b : list Obs) : saved (a ++ b) = saved a ++ saved b.
Proof.
  induction a as [|o a IH]; [reflexivity |].
  destruct o; cbn [app saved]; now rewrite IH.
Qed.

Lemma found_app (a b : list Obs) : found (a ++ b) = found a ++ found b.
Proof.
  induction a as [|o a IH]; [reflexivity |].
  destruct o; cbn [app found]; rewrite IH; [| now rewrite app_assoc | |];
    reflexivity.
Qed.

Lemma saved_rows_app (a b : list Obs) :
  saved_rows (a ++ b) = saved_rows a ++ saved_rows b.
Proof.
  induction a as [|o a IH]; [reflexivity |].
  destruct o; cbn [app saved_rows]; now rewrite IH.
Qed.

Lemma published_app (a b : list Obs) :
  published (a ++ b) = published a ++ published b.
Proof.
  induction a as [|o a IH]; [reflexivity |].
  destruct o as [| | |[|]]; cbn [app published]; now rewrite IH.
Qed.

Lemma quiet_found (tr : list Obs) : quiet tr = true -> found tr = [].
Proof.
  induction tr as [|o tr IH]; [reflexivity |]. unfold quiet. cbn [forallb].
  intros H. apply andb_true_iff in H as [Ho Htr].
  destruct o; try discriminate; now apply IH.
Qed.

Section Counting.
Variable w : World.
Hypothesis Hw : only_stops w.

(** The result loop of the target worker, whatever the stop requests do:
    it saves a first stretch of the services found, all of them when the
    flag is still set at its end; it publishes each row it saved; and it
    counts what it saved and what it handled. *)
Lemma handle_target_results_count (results : list (option ProbeResult)) (r : Run) :
  exists r' extra,
    handle_target_results w results r = Some (tt, r')
    /\ trace r' = trace r ++ extra /\ quiet extra = true
    /\ saved extra `prefix_of` omap id results
    /\ published extra = saved_rows extra
    /\ (running (scan_state r') = true ->
        running (scan_state r) = true
        /\ saved extra = omap id results
        /\ target_done (scan_state r')
           = target_done (scan_state r) + Z.of_nat (length results))
    /\ (running (scan_state r) = false -> r' = r /\ extra = [])
    /\ total_found (scan_state r')
       = total_found (scan_state r) + Z.of_nat (length (saved extra))
    /\ target_done (scan_state r) + Z.of_nat (length (saved extra))
       <= target_done (scan_state r')
       <= target_done (scan_state r) + Z.of_nat (length results)
    /\ total_scanned (scan_state r') = total_scanned (scan_state r)
    /\ target_total (scan_state r') = target_total (scan_state r).
Proof.
  revert r. induction results as [|result rest IH]; intros r.
  - exists r, []. cbn [handle_target_results]. exec. rewrite app_nil_r.
    cbn [saved length omap]. repeat split; try reflexivity; try lia; auto.
  - destruct (running (scan_state r)) eqn:Hr.
    2:{ exists r, []. rewrite handle_target_results_stopped by assumption.
        rewrite app_nil_r. cbn [saved length].
        repeat split; try reflexivity; try lia; try congruence.
        apply prefix_nil. }
    cbn [handle_target_results]. exec. rewrite Hr. cbn [negb].
    destruct result as [result|]; exec.
    + match goal with |- context [handle_target_results w rest ?r1] =>
        destruct (IH r1)
          as (r' & extra & Hrun & Htr & Hq & Hpre & Hpub & Hall & _ & Hf & Hd
              & Hs & Ht) end.
      cbn [scan_state trace] in *.
      eexists r', (_ :: _ :: extra). split; [exact Hrun |].
      split; [rewrite Htr, <- !app_assoc; reflexivity |].
      split; [unfold quiet in *; cbn [forallb andb]; exact Hq |].
      change (omap id (Some result :: rest)) with (result :: omap id rest).
      cbn [saved saved_rows published length].
      split; [now apply prefix_cons |].
      split; [now rewrite Hpub |].
      split; [| split; [discriminate |]].
      * intros Hr'. destruct (Hall Hr') as (_ & -> & Hdone).
        split; [reflexivity |]. split; [reflexivity |].
        rewrite Hdone. reads Hw. lia.
      * rewrite Hf, Hs, Ht. revert Hd. reads Hw. intros Hd.
        repeat split; try reflexivity; lia.
    + match goal with |- context [handle_target_results w rest ?r1] =>
        destruct (IH r1)
          as (r' & extra & Hrun & Htr & Hq & Hpre & Hpub & Hall & _ & Hf & Hd
              & Hs & Ht) end.
      cbn [scan_state trace] in *.
      exists r', extra. split; [exact Hrun |]. split; [exact Htr |].
      split; [exact Hq |].
      change (omap id (None :: rest)) with (omap id rest).
      split; [exact Hpre |]. split; [exact Hpub |].
      split; [| split; [discriminate |]].
      * intros Hr'. destruct (Hall Hr') as (_ & -> & Hdone).
        split; [reflexivity |]. split; [reflexivity |].
        rewrite Hdone. reads Hw. cbn [length]. lia.
      * rewrite Hf, Hs, Ht. revert Hd. reads Hw. cbn [length]. intros Hd.
        repeat split; try reflexivity; lia.
Qed.

(** One batch of the target worker, whatever the stop requests do. *)
Lemma scan_target_round_count (batch : list (string * Z))
    (take_screenshots run_vuln_check : bool) (rate_counter : Z) (rate_start : Q)
    (r : Run) :
  exists rate r' results extra,
    scan_target_round w batch take_screenshots run_vuln_check
                      rate_counter rate_start r = Some (rate, r')
    /\ trace r' = trace r ++ ObsDispatch batch :: ObsJoin results :: extra
    /\ length results = length batch /\ quiet extra = true
    /\ saved extra `prefix_of` omap id results
    /\ published extra = saved_rows extra
    /\ (running (scan_state r') = true -> saved extra = omap id results)
    /\ total_found (scan_state r')
       = total_found (scan_state r) + Z.of_nat (length (saved extra))
    /\ target_done (scan_state r) + Z.of_nat (length (saved extra))
       <= target_done (scan_state r')
       <= target_done (scan_state r) + Z.of_nat (length batch)
    /\ total_scanned (scan_state r')
       = total_scanned (scan_state r) + Z.of_nat (length batch)
    /\ target_total (scan_state r') = target_total (scan_state r).
Proof.
  unfold scan_target_round. exec.
  match goal with |- context [handle_target_results w ?results ?r1] =>
    destruct (handle_target_results_count results r1)
      as (r2 & extra & Hrun & Htr & Hq & Hpre & Hpub & Hall & _ & Hf & Hd
          & Hs & Ht);
    set (rs := results) in * end.
  cbn [scan_state trace] in *. rewrite Hrun. exec.
  assert (Hlen : length rs = length batch) by apply length_run_probes.
  revert Hf Hd Hs Ht. reads Hw. intros Hf Hd Hs Ht.
  destruct (Qle_bool 1 _); exec.
  - eexists _, _, rs, (extra ++ [_]). split; [reflexivity |].
    cbn [trace scan_state]. split; [rewrite Htr, <- !app_assoc; reflexivity |].
    split; [exact Hlen |].
    split; [apply quiet_app; [exact Hq | reflexivity] |].
    rewrite saved_app, published_app, saved_rows_app.
    cbn [saved saved_rows published]. rewrite !app_nil_r.
    split; [exact Hpre |]. split; [exact Hpub |]. split.
    + intros Hr'. apply (os_running_true w _ _ Hw) in Hr'.
      apply (os_running_true w _ _ Hw) in Hr'. cbn [running set_current_rate
        set_total_scanned] in Hr'. now apply Hall.
    + reads Hw. rewrite Hf, Hs, Ht. repeat split; try reflexivity; lia.
  - eexists _, _, rs, (extra ++ [_]). split; [reflexivity |].
    cbn [trace scan_state]. split; [rewrite Htr, <- !app_assoc; reflexivity |].
    split; [exact Hlen |].
    split; [apply quiet_app; [exact Hq | reflexivity] |].
    rewrite saved_app, published_app, saved_rows_app.
    cbn [saved saved_rows published]. rewrite !app_nil_r.
    split; [exact Hpre |]. split; [exact Hpub |]. split.
    + intros Hr'. apply (os_running_true w _ _ Hw) in Hr'.
      apply (os_running_true w _ _ Hw) in Hr'. cbn [running set_current_rate
        set_total_scanned] in Hr'. now apply Hall.
    + reads Hw. rewrite Hf, Hs, Ht. repeat split; try reflexivity; lia.
Qed.

(** The loop over the batches, whatever the stop requests do: the results
    saved are a first stretch of the services found, and the counters stay
    in order. *)
Lemma scan_target_loop_count (batches : list (list (string * Z)))
    (take_screenshots run_vuln_check : bool) (rate_counter : Z) (rate_start : Q)
    (r : Run) :
  exists r' extra,
    scan_target_loop w batches take_screenshots run_vuln_check
                     rate_counter rate_start r = Some (tt, r')
    /\ trace r' = trace r ++ extra
    /\ saved extra `prefix_of` found extra
    /\ published extra = saved_rows extra
    /\ (running (scan_state r') = true -> saved extra = found extra)
    /\ (running (scan_state r) = false -> r' = r /\ extra = [])
    /\ total_found (scan_state r')
       = total_found (scan_state r) + Z.of_nat (length (saved extra))
    /\ target_done (scan_state r) + Z.of_nat (length (saved extra))
       <= target_done (scan_state r')
       <= target_done (scan_state r)
          + (total_scanned (scan_state r') - total_scanned (scan_state r))
    /\ total_scanned (scan_state r')
       <= total_scanned (scan_state r) + Z.of_nat (length (concat batches))
    /\ target_total (scan_state r') = target_total (scan_state r).
Proof.
  revert rate_counter rate_start r.
  induction batches as [|batch rest IH]; intros rate_counter rate_start r.
  - exists r, []. cbn [scan_target_loop]. exec. rewrite app_nil_r.
    cbn [saved found length concat].
    repeat split; try reflexivity; try lia.
  - cbn [scan_target_loop]. exec.
    destruct (running (scan_state r)) eqn:Hr; cbn [negb].
    2:{ exists r, []. rewrite app_nil_r. cbn [saved found length].
        repeat split; try reflexivity; try lia. }
    destruct (scan_target_round_count batch take_screenshots run_vuln_check
                rate_counter rate_start r)
      as ([rc rs] & r1 & results & extra1 & Hrun & Htr & Hlen & Hq & Hpre & Hpub
          & Hall & Hf & Hd & Hs & Ht).
    rewrite Hrun.
    destruct (IH rc rs r1)
      as (r2 & extra2 & Hrun2 & Htr2 & Hpre2 & Hpub2 & Hall2 & Hstop2 & Hf2
          & Hd2 & Hs2 & Ht2).
    rewrite Hrun2.
    exists r2, (ObsDispatch batch :: ObsJoin results :: extra1 ++ extra2).
    split; [reflexivity |].
    split; [rewrite Htr2, Htr, <- app_assoc; reflexivity |].
    cbn [saved found published saved_rows].
    rewrite saved_app, found_app, published_app, saved_rows_app,
      (quiet_found _ Hq), app_nil_l.
    assert (Hcases : running (scan_state r1) = true
                     \/ (r2 = r1 /\ extra2 = [])).
    { destruct (running (scan_state r1)) eqn:Hr1; [now left | right].
      now apply Hstop2. }
    split; [| split; [now rewrite Hpub, Hpub2 | split; [| split]]].
    + destruct Hcases as [Hr1 | [-> ->]].
      * rewrite (Hall Hr1). now apply prefix_app.
      * cbn [saved found]. rewrite !app_nil_r. exact Hpre.
    + intros Hr2. destruct Hcases as [Hr1 | [-> ->]].
      * now rewrite (Hall Hr1), (Hall2 Hr2).
      * cbn [saved found]. rewrite !app_nil_r. now apply Hall.
    + discriminate.
    + rewrite Hf2, Hf, Ht2, Ht, length_app.
      cbn [concat]. rewrite length_app.
      repeat split; try reflexivity; lia.
Qed.

(** The target worker as a whole, whatever the stop requests do. *)
Lemma scan_target_worker_count (target_ips : list string) (ports : list Z)
    (take_screenshots run_vuln_check : bool) (r : Run) :
  let total := Z.of_nat (length target_ips) * Z.of_nat (length ports) in
  exists r' extra,
    scan_target_worker w target_ips ports take_screenshots run_vuln_check r
    = Some (tt, r')
    /\ trace r' = trace r ++ extra
    /\ saved extra `prefix_of` found extra
    /\ published extra = saved_rows extra
    /\ total_found (scan_state r')
       = total_found (scan_state r) + Z.of_nat (length (saved extra))
    /\ Z.of_nat (length (saved extra)) <= target_done (scan_state r')
    /\ target_done (scan_state r')
       <= total_scanned (scan_state r') - total_scanned (scan_state r)
    /\ total_scanned (scan_state r') - total_scanned (scan_state r) <= total
    /\ target_total (scan_state r') = total.
Proof.
  intros total. unfold scan_target_worker. exec.
  match goal with |- context [scan_target_loop w ?bs ?a ?b ?c ?d ?r1] =>
    destruct (scan_target_loop_count bs a b c d r1)
      as (r2 & extra & Hrun & Htr & Hpre & Hpub & _ & _ & Hf & Hd & Hs & Ht) end.
  cbn [scan_state trace] in *. rewrite Hrun. exec.
  revert Hf Hd Hs Ht. reads Hw. intros Hf Hd Hs Ht.
  destruct (target_batches_spec (all_tasks_of target_ips ports)) as (Hcat & _).
  rewrite Hcat, length_all_tasks_of in Hs.
  eexists _, (extra ++ [_]). split; [reflexivity |]. cbn [trace scan_state].
  split; [rewrite Htr, <- app_assoc; reflexivity |].
  rewrite saved_app, found_app, published_app, saved_rows_app.
  cbn [saved found saved_rows published]. rewrite !app_nil_r.
  split; [exact Hpre |]. split; [exact Hpub |].
  reads Hw. rewrite Hf, Ht. subst total.
  repeat split; try reflexivity; lia.
Qed.

(** The result loop of the random worker, whatever the stop requests
    do. *)
Lemma handle_results_count (results : list (option ProbeResult)) (r : Run) :
  exists r' extra,
    handle_results w results r = Some (tt, r')
    /\ trace r' = trace r ++ extra /\ quiet extra = true
    /\ saved extra `prefix_of` omap id results
    /\ published extra = saved_rows extra
    /\ (running (scan_state r') = true -> saved extra = omap id results)
    /\ total_found (scan_state r')
       = total_found (scan_state r) + Z.of_nat (length (saved extra))
    /\ total_scanned (scan_state r') = total_scanned (scan_state r).
Proof.
  revert r. induction results as [|result rest IH]; intros r.
  - exists r, []. cbn [handle_results]. exec. rewrite app_nil_r.
    cbn [saved length omap]. repeat split; try reflexivity; try lia.
  - destruct (running (scan_state r)) eqn:Hr.
    2:{ exists r, []. rewrite handle_results_stopped by assumption.
        rewrite app_nil_r. cbn [saved length].
        repeat split; try reflexivity; try lia; try congruence.
        apply prefix_nil. }
    cbn [handle_results]. exec. rewrite Hr. cbn [negb].
    destruct result as [result|]; exec.
    + match goal with |- context [handle_results w rest ?r1] =>
        destruct (IH r1)
          as (r' & extra & Hrun & Htr & Hq & Hpre & Hpub & Hall & Hf & Hs) end.
      cbn [scan_state trace] in *.
      eexists r', (_ :: _ :: extra). split; [exact Hrun |].
      split; [rewrite Htr, <- !app_assoc; reflexivity |].
      split; [unfold quiet in *; cbn [forallb andb]; exact Hq |].
      change (omap id (Some result :: rest)) with (result :: omap id rest).
      cbn [saved saved_rows published length].
      split; [now apply prefix_cons |].
      split; [now rewrite Hpub |].
      split; [intros Hr'; now rewrite (Hall Hr') |].
      rewrite Hf, Hs. reads Hw. split; [lia | reflexivity].
    + match goal with |- context [handle_results w rest ?r1] =>
        destruct (IH r1)
          as (r' & extra & Hrun & Htr & Hq & Hpre & Hpub & Hall & Hf & Hs) end.
      exists r', extra. split; [exact Hrun |]. split; [exact Htr |].
      split; [exact Hq |].
      change (omap id (None :: rest)) with (omap id rest).
      repeat split; assumption.
Qed.

(** One batch of the random worker, when it finishes, whatever the stop
    requests do. *)
Lemma scan_worker_round_count (draw_fuel : nat) (ports : list Z)
    (take_screenshots run_vuln_check : bool) (rate_counter : Z) (rate_start : Q)
    (r r' : Run) (rate : Z * Q) :
  scan_worker_round w draw_fuel ports take_screenshots run_vuln_check
                    rate_counter rate_start r = Some (rate, r') ->
  exists tasks results extra,
    trace r' = trace r ++ ObsDispatch tasks :: ObsJoin results :: extra
    /\ length results = length tasks /\ quiet extra = true
    /\ saved extra `prefix_of` omap id results
    /\ published extra = saved_rows extra
    /\ (running (scan_state r') = true -> saved extra = omap id results)
    /\ total_found (scan_state r')
       = total_found (scan_state r) + Z.of_nat (length (saved extra))
    /\ total_scanned (scan_state r')
       = total_scanned (scan_state r) + Z.of_nat (length tasks).
Proof.
  unfold scan_worker_round. exec.
  destruct (build_tasks w draw_fuel 50 ports [] r) as [[tasks r0]|] eqn:Hb;
    [| discriminate].
  apply build_tasks_spec in Hb as (Hs0 & Ht0 & _). exec.
  match goal with |- context [handle_results w ?results ?r1] =>
    destruct (handle_results_count results r1)
      as (r2 & extra & Hrun & Htr & Hq & Hpre & Hpub & Hall & Hf & Hs);
    set (rs := results) in * end.
  cbn [scan_state trace] in *. rewrite Hrun. exec.
  assert (Hlen : length rs = length tasks) by apply length_run_probes.
  revert Hf Hs. reads Hw. rewrite Hs0. intros Hf Hs.
  destruct (Qle_bool 1 _); exec; intros H; injection H as <- <-;
    cbn [trace scan_state].
  - eexists tasks, rs, (extra ++ [_]).
    split; [rewrite Htr, Ht0, <- !app_assoc; reflexivity |].
    split; [exact Hlen |].
    split; [apply quiet_app; [exact Hq | reflexivity] |].
    rewrite saved_app, published_app, saved_rows_app.
    cbn [saved saved_rows published]. rewrite !app_nil_r.
    split; [exact Hpre |]. split; [exact Hpub |]. split.
    + intros Hr'. apply (os_running_true w _ _ Hw) in Hr'.
      apply (os_running_true w _ _ Hw) in Hr'. cbn [running set_current_rate
        set_total_scanned] in Hr'. now apply Hall.
    + reads Hw. rewrite Hf, Hs. split; reflexivity.
  - exists tasks, rs, extra.
    split; [rewrite Htr, Ht0, <- !app_assoc; reflexivity |].
    split; [exact Hlen |]. split; [exact Hq |].
    split; [exact Hpre |]. split; [exact Hpub |]. split.
    + intros Hr'. apply (os_running_true w _ _ Hw) in Hr'.
      cbn [running set_total_scanned] in Hr'. now apply Hall.
    + reads Hw. rewrite Hf, Hs. split; reflexivity.
Qed.

End Counting.

(** ** When nothing interferes *)

Section Undisturbed.
Variable w : World.
Hypothesis Hw : never_stopped w.

Lemma handle_results_running (results : list (option ProbeResult)) (r r' : Run) :
  running (scan_state r) = true ->
  handle_results w results r = Some (tt, r') ->
  running (scan_state r') = true.
Proof.
  revert r. induction results as [|result rest IH]; intros r Hr.
  - cbn [handle_results]. exec. intros H. now injection H as <-.
  - cbn [handle_results]. exec. rewrite Hr. cbn [negb].
    destruct result as [result|]; exec; apply IH; cbn [scan_state];
      rewrite ?Hw; cbn [running set_total_found]; rewrite ?Hw; exact Hr.
Qed.

(** A batch of the random worker leaves the flag set. *)
Lemma scan_worker_round_running (draw_fuel : nat) (ports : list Z)
    (take_screenshots run_vuln_check : bool) (rate_counter : Z) (rate_start : Q)
    (r r' : Run) (rate : Z * Q) :
  running (scan_state r) = true ->
  scan_worker_round w draw_fuel ports take_screenshots run_vuln_check
                    rate_counter rate_start r = Some (rate, r') ->
  running (scan_state r') = true.
Proof.
  intros Hr. unfold scan_worker_round. exec.
  destruct (build_tasks w draw_fuel 50 ports [] r) as [[tasks r0]|] eqn:Hb;
    [| discriminate].
  apply build_tasks_spec in Hb as (Hs0 & _ & _). exec.
  match goal with |- context [handle_results w ?results ?r1] =>
    destruct (handle_results w results r1) as [[[] r2]|] eqn:Hrun;
      [| discriminate] end.
  apply handle_results_running in Hrun;
    [| cbn [scan_state]; now rewrite Hw, Hs0].
  exec.
  destruct (Qle_bool 1 _); exec; intros H; injection H as <- <-;
    cbn [scan_state]; rewrite ?Hw; cbn [running set_current_rate
      set_total_scanned]; exact Hrun.
Qed.

(** With the flag set and no stop request, no number of batches ends the
    loop of the random worker. *)
Lemma scan_worker_loop_runs (draw_fuel rounds : nat) (ports : list Z)
    (take_screenshots run_vuln_check : bool) (rate_counter : Z) (rate_start : Q)
    (r : Run) :
  running (scan_state r) = true ->
  scan_worker_loop w draw_fuel rounds ports take_screenshots run_vuln_check
                   rate_counter rate_start r = None.
Proof.
  revert rate_counter rate_start r.
  induction rounds as [|rounds IH]; intros rate_counter rate_start r Hr;
    cbn [scan_worker_loop]; exec; rewrite Hr; cbn [negb]; [reflexivity |].
  destruct (scan_worker_round w draw_fuel ports take_screenshots
              run_vuln_check rate_counter rate_start r)
    as [[[rc rs] r1]|] eqn:Hround; [| reflexivity].
  apply IH. now apply (scan_worker_round_running _ _ _ _ _ _ _ _ _ Hr Hround).
Qed.

(** The target worker saves every service it finds. *)
Lemma scan_target_worker_all_saved (target_ips : list string) (ports : list Z)
    (take_screenshots run_vuln_check : bool) (r : Run) :
  running (scan_state r) = true ->
  exists r' extra,
    scan_target_worker w target_ips ports take_screenshots run_vuln_check r
    = Some (tt, r')
    /\ trace r' = trace r ++ extra
    /\ saved extra = found extra
    /\ published extra = saved_rows extra
    /\ total_found (scan_state r')
       = total_found (scan_state r) + Z.of_nat (length (found extra)).
Proof.
  intros Hr. pose proof (never_only w Hw) as Ho.
  unfold scan_target_worker. exec.
  match goal with |- context [scan_target_loop w ?bs ?a ?b ?c ?d ?r1] =>
    destruct (scan_target_loop_count w Ho bs a b c d r1)
      as (r2 & extra & Hrun & Htr & _ & Hpub & Hall & _ & Hf & _);
    destruct (scan_target_loop_spec w bs a b c d r1)
      as (r2' & extra' & Hrun' & _ & _ & _ & Hns) end.
  rewrite Hrun in Hrun'. injection Hrun' as <-.
  cbn [scan_state trace] in *.
  destruct (Hns Hw Hr) as (Hr2 & _). rewrite Hrun. exec.
  eexists _, (extra ++ [_]). split; [reflexivity |]. cbn [trace scan_state].
  split; [rewrite Htr, <- app_assoc; reflexivity |].
  rewrite saved_app, found_app, published_app, saved_rows_app.
  cbn [saved found saved_rows published]. rewrite !app_nil_r.
  split; [now apply Hall |]. split; [exact Hpub |].
  rewrite <- (Hall Hr2). revert Hf. reads Ho. intros ->. reflexivity.
Qed.

End Undisturbed.

End CountFacts.

(** X7: whatever the stop requests do during a target run, the worker
    finishes with its counters in order. The results saved are a first
    stretch of the services the probes found, each row saved is published
    with the identifier the storage returned, [total_found] grew by the
    number of rows saved, and
    saved <= [target_done] <= growth of [total_scanned] <= [target_total],
    the number of addresses times the number of ports. *)
Theorem X7_target_worker_counters (w : Scanner.World)
    (target_ips : list string) (ports : list Z)
    (take_screenshots run_vuln_check : bool) (r : Scanner.Run) :
  App.only_stops w ->
  let total := Z.of_nat (length target_ips) * Z.of_nat (length ports) in
  exists r' extra,
    Scanner.scan_target_worker w target_ips ports take_screenshots
                               run_vuln_check r = Some (tt, r')
    /\ Scanner.trace r' = Scanner.trace r ++ extra
    /\ Props.saved extra `prefix_of` Props.found extra
    /\ Props.published extra = Props.saved_rows extra
    /\ Scanner.total_found (Scanner.scan_state r')
       = Scanner.total_found (Scanner.scan_state r)
         + Z.of_nat (length (Props.saved extra))
    /\ Z.of_nat (length (Props.saved extra))
       <= Scanner.target_done (Scanner.scan_state r')
    /\ Scanner.target_done (Scanner.scan_state r')
       <= Scanner.total_scanned (Scanner.scan_state r')
          - Scanner.total_scanned (Scanner.scan_state r)
    /\ Scanner.total_scanned (Scanner.scan_state r')
       - Scanner.total_scanned (Scanner.scan_state r) <= total
    /\ Scanner.target_total (Scanner.scan_state r') = total.
Proof.
  intros Hw total. now apply CountFacts.scan_target_worker_count.
Qed.

(** X7 at a run over two addresses and two ports that is stopped while the
    second result is being saved. *)
Lemma X7_target_worker_counters_witness :
  exists r' extra,
    Scanner.scan_target_worker (Props.answering_world (Props.stop_during 2))
      ["1.1.1.1"; "8.8.8.8"] [80; 443] false false Props.target_start
    = Some (tt, r')
    /\ Scanner.trace r' = Scanner.trace Props.target_start ++ extra
    /\ Props.saved extra `prefix_of` Props.found extra
    /\ Scanner.target_done (Scanner.scan_state r') <= 4.
Proof.
  destruct (X7_target_worker_counters
              (Props.answering_world (Props.stop_during 2))
              ["1.1.1.1"; "8.8.8.8"] [80; 443] false false Props.target_start)
    as (r' & extra & Hrun & Htr & Hpre & _ & _ & _ & Hd & Hs & _).
  - now apply (WorkerFacts.stop_at_only _ (Props.stop_during 2)).
  - exists r', extra. repeat split; try assumption.
    cbn [length Z.of_nat] in Hs. lia.
Defined.

(** X8: when no stop request arrives, nothing that was found is lost. The
    target worker saves and publishes every service its probes found and
    counts each in [total_found]; so does every batch of the random worker
    that finishes. *)
Theorem X8_every_service_found_is_saved (w : Scanner.World)
    (take_screenshots run_vuln_check : bool) (r : Scanner.Run) :
  App.never_stopped w ->
  Scanner.running (Scanner.scan_state r) = true ->
  (forall target_ips ports,
     exists r' extra,
       Scanner.scan_target_worker w target_ips ports take_screenshots
                                  run_vuln_check r = Some (tt, r')
       /\ Scanner.trace r' = Scanner.trace r ++ extra
       /\ Props.saved extra = Props.found extra
       /\ Props.published extra = Props.saved_rows extra
       /\ Scanner.total_found (Scanner.scan_state r')
          = Scanner.total_found (Scanner.scan_state r)
            + Z.of_nat (length (Props.found extra)))
  /\ (forall draw_fuel ports rate_counter rate_start rate r',
        Scanner.scan_worker_round w draw_fuel ports take_screenshots
          run_vuln_check rate_counter rate_start r = Some (rate, r') ->
        exists extra,
          Scanner.trace r' = Scanner.trace r ++ extra
          /\ Props.saved extra = Props.found extra
          /\ Props.published extra = Props.saved_rows extra
          /\ Scanner.total_found (Scanner.scan_state r')
             = Scanner.total_found (Scanner.scan_state r)
               + Z.of_nat (length (Props.found extra))).
Proof.
  intros Hw Hr. split.
  - intros target_ips ports.
    now apply CountFacts.scan_target_worker_all_saved.
  - intros draw_fuel ports rate_counter rate_start rate r' Hround.
    pose proof (CountFacts.scan_worker_round_running w Hw _ _ _ _ _ _ _ _ _
                  Hr Hround) as Hr'.
    apply (CountFacts.scan_worker_round_count w (WorkerFacts.never_only w Hw))
      in Hround
      as (tasks & results & extra & Htr & _ & Hq & _ & Hpub & Hall & Hf & _).
    exists (Scanner.ObsDispatch tasks :: Scanner.ObsJoin results :: extra).
    split; [exact Htr |]. cbn [Props.saved Props.found Props.published
                               Props.saved_rows].
    rewrite (CountFacts.quiet_found _ Hq), app_nil_r.
    split; [now apply Hall |]. split; [exact Hpub |].
    now rewrite <- (Hall Hr').
Qed.

(** X8 at an undisturbed run over two addresses and two ports, all of
    which answer: four rows are saved. *)
Lemma X8_every_service_found_is_saved_witness :
  exists r' extra,
    Scanner.scan_target_worker (Props.answering_world Props.no_stop)
      ["1.1.1.1"; "8.8.8.8"] [80; 443] false false Props.target_start
    = Some (tt, r')
    /\ Scanner.trace r' = Scanner.trace Props.target_start ++ extra
    /\ Props.saved extra = Props.found extra
    /\ Scanner.total_found (Scanner.scan_state r') = 4.
Proof.
  destruct (X8_every_service_found_is_saved
              (Props.answering_world Props.no_stop) false false
              Props.target_start) as [H _].
  - intros n s. reflexivity.
  - reflexivity.
  - destruct (H ["1.1.1.1"; "8.8.8.8"] [80; 443])
      as (r' & extra & Hrun & Htr & Hsaved & _ & Hfound).
    exists r', extra. repeat split; try assumption.
    rewrite Hfound. vm_compute in Hrun. injection Hrun as <-.
    cbn [Scanner.trace Props.target_start Scanner.start_run app] in Htr.
    rewrite <- Htr. vm_compute. reflexivity.
Defined.

(** X9: the random worker does not end on its own. With the flag set and
    no stop request, no bound on the number of batches lets
    [scan_worker] return. *)
Theorem X9_random_worker_runs_until_stopped (w : Scanner.World)
    (draw_fuel rounds : nat) (ports : list Z)
    (take_screenshots run_vuln_check : bool) (r : Scanner.Run) :
  App.never_stopped w ->
  Scanner.running (Scanner.scan_state r) = true ->
  Scanner.scan_worker w draw_fuel rounds ports take_screenshots
                      run_vuln_check r = None.
Proof.
  intros Hw Hr. unfold Scanner.scan_worker. WorkerFacts.exec.
  rewrite CountFacts.scan_worker_loop_runs; [reflexivity | exact Hw | exact Hr].
Qed.

(** X9 at a run that is allowed three batches. *)
Lemma X9_random_worker_runs_until_stopped_witness :
  Scanner.scan_worker (Props.answering_world Props.no_stop) 10 3 [80]
                      false false Props.random_start = None.
Proof.
  apply (X9_random_worker_runs_until_stopped
           (Props.answering_world Props.no_stop) 10 3 [80] false false
           Props.random_start).
  - intros n s. reflexivity.
  - reflexivity.
Defined.

Module StoppedFacts.
Import Scanner App Props WorkerFacts.

Lemma scan_target_loop_stopped (w : World) (batches : list (list (string * Z)))
    (take_screenshots run_vuln_check : bool) (rate_counter : Z) (rate_start : Q)
    (r : Run) :
  running (scan_state r) = false ->
  scan_target_loop w batches take_screenshots run_vuln_check
                   rate_counter rate_start r = Some (tt, r).
Proof.
  intros Hr. destruct batches as [|batch rest]; [reflexivity |].
  cbn [scan_target_loop]. exec. now rewrite Hr.
Qed.

Lemma scan_worker_loop_stopped (w : World) (draw_fuel rounds : nat)
    (ports : list Z) (take_screenshots run_vuln_check : bool)
    (rate_counter : Z) (rate_start : Q) (r : Run) :
  running (scan_state r) = false ->
  scan_worker_loop w draw_fuel rounds ports take_screenshots run_vuln_check
                   rate_counter rate_start r = Some (tt, r).
Proof.
  intros Hr. destruct rounds; cbn [scan_worker_loop]; exec; now rewrite Hr.
Qed.

End StoppedFacts.

(** X10: a worker that starts with the flag already clear (a stop request
    was served before its first step) probes nothing, draws no address and
    saves nothing: all it does is publish the final status. The random
    worker needs no batch for that. *)
Theorem X10_stopped_before_first_batch (w : Scanner.World)
    (take_screenshots run_vuln_check : bool) (r : Scanner.Run) :
  Scanner.running (Scanner.scan_state r) = false ->
  (forall target_ips ports,
     exists r' data,
       Scanner.scan_target_worker w target_ips ports take_screenshots
                                  run_vuln_check r = Some (tt, r')
       /\ Scanner.trace r'
          = Scanner.trace r ++ [Scanner.ObsNotify (Scanner.MsgStatus data)]
       /\ Scanner.sd_running data = false
       /\ Scanner.probes r' = Scanner.probes r
       /\ Scanner.saves r' = Scanner.saves r)
  /\ (forall draw_fuel rounds ports,
        exists r' data,
          Scanner.scan_worker w draw_fuel rounds ports take_screenshots
                              run_vuln_check r = Some (tt, r')
          /\ Scanner.trace r'
             = Scanner.trace r ++ [Scanner.ObsNotify (Scanner.MsgStatus data)]
          /\ Scanner.sd_running data = false
          /\ Scanner.probes r' = Scanner.probes r
          /\ Scanner.draws r' = Scanner.draws r
          /\ Scanner.saves r' = Scanner.saves r).
Proof.
  intros Hr. split.
  - intros target_ips ports. unfold Scanner.scan_target_worker.
    WorkerFacts.exec.
    rewrite StoppedFacts.scan_target_loop_stopped by exact Hr.
    WorkerFacts.exec. eexists _, _. split; [reflexivity |].
    cbn [Scanner.trace Scanner.probes Scanner.saves].
    repeat split; reflexivity.
  - intros draw_fuel rounds ports. unfold Scanner.scan_worker.
    WorkerFacts.exec.
    rewrite StoppedFacts.scan_worker_loop_stopped by exact Hr.
    WorkerFacts.exec. eexists _, _. split; [reflexivity |].
    cbn [Scanner.trace Scanner.probes Scanner.saves Scanner.draws].
    repeat split; reflexivity.
Qed.

(** X10 at a random worker that is given no batch at all. *)
Lemma X10_stopped_before_first_batch_witness :
  exists r' data,
    Scanner.scan_worker (Props.answering_world Props.no_stop) 10 0 [80; 443]
      false false (Scanner.start_run Scanner.initial_scan_state)
    = Some (tt, r')
    /\ Scanner.trace r' = [Scanner.ObsNotify (Scanner.MsgStatus data)].
Proof.
  destruct (X10_stopped_before_first_batch
              (Props.answering_world Props.no_stop) false false
              (Scanner.start_run Scanner.initial_scan_state)) as [_ H].
  - reflexivity.
  - destruct (H 10%nat 0%nat [80; 443]) as (r' & data & Hrun & Htr & _).
    exists r', data. split; [exact Hrun | exact Htr].
Defined.

(* ===================================================================== *)
(** * scanner.py: a stop request ends the random worker *)
(* ===================================================================== *)

Module StopFacts.
Import Py PyFacts Scanner App Props WorkerFacts.

Section Stop.
Variable w : World.
Variable stops : nat -> bool.
Variable k : nat.
Variable draw_fuel : nat.
Hypothesis Hint : interfere w = stop_at stops.
Hypothesis Hk : stops k = true.
Hypothesis Hdraw :
  forall j, is_Some (IpGenerator.generate_random_ip draw_fuel (entropy w) j).

(** A suspension either comes before the one during which the stop
    request is served, or leaves the flag clear. *)
Lemma step (n : nat) (s : ScanState) :
  (n <= k)%nat \/ running s = false ->
  (S n <= k)%nat \/ running (interfere w n s) = false.
Proof.
  rewrite Hint. unfold stop_at, stop_scan. intros [Hn | Hr].
  - destruct (Nat.eq_dec n k) as [-> | Hne]; [| left; lia].
    right. rewrite Hk. destruct (running s) eqn:Hr; cbn; [reflexivity | exact Hr].
  - right. destruct (stops n); [| exact Hr]. now rewrite Hr.
Qed.

Lemma stays (n : nat) (s : ScanState) :
  running s = false -> running (interfere w n s) = false.
Proof.
  intros Hr. rewrite Hint. unfold stop_at, stop_scan.
  destruct (stops n); [| exact Hr]. now rewrite Hr.
Qed.

Lemma handle_results_served (results : list (option ProbeResult)) (r : Run) :
  (suspensions r <= k)%nat \/ running (scan_state r) = false ->
  exists r',
    handle_results w results r = Some (tt, r')
    /\ (suspensions r <= suspensions r')%nat
    /\ ((suspensions r' <= k)%nat \/ running (scan_state r') = false).
Proof.
  revert r. induction results as [|result rest IH]; intros r HI.
  - exists r. cbn [handle_results]. exec. auto.
  - destruct (running (scan_state r)) eqn:Hr.
    2:{ exists r. rewrite handle_results_stopped by assumption. auto. }
    cbn [handle_results]. exec. rewrite Hr. cbn [negb].
    destruct result as [result|]; exec.
    + match goal with |- context [handle_results w rest ?r1] =>
        destruct (IH r1) as (r' & Hrun & Hle & HI') end.
      { cbn [suspensions scan_state]. apply step.
        cbn [running set_total_found]. apply step. rewrite Hr. exact HI. }
      cbn [suspensions] in Hle. exists r'. split; [exact Hrun |].
      split; [lia | exact HI'].
    + destruct (IH r) as (r' & Hrun & Hle & HI'); [rewrite Hr; exact HI |].
      exists r'. auto.
Qed.

Lemma build_tasks_total (n : nat) (ports : list Z) (tasks0 : list (string * Z))
    (r : Run) :
  exists tasks r0,
    build_tasks w draw_fuel n ports tasks0 r = Some (tasks, r0)
    /\ scan_state r0 = scan_state r /\ suspensions r0 = suspensions r
    /\ trace r0 = trace r.
Proof.
  revert tasks0 r. induction n as [|n IH]; intros tasks0 r.
  - exists tasks0, r. cbn [build_tasks]. exec. auto.
  - cbn [build_tasks]. exec. destruct (running (scan_state r)); cbn [negb].
    + unfold random_ip. destruct (Hdraw (draws r)) as [[ip j] ->].
      match goal with |- context [build_tasks w draw_fuel n ports ?t ?r1] =>
        destruct (IH t r1) as (tasks & r0 & Hrun & Hs & Hn & Ht) end.
      exists tasks, r0. auto.
    + exists tasks0, r. auto.
Qed.

(** One batch: it finishes, and it takes the worker at least one
    suspension further. *)
Lemma scan_worker_round_served (ports : list Z)
    (take_screenshots run_vuln_check : bool) (rate_counter : Z) (rate_start : Q)
    (r : Run) :
  (suspensions r <= k)%nat \/ running (scan_state r) = false ->
  exists rate r',
    scan_worker_round w draw_fuel ports take_screenshots run_vuln_check
                      rate_counter rate_start r = Some (rate, r')
    /\ (suspensions r < suspensions r')%nat
    /\ ((suspensions r' <= k)%nat \/ running (scan_state r') = false).
Proof.
  intros HI. unfold scan_worker_round. exec.
  destruct (build_tasks_total 50 ports [] r) as (tasks & r0 & -> & Hs0 & Hn0 & _).
  exec.
  match goal with |- context [handle_results w ?results ?r1] =>
    destruct (handle_results_served results r1) as (r2 & Hrun & Hle & HI2) end.
  { cbn [suspensions scan_state]. rewrite Hs0, Hn0. now apply step. }
  cbn [suspensions] in Hle. rewrite Hrun. exec.
  destruct (Qle_bool 1 _); exec; eexists _, _; (split; [reflexivity |]);
    cbn [suspensions scan_state]; (split; [lia |]).
  - apply step. apply step. exact HI2.
  - apply step. exact HI2.
Qed.

(** The loop ends once the stop request was served. *)
Lemma scan_worker_loop_served (rounds : nat) (ports : list Z)
    (take_screenshots run_vuln_check : bool) (rate_counter : Z) (rate_start : Q)
    (r : Run) :
  (suspensions r <= k)%nat \/ running (scan_state r) = false ->
  (S k - suspensions r <= rounds)%nat ->
  exists r',
    scan_worker_loop w draw_fuel rounds ports take_screenshots run_vuln_check
                     rate_counter rate_start r = Some (tt, r')
    /\ running (scan_state r') = false.
Proof.
  revert rate_counter rate_start r.
  induction rounds as [|rounds IH]; intros rate_counter rate_start r HI Hfuel;
    cbn [scan_worker_loop]; exec;
    destruct (running (scan_state r)) eqn:Hr; cbn [negb];
    try (exists r; split; [reflexivity | exact Hr]).
  - destruct HI as [HI | HI]; [lia | discriminate].
  - destruct (scan_worker_round_served ports take_screenshots run_vuln_check
                rate_counter rate_start r) as ([rc rs] & r1 & -> & Hlt & HI1).
    { rewrite Hr. exact HI. }
    apply IH; [exact HI1 |]. destruct HI as [HI | HI]; [lia | discriminate].
Qed.

End Stop.

End StopFacts.

(** X11: a stop request ends the random worker. When [stop_scan] is served
    during the k-th suspension of the worker and the sampler returns on
    every call, the worker returns within k + 1 batches, with the flag
    clear and the final status as its last message. *)
Theorem X11_stop_ends_random_worker (w : Scanner.World) (stops : nat -> bool)
    (k draw_fuel rounds : nat) (ports : list Z)
    (take_screenshots run_vuln_check : bool) (r : Scanner.Run) :
  Scanner.interfere w = App.stop_at stops ->
  stops k = true ->
  (forall j, is_Some (IpGenerator.generate_random_ip
                        draw_fuel (Scanner.entropy w) j)) ->
  (Scanner.suspensions r <= k)%nat ->
  (S k - Scanner.suspensions r <= rounds)%nat ->
  exists r' extra data,
    Scanner.scan_worker w draw_fuel rounds ports take_screenshots
                        run_vuln_check r = Some (tt, r')
    /\ Scanner.running (Scanner.scan_state r') = false
    /\ Scanner.trace r' = Scanner.trace r ++ extra
    /\ last extra = Some (Scanner.ObsNotify (Scanner.MsgStatus data))
    /\ Scanner.sd_running data = false.
Proof.
  intros Hint Hk Hdraw Hsusp Hrounds.
  assert (Hrun : exists r',
            Scanner.scan_worker w draw_fuel rounds ports take_screenshots
                                run_vuln_check r = Some (tt, r')
            /\ Scanner.running (Scanner.scan_state r') = false).
  { unfold Scanner.scan_worker. WorkerFacts.exec.
    match goal with
    | |- context [Scanner.scan_worker_loop w draw_fuel rounds ?p ?a ?b ?c ?d ?r1] =>
        destruct (StopFacts.scan_worker_loop_served w stops k draw_fuel Hint Hk
                    Hdraw rounds p a b c d r1) as (r2 & -> & Hr2)
    end; [left; exact Hsusp | exact Hrounds |].
    WorkerFacts.exec. eexists. split; [reflexivity |].
    cbn [Scanner.scan_state].
    apply (StopFacts.stays w stops Hint). apply (StopFacts.stays w stops Hint).
    exact Hr2. }
  destruct Hrun as (r' & Hrun & Hr').
  destruct (WorkerFacts.scan_worker_spec w draw_fuel rounds ports
              take_screenshots run_vuln_check r r' Hrun)
    as (extra & data & Htr & _ & Hlast & Hdata).
  exists r', extra, data. auto.
Qed.

(** X11 at a run on port 80 that is stopped during its fourth
    suspension. *)
Lemma X11_stop_ends_random_worker_witness :
  exists r' extra data,
    Scanner.scan_worker (Props.steady_world (Props.stop_during 3)) 1 4 [80]
                        false false Props.random_start = Some (tt, r')
    /\ Scanner.running (Scanner.scan_state r') = false
    /\ Scanner.trace r' = Scanner.trace Props.random_start ++ extra
    /\ last extra = Some (Scanner.ObsNotify (Scanner.MsgStatus data))
    /\ Scanner.sd_running data = false.
Proof.
  apply (X11_stop_ends_random_worker
           (Props.steady_world (Props.stop_during 3)) (Props.stop_during 3)
           3 1 4 [80] false false Props.random_start).
  - reflexivity.
  - reflexivity.
  - intros j. vm_compute. eauto.
  - cbn. lia.
  - cbn. lia.
Defined.

(* ===================================================================== *)
(** * app.py: what a target scan is started with *)
(* ===================================================================== *)

(** X12: [start_target_scan] creates a worker exactly when no run is
    going, the input yields an address, a requested port is valid and the
    number of probes is at most 100000. The worker it creates gets the
    parsed addresses and the valid ports of the request, between 1 and
    100000 probes in all, and the answer announces these numbers. *)
Theorem X12_target_task_within_cap
    (gethostbyname : string -> Scanner.Lookup)
    (urlparse_hostname : string -> option (option string))
    (now : Q) (request : App.TargetScanRequest) (s : Scanner.ScanState) :
  let valid_ports := List.filter App.valid_port (App.t_ports request) in
  (forall response s1 task,
     App.start_target_scan gethostbyname urlparse_hostname now request s
     = (response, s1, Some task) ->
     exists target_ips,
       Scanner.parse_target_ips gethostbyname urlparse_hostname
                                (App.targets request) = Some target_ips
       /\ task = App.TargetTask target_ips valid_ports
                   (App.t_take_screenshots request)
                   (App.t_run_vuln_check request)
       /\ response
          = App.StartedTarget valid_ports (Z.of_nat (length target_ips))
              (Z.of_nat (length target_ips) * Z.of_nat (length valid_ports))
       /\ 1 <= Z.of_nat (length target_ips) * Z.of_nat (length valid_ports)
            <= 100000
       /\ s1 = App.begin_scan Scanner.Target now s)
  /\ ((exists response s1 task,
         App.start_target_scan gethostbyname urlparse_hostname now request s
         = (response, s1, Some task))
      <-> Scanner.running s = false
          /\ exists target_ips,
               Scanner.parse_target_ips gethostbyname urlparse_hostname
                                        (App.targets request) = Some target_ips
               /\ target_ips <> [] /\ valid_ports <> []
               /\ Z.of_nat (length target_ips) * Z.of_nat (length valid_ports)
                  <= 100000).
Proof.
  intros valid_ports. subst valid_ports. unfold App.start_target_scan.
  destruct (Scanner.running s).
  { split; [discriminate |]. split; [intros (? & ? & ? & H) | intros [H _]];
      discriminate. }
  destruct (Scanner.parse_target_ips gethostbyname urlparse_hostname
              (App.targets request)) as [[|ip ips]|].
  - split; [discriminate |].
    split; [intros (? & ? & ? & H); discriminate |].
    intros (_ & l & H & Hne & _). injection H as <-. congruence.
  - destruct (List.filter App.valid_port (App.t_ports request)) as [|p ps].
    { split; [discriminate |].
      split; [intros (? & ? & ? & H); discriminate |].
      intros (_ & l & _ & _ & Hne & _). congruence. }
    destruct (100000 <? _) eqn:Hcap.
    + apply Z.ltb_lt in Hcap. split; [discriminate |].
      split; [intros (? & ? & ? & H); discriminate |].
      intros (_ & l & H & _ & _ & Hle). injection H as <-. lia.
    + apply Z.ltb_ge in Hcap. split.
      * intros response s1 task H. injection H as <- <- <-.
        exists (ip :: ips). repeat split; try reflexivity; try exact Hcap.
        cbn [length]. lia.
      * split; [| eauto]. intros _. split; [reflexivity |].
        exists (ip :: ips). repeat split; try discriminate. exact Hcap.
  - split; [discriminate |].
    split; [intros (? & ? & ? & H); discriminate |].
    intros (_ & l & H & _). discriminate.
Qed.

(** X12 at a request for two addresses and the ports 80, 22 and 443: the
    worker gets four probes. *)
Lemma X12_target_task_within_cap_witness :
  exists target_ips,
    App.TargetTask ["1.1.1.1"; "8.8.8.8"] [80; 443] true false
    = App.TargetTask target_ips [80; 443] true false
    /\ 1 <= Z.of_nat (length target_ips) * 2 <= 100000.
Proof.
  destruct (X12_target_task_within_cap Props.no_dns Props.no_host 0
              {| App.targets := "1.1.1.1, 8.8.8.8"; App.t_ports := [80; 22; 443];
                 App.t_take_screenshots := true;
                 App.t_run_vuln_check := false |}
              Scanner.initial_scan_state) as [H _].
  destruct (H (App.StartedTarget [80; 443] 2 4)
              (App.begin_scan Scanner.Target 0 Scanner.initial_scan_state)
              (App.TargetTask ["1.1.1.1"; "8.8.8.8"] [80; 443] true false))
    as (target_ips & _ & Htask & _ & Hcap & _).
  - vm_compute. reflexivity.
  - exists target_ips. split; [exact Htask | exact Hcap].
Defined.

(** X13: a target scan from the request to its end. When
    [start_target_scan] accepts a request, whatever the counters of an
    earlier run were, and no stop request arrives, the worker it created
    finishes with [total_scanned], [target_done] and [target_total] all at
    the number of probes the answer announced, with [total_found] at the
    number of services found, and with the flag clear. *)
Theorem X13_target_scan_from_request_to_end
    (gethostbyname : string -> Scanner.Lookup)
    (urlparse_hostname : string -> option (option string))
    (w : Scanner.World) (now : Q) (request : App.TargetScanRequest)
    (s s1 : Scanner.ScanState) (response : App.Response)
    (target_ips : list string) (ports : list Z)
    (take_screenshots run_vuln_check : bool) :
  App.never_stopped w ->
  App.start_target_scan gethostbyname urlparse_hostname now request s
  = (response, s1,
     Some (App.TargetTask target_ips ports take_screenshots run_vuln_check)) ->
  exists total r',
    response = App.StartedTarget ports (Z.of_nat (length target_ips)) total
    /\ 1 <= total <= 100000
    /\ Scanner.scan_target_worker w target_ips ports take_screenshots
         run_vuln_check (Scanner.start_run s1) = Some (tt, r')
    /\ Scanner.running (Scanner.scan_state r') = false
    /\ Scanner.total_scanned (Scanner.scan_state r') = total
    /\ Scanner.target_done (Scanner.scan_state r') = total
    /\ Scanner.target_total (Scanner.scan_state r') = total
    /\ Scanner.total_found (Scanner.scan_state r')
       = Z.of_nat (length (Props.found (Scanner.trace r')))
    /\ Props.saved (Scanner.trace r') = Props.found (Scanner.trace r').
Proof.
  intros Hw Hstart.
  assert (Hs1 : s1 = App.begin_scan Scanner.Target now s
                /\ response
                   = App.StartedTarget ports (Z.of_nat (length target_ips))
                       (Z.of_nat (length target_ips) * Z.of_nat (length ports))
                /\ 1 <= Z.of_nat (length target_ips) * Z.of_nat (length ports)
                     <= 100000).
  { unfold App.start_target_scan in Hstart.
    destruct (Scanner.running s); [discriminate |].
    destruct (Scanner.parse_target_ips _ _ _) as [[|ip ips]|];
      try discriminate.
    destruct (List.filter App.valid_port (App.t_ports request)) as [|p ps];
      [discriminate |].
    destruct (100000 <? _) eqn:Hcap; [discriminate |].
    apply Z.ltb_ge in Hcap. injection Hstart as <- <- <- <- <- <-.
    repeat split; try exact Hcap. cbn [length]. lia. }
  destruct Hs1 as (-> & -> & Hcap).
  set (r := Scanner.start_run (App.begin_scan Scanner.Target now s)).
  assert (Hr : Scanner.running (Scanner.scan_state r) = true) by reflexivity.
  destruct (WorkerFacts.scan_target_worker_spec w target_ips ports
              take_screenshots run_vuln_check r)
    as (r' & extra & data & Hrun & Htr & _ & _ & _ & Hos & Hns).
  destruct (CountFacts.scan_target_worker_all_saved w Hw target_ips ports
              take_screenshots run_vuln_check r Hr)
    as (r'' & extra' & Hrun' & Htr' & Hsaved & _ & Hfound).
  rewrite Hrun in Hrun'. injection Hrun' as <-.
  destruct (Hos (WorkerFacts.never_only w Hw)) as (Hstop & Htotal & _).
  destruct (Hns Hw Hr) as (_ & Hdone & Hscanned).
  destruct (WorkerFacts.target_batches_spec
              (Scanner.all_tasks_of target_ips ports)) as (Hcat & _).
  rewrite Hcat, WorkerFacts.length_all_tasks_of in Hdone, Hscanned.
  exists (Z.of_nat (length target_ips) * Z.of_nat (length ports)), r'.
  split; [reflexivity |]. split; [exact Hcap |]. split; [exact Hrun |].
  split; [exact Hstop |].
  split; [rewrite Hscanned; cbn; lia |].
  split; [rewrite Hdone; lia |]. split; [exact Htotal |].
  rewrite Htr'. cbn [Scanner.trace r Scanner.start_run app].
  split; [rewrite Hfound; reflexivity | exact Hsaved].
Qed.

(** X13 at a request for two addresses and two ports, started in a state
    that still counts the seven probes of an earlier run. *)
Lemma X13_target_scan_from_request_to_end_witness :
  exists total r',
    App.StartedTarget [80; 443] 2 4 = App.StartedTarget [80; 443] 2 total
    /\ 1 <= total <= 100000
    /\ Scanner.scan_target_worker (Props.answering_world Props.no_stop)
         ["1.1.1.1"; "8.8.8.8"] [80; 443] false false
         (Scanner.start_run
            (App.begin_scan Scanner.Target 5
               (Scanner.set_total_scanned 7 Scanner.initial_scan_state)))
       = Some (tt, r')
    /\ Scanner.running (Scanner.scan_state r') = false
    /\ Scanner.total_scanned (Scanner.scan_state r') = total.
Proof.
  destruct (X13_target_scan_from_request_to_end Props.no_dns Props.no_host
              (Props.answering_world Props.no_stop) 5
              {| App.targets := "1.1.1.1,8.8.8.8"; App.t_ports := [80; 443];
                 App.t_take_screenshots := false;
                 App.t_run_vuln_check := false |}
              (Scanner.set_total_scanned 7 Scanner.initial_scan_state)
              (App.begin_scan Scanner.Target 5
                 (Scanner.set_total_scanned 7 Scanner.initial_scan_state))
              (App.StartedTarget [80; 443] 2 4)
              ["1.1.1.1"; "8.8.8.8"] [80; 443] false false)
    as (total & r' & Hresp & Hcap & Hrun & Hstop & Hscanned & _).
  - intros n s. reflexivity.
  - vm_compute. reflexivity.
  - exists total, r'. repeat split; try assumption; apply Hcap.
Defined.

(* ===================================================================== *)
(** * vuln_scanner.py: the scan as a whole *)
(* ===================================================================== *)

Module ScanFacts.
Import Py VulnScanner Props VulnFacts AuditFacts.

Lemma level_medium : is_level "medium".
Proof. unfold is_level, RISK_LEVELS. cbn [In]. tauto. Qed.

Lemma level_low : is_level "low".
Proof. unfold is_level, RISK_LEVELS. cbn [In]. tauto. Qed.

Lemma level_high : is_level "high".
Proof. unfold is_level, RISK_LEVELS. cbn [In]. tauto. Qed.

Lemma level_ok_level (risk : string) : level_ok risk = true -> is_level risk.
Proof.
  unfold level_ok, is_level. intros H.
  apply existsb_exists in H as (level & Hin & Heq).
  apply String.eqb_eq in Heq. now subst.
Qed.

Lemma levels_of_table {T : Type} (risk : T -> string) (table : list T) :
  forallb (fun entry => level_ok (risk entry)) table = true ->
  Forall (fun entry => is_level (risk entry)) table.
Proof.
  intros H. apply Forall_forall. intros entry Hin. apply level_ok_level.
  rewrite forallb_forall in H. apply H. now apply list_elem_of_In.
Qed.

(** ** The header audit and the path probes *)

Lemma check_security_headers_filter (headers : gmap string string) :
  check_security_headers headers
  = map (fun item => missing_header_finding (snd item))
        (List.filter (missing headers) SECURITY_HEADERS).
Proof. unfold check_security_headers. now rewrite fold_check_header. Qed.

Lemma check_security_headers_graded (headers : gmap string string) :
  Forall (fun f => f_type f = "missing_header" /\ graded f)
         (check_security_headers headers).
Proof.
  rewrite check_security_headers_filter. apply Forall_forall.
  intros f Hf. apply list_elem_of_In, in_map_iff in Hf as (item & <- & Hitem).
  apply filter_In in Hitem as [Hitem _]. split; [reflexivity |].
  unfold graded. cbn [missing_header_finding f_risk]. eexists.
  split; [reflexivity |].
  assert (Hall : Forall (fun item : string * HeaderInfo =>
                           is_level (h_risk (snd item))) SECURITY_HEADERS)
    by (apply levels_of_table; vm_compute; reflexivity).
  rewrite Forall_forall in Hall. apply Hall. now apply list_elem_of_In.
Qed.

Lemma length_check_security_headers (headers : gmap string string) :
  (length (check_security_headers headers) <= 7)%nat.
Proof.
  rewrite check_security_headers_filter, length_map.
  etransitivity; [apply filter_length_le | reflexivity].
Qed.

Lemma check_exposed_paths_omap (fetch : string -> Fetch) (base_url : string) :
  check_exposed_paths fetch base_url
  = omap id (map (check_path fetch base_url) SENSITIVE_PATHS).
Proof. unfold check_exposed_paths. now rewrite fold_keep_result. Qed.

Lemma check_path_graded (fetch : string -> Fetch) (base_url : string)
    (path_info : PathInfo) (f : Finding) :
  is_level (p_risk path_info) ->
  check_path fetch base_url path_info = Some f ->
  f_type f = "exposed_path" /\ graded f.
Proof.
  intros Hlevel. unfold check_path.
  destruct (fetch _) as [|status body]; [discriminate |].
  destruct (status =? 200).
  - destruct body as [body|]; [| discriminate].
    destruct (0 <? _); [| discriminate].
    intros H. injection H as <-. split; [reflexivity |].
    eexists. split; [reflexivity | exact Hlevel].
  - destruct (status =? 403); [| discriminate].
    intros H. injection H as <-. split; [reflexivity |].
    eexists. split; [reflexivity | apply level_low].
Qed.

Lemma sensitive_paths_levels :
  Forall (fun path_info => is_level (p_risk path_info)) SENSITIVE_PATHS.
Proof. apply levels_of_table. vm_compute. reflexivity. Qed.

Lemma omap_id_map_Forall {A : Type} (g : A -> option Finding)
    (P : A -> Prop) (Q : Finding -> Prop) (l : list A) :
  Forall P l -> (forall a f, P a -> g a = Some f -> Q f) ->
  Forall Q (omap id (map g l)) /\ (length (omap id (map g l)) <= length l)%nat.
Proof.
  intros Hall Hg. induction Hall as [|a l Ha _ [IH1 IH2]].
  - split; [constructor | reflexivity].
  - cbn [map]. destruct (g a) as [f|] eqn:Hga.
    + change (omap id (Some f :: map g l)) with (f :: omap id (map g l)).
      split; [constructor; [now apply (Hg a) | exact IH1] | cbn [length]; lia].
    + change (omap id (None :: map g l)) with (omap id (map g l)).
      split; [exact IH1 | cbn [length]; lia].
Qed.

Lemma check_exposed_paths_graded (fetch : string -> Fetch) (base_url : string) :
  Forall (fun f => f_type f = "exposed_path" /\ graded f)
         (check_exposed_paths fetch base_url)
  /\ (length (check_exposed_paths fetch base_url) <= 26)%nat.
Proof.
  rewrite check_exposed_paths_omap.
  apply (omap_id_map_Forall _ (fun path_info => is_level (p_risk path_info))).
  - apply sensitive_paths_levels.
  - intros path_info f Hl Hf. now apply (check_path_graded fetch base_url path_info).
Qed.

(** ** The checks on the response *)

Section Search.
Variable re_search : string -> string -> option (option string).

Lemma check_directory_listing_graded (body : string) :
  Forall (fun f => f_type f = "directory_listing" /\ graded f)
         (check_directory_listing re_search body)
  /\ (length (check_directory_listing re_search body) <= 1)%nat.
Proof.
  unfold check_directory_listing.
  induction DIRECTORY_LISTING_PATTERNS as [|pattern rest IH];
    cbn [directory_listing_in].
  - split; [constructor | cbn; lia].
  - destruct (re_search pattern body); [| exact IH]. split; [| reflexivity].
    repeat constructor. eexists. split; [reflexivity | apply level_medium].
Qed.

Lemma detected_ok_add (findings : list Finding) (detected : gset string)
    (name description risk : string) :
  is_level risk -> name ∉ detected ->
  detected_ok (findings, detected) ->
  detected_ok (findings ++ [tech_finding name description risk],
               {[ name ]} ∪ detected).
Proof.
  intros Hl Hnew (Hall & Hnd & Hset). cbn [fst snd] in *.
  split; [| split]; cbn [fst snd].
  - apply Forall_app. split; [exact Hall |]. repeat constructor.
    eexists. split; [reflexivity | exact Hl].
  - rewrite map_app. cbn [map tech_finding f_name]. apply NoDup_app.
    split; [exact Hnd |]. split; [| apply NoDup_singleton].
    intros x Hx Hx'. apply list_elem_of_singleton in Hx'. subst x.
    apply Hnew, Hset. now apply list_elem_of_In.
  - intros x. rewrite map_app, in_app_iff, elem_of_union, elem_of_singleton, Hset.
    cbn [map tech_finding f_name In]. intuition congruence.
Qed.

Lemma check_header_tech_ok (headers : gmap string string)
    (acc : list Finding * gset string) (tech : TechPattern) :
  is_level (t_risk tech) -> detected_ok acc ->
  detected_ok (check_header_tech re_search headers acc tech)
  /\ (length (fst (check_header_tech re_search headers acc tech))
      <= S (length (fst acc)))%nat.
Proof.
  intros Hl Hok. unfold check_header_tech. destruct acc as [findings detected].
  destruct (truthy _); [| split; [exact Hok | cbn; lia]].
  destruct (re_search _ _) as [group|]; [| split; [exact Hok | cbn; lia]].
  case_bool_decide as Hnew; [| split; [exact Hok | cbn; lia]].
  split; [now apply detected_ok_add |].
  cbn [fst]. rewrite length_app. cbn [length]. lia.
Qed.

Lemma check_body_tech_ok (body : string)
    (acc : list Finding * gset string) (tech : BodyTechPattern) :
  is_level (b_risk tech) -> detected_ok acc ->
  detected_ok (check_body_tech re_search body acc tech)
  /\ (length (fst (check_body_tech re_search body acc tech))
      <= S (length (fst acc)))%nat.
Proof.
  intros Hl Hok. unfold check_body_tech. destruct acc as [findings detected].
  destruct (re_search _ _) as [group|]; [| split; [exact Hok | cbn; lia]].
  case_bool_decide as Hnew; [| split; [exact Hok | cbn; lia]].
  split; [now apply detected_ok_add |].
  cbn [fst]. rewrite length_app. cbn [length]. lia.
Qed.

Lemma fold_detected_ok {T : Type}
    (step : list Finding * gset string -> T -> list Finding * gset string)
    (level : T -> Prop) (table : list T) (acc : list Finding * gset string) :
  (forall acc tech, level tech -> detected_ok acc ->
     detected_ok (step acc tech)
     /\ (length (fst (step acc tech)) <= S (length (fst acc)))%nat) ->
  Forall level table -> detected_ok acc ->
  detected_ok (fold_left step table acc)
  /\ (length (fst (fold_left step table acc))
      <= length (fst acc) + length table)%nat.
Proof.
  intros Hstep Hall. revert acc.
  induction Hall as [|tech table Hl _ IH]; intros acc Hok; cbn [fold_left].
  - split; [exact Hok | cbn; lia].
  - destruct (Hstep acc tech Hl Hok) as [Hok1 Hlen1].
    destruct (IH _ Hok1) as [Hok2 Hlen2]. split; [exact Hok2 |].
    cbn [length]. lia.
Qed.

Lemma tech_patterns_levels :
  Forall (fun tech => is_level (t_risk tech)) TECH_PATTERNS
  /\ Forall (fun tech => is_level (b_risk tech)) BODY_TECH_PATTERNS.
Proof. split; apply levels_of_table; vm_compute; reflexivity. Qed.

(** The technology findings are graded, their names are distinct, and
    there are at most eleven of them. *)
Lemma check_tech_fingerprint_ok (headers : gmap string string) (body : string) :
  Forall (fun f => f_type f = "tech_detected" /\ graded f)
         (check_tech_fingerprint re_search headers body)
  /\ NoDup (map f_name (check_tech_fingerprint re_search headers body))
  /\ (length (check_tech_fingerprint re_search headers body) <= 11)%nat.
Proof.
  destruct tech_patterns_levels as [Hh Hb].
  assert (H0 : detected_ok ([], ∅)).
  { split; [constructor |]. split; [constructor |]. intros name. cbn.
    split; [intros H; now apply not_elem_of_empty in H | tauto]. }
  destruct (fold_detected_ok (check_header_tech re_search headers) _ _ _
              (check_header_tech_ok headers) Hh H0) as [H1 Hlen1].
  unfold check_tech_fingerprint. cbn [fst length] in Hlen1.
  change (length TECH_PATTERNS) with 7%nat in Hlen1.
  destruct (truthy body).
  - destruct (fold_detected_ok (check_body_tech re_search body) _ _ _
                (check_body_tech_ok body) Hb H1) as [(Ha & Hn & _) Hlen2].
    change (length BODY_TECH_PATTERNS) with 4%nat in Hlen2.
    split; [exact Ha |]. split; [exact Hn |]. lia.
  - destruct H1 as (Ha & Hn & _). split; [exact Ha |]. split; [exact Hn |].
    lia.
Qed.

End Search.

Section Expiry.
Variable strptime : string -> string -> option Z.
Variable datetime_now : Z.

Lemma check_expiry_graded (formats : list string) (expiry_str : string) :
  Forall (fun f => f_type f = "ssl_issue" /\ graded f)
         (check_expiry strptime datetime_now formats expiry_str)
  /\ (length (check_expiry strptime datetime_now formats expiry_str) <= 1)%nat.
Proof.
  induction formats as [|fmt rest IH]; cbn [check_expiry].
  - split; [constructor | cbn; lia].
  - destruct (strptime expiry_str fmt) as [expiry_date|]; [| exact IH].
    destruct (expiry_date <? datetime_now); [| split; [constructor | cbn; lia]].
    split; [| reflexivity]. repeat constructor.
    eexists. split; [reflexivity | apply level_high].
Qed.

Lemma check_ssl_issues_graded (ssl_info : SslInfo) (protocol : string) :
  Forall (fun f => f_type f = "ssl_issue" /\ graded f)
         (check_ssl_issues strptime datetime_now ssl_info protocol)
  /\ (length (check_ssl_issues strptime datetime_now ssl_info protocol) <= 2)%nat.
Proof.
  unfold check_ssl_issues. destruct (String.eqb protocol "http").
  { split; [| cbn; lia]. repeat constructor.
    eexists. split; [reflexivity | apply level_medium]. }
  assert (Hexp : forall l,
            l = match ssl_expiry ssl_info with
                | Some expiry_str =>
                    if truthy expiry_str then
                      check_expiry strptime datetime_now
                        ["%b %d %H:%M:%S %Y %Z"; "%b  %d %H:%M:%S %Y %Z"]
                        expiry_str
                    else []
                | None => []
                end ->
            Forall (fun f => f_type f = "ssl_issue" /\ graded f) l
            /\ (length l <= 1)%nat).
  { intros l ->. destruct (ssl_expiry ssl_info) as [e|];
      [| split; [constructor | cbn; lia]].
    destruct (truthy e); [apply check_expiry_graded |].
    split; [constructor | cbn; lia]. }
  destruct (Hexp _ eq_refl) as [Hall Hlen].
  destruct (truthy _ && existsb _ _); [| split; [exact Hall | lia]].
  split.
  - apply Forall_app. split; [exact Hall |]. repeat constructor.
    eexists. split; [reflexivity | apply level_medium].
  - rewrite length_app. cbn [length]. lia.
Qed.

End Expiry.

(** ** Counting graded findings *)

Lemma graded_counts (findings : list Finding) :
  Forall graded findings ->
  count_of "critical" findings + count_of "high" findings
  + count_of "medium" findings + count_of "low" findings
  + count_of "info" findings = Z.of_nat (length findings).
Proof.
  induction 1 as [|f findings (risk & Hrisk & Hlevel) _ IH]; [reflexivity |].
  cbn [count_of length]. unfold risk_of at 1 2 3 4 5. rewrite Hrisk.
  cbn [default from_option]. unfold id.
  unfold is_level, RISK_LEVELS in Hlevel. cbn [In] in Hlevel.
  destruct Hlevel as [<- | [<- | [<- | [<- | [<- | []]]]]];
    cbn [String.eqb Ascii.eqb Bool.eqb]; lia.
Qed.

End ScanFacts.

Module StackFacts.
Import Py VulnScanner Props ScanFacts.

Lemma filter_other_type (t : string) (findings : list Finding) :
  String.eqb t "tech_detected" = false ->
  Forall (fun f => f_type f = t /\ graded f) findings ->
  extract_tech_stack findings = [].
Proof.
  intros Ht Hall. unfold extract_tech_stack.
  induction Hall as [|f findings [Hf _] _ IH]; [reflexivity |].
  cbn [List.filter]. rewrite Hf, Ht. exact IH.
Qed.

Lemma filter_tech_type (findings : list Finding) :
  Forall (fun f => f_type f = "tech_detected" /\ graded f) findings ->
  extract_tech_stack findings = map f_name findings.
Proof.
  intros Hall. unfold extract_tech_stack.
  induction Hall as [|f findings [Hf _] _ IH]; [reflexivity |].
  cbn [List.filter]. rewrite Hf, String.eqb_refl. cbn [map]. now rewrite IH.
Qed.

Lemma extract_tech_stack_app (a b : list Finding) :
  extract_tech_stack (a ++ b) = extract_tech_stack a ++ extract_tech_stack b.
Proof. unfold extract_tech_stack. now rewrite List.filter_app, map_app. Qed.

Lemma Forall_graded {P : Finding -> Prop} (findings : list Finding) :
  Forall (fun f => P f /\ graded f) findings -> Forall graded findings.
Proof. intros H. eapply Forall_impl; [exact H |]. now intros f [_ Hf]. Qed.

End StackFacts.

(** X14: every finding that [run_vuln_scan] returns carries one of the
    five risk levels, so the summary leaves none of them uncounted: the
    five counts of [summarize_vulns] add up to its total. A scan returns
    at most 47 findings. *)
Theorem X14_run_vuln_scan_graded
    (re_search : string -> string -> option (option string))
    (strptime : string -> string -> option Z) (datetime_now : Z)
    (fetch : string -> VulnScanner.Fetch) (base_url : string)
    (headers : gmap string string) (body : string)
    (ssl_info : VulnScanner.SslInfo) (protocol : string) :
  let findings :=
    VulnScanner.run_vuln_scan re_search strptime datetime_now fetch base_url
                              headers body ssl_info protocol in
  let summary := VulnScanner.summarize_vulns findings in
  let count level := default 0 (VulnScanner.risk_counts summary !! level) in
  Forall Props.graded findings
  /\ count "critical" + count "high" + count "medium" + count "low"
     + count "info" = VulnScanner.total summary
  /\ VulnScanner.total summary <= 47.
Proof.
  intros findings summary count.
  destruct (ScanFacts.check_exposed_paths_graded fetch base_url) as [He Hle].
  destruct (ScanFacts.check_directory_listing_graded re_search body) as [Hd Hld].
  destruct (ScanFacts.check_tech_fingerprint_ok re_search headers body)
    as (Ht & _ & Hlt).
  destruct (ScanFacts.check_ssl_issues_graded strptime datetime_now ssl_info
              protocol) as [Hs Hls].
  pose proof (ScanFacts.check_security_headers_graded headers) as Hh.
  pose proof (ScanFacts.length_check_security_headers headers) as Hlh.
  assert (Hall : Forall Props.graded findings).
  { subst findings. unfold VulnScanner.run_vuln_scan. cbv zeta.
    rewrite !Forall_app.
    pose proof (StackFacts.Forall_graded _ Hh).
    pose proof (StackFacts.Forall_graded _ Hd).
    pose proof (StackFacts.Forall_graded _ Ht).
    pose proof (StackFacts.Forall_graded _ Hs).
    pose proof (StackFacts.Forall_graded _ He). tauto. }
  split; [exact Hall |].
  subst count summary. cbn beta.
  rewrite !VulnFacts.summarize_counts
    by (unfold Props.is_level, VulnScanner.RISK_LEVELS; cbn [In]; tauto).
  cbn [default from_option]. unfold id.
  split.
  - apply ScanFacts.graded_counts, Hall.
  - subst findings. unfold VulnScanner.summarize_vulns, VulnScanner.run_vuln_scan.
    cbv zeta. cbn [VulnScanner.total]. rewrite !length_app. lia.
Qed.

(** X15: every service on a plain-HTTP port that is checked is recorded
    with at least one finding and a risk of medium or more. For a port
    other than 443 and 8443, the vulnerability fields that
    [scan_single_ip] computes hold the finding for unencrypted HTTP,
    a count of one or more, and the risk medium, high or critical,
    whatever the response was. Without the check the fields are empty. *)
Theorem X15_http_probe_at_least_medium
    (re_search : string -> string -> option (option string))
    (strptime : string -> string -> option Z) (datetime_now : Z)
    (fetch : string -> VulnScanner.Fetch)
    (get_ssl_info : string -> Z -> VulnScanner.SslInfo)
    (ip : string) (port : Z) (headers : gmap string string) (body : string) :
  port <> 443 -> port <> 8443 ->
  (exists findings count risk,
     Scanner.scan_single_ip_vulns re_search strptime datetime_now fetch
       get_ssl_info ip port headers body true
     = (Some findings, count, risk)
     /\ In VulnScanner.http_finding findings
     /\ 1 <= count
     /\ (risk = "medium" \/ risk = "high" \/ risk = "critical"))
  /\ Scanner.scan_single_ip_vulns re_search strptime datetime_now fetch
       get_ssl_info ip port headers body false
     = (None, 0, "info").
Proof.
  intros H443 H8443. split; [| reflexivity].
  unfold Scanner.scan_single_ip_vulns, Scanner.protocol_of.
  apply Z.eqb_neq in H443, H8443. rewrite H443, H8443. cbn [orb].
  change (String.eqb "http" "https") with false. cbn iota.
  set (findings := VulnScanner.run_vuln_scan _ _ _ _ _ _ _ _ _).
  assert (Hin : In VulnScanner.http_finding findings).
  { subst findings. unfold VulnScanner.run_vuln_scan. cbv zeta.
    apply in_or_app. left. apply in_or_app. right.
    unfold VulnScanner.check_ssl_issues.
    change (String.eqb "http" "http") with true. now left. }
  clearbody findings. unfold Scanner.vuln_fields.
  destruct findings as [|f rest]; [destruct Hin |].
  eexists _, _, _. split; [reflexivity |]. split; [exact Hin |]. split.
  - unfold VulnScanner.summarize_vulns. cbn [VulnScanner.total length]. lia.
  - rewrite VulnFacts.summarize_max_risk.
    pose proof (VulnFacts.count_of_pos_in _ _ Hin) as Hpos.
    change (Props.risk_of VulnScanner.http_finding) with "medium" in Hpos.
    apply Z.ltb_lt in Hpos. rewrite Hpos.
    destruct (0 <? Props.count_of "critical" (f :: rest)); [tauto |].
    destruct (0 <? Props.count_of "high" (f :: rest)); tauto.
Qed.

(** X15 at a bare response on port 8080. *)
Lemma X15_http_probe_at_least_medium_witness :
  exists findings count,
    Scanner.scan_single_ip_vulns (fun _ _ => None) (fun _ _ => None) 0
      (fun _ => VulnScanner.FetchRaised)
      (fun _ _ => {| VulnScanner.ssl_issuer := None;
                     VulnScanner.ssl_expiry := None;
                     VulnScanner.ssl_domain := None |})
      "1.1.1.1" 8080 ∅ "" true
    = (Some findings, count, "medium").
Proof.
  destruct (X15_http_probe_at_least_medium
              (fun _ _ => None) (fun _ _ => None) 0
              (fun _ => VulnScanner.FetchRaised)
              (fun _ _ => {| VulnScanner.ssl_issuer := None;
                             VulnScanner.ssl_expiry := None;
                             VulnScanner.ssl_domain := None |})
              "1.1.1.1" 8080 ∅ "")
    as [(findings & count & risk & Hrun & _) _]; [lia | lia |].
  exists findings, count. rewrite Hrun. f_equal.
  vm_compute in Hrun. now injection Hrun as _ _ <-.
Defined.

(** X16: the technology stack of a scan. [extract_tech_stack] applied to
    the findings of [run_vuln_scan] gives the names of the technology
    findings and nothing from the other four checks; the names are
    pairwise distinct, and there are at most eleven. *)
Theorem X16_extract_tech_stack_of_scan
    (re_search : string -> string -> option (option string))
    (strptime : string -> string -> option Z) (datetime_now : Z)
    (fetch : string -> VulnScanner.Fetch) (base_url : string)
    (headers : gmap string string) (body : string)
    (ssl_info : VulnScanner.SslInfo) (protocol : string) :
  let techs :=
    VulnScanner.extract_tech_stack
      (VulnScanner.run_vuln_scan re_search strptime datetime_now fetch base_url
                                 headers body ssl_info protocol) in
  techs = map VulnScanner.f_name
              (VulnScanner.check_tech_fingerprint re_search headers body)
  /\ NoDup techs
  /\ (length techs <= 11)%nat.
Proof.
  intros techs.
  destruct (ScanFacts.check_exposed_paths_graded fetch base_url) as [He _].
  destruct (ScanFacts.check_directory_listing_graded re_search body) as [Hd _].
  destruct (ScanFacts.check_tech_fingerprint_ok re_search headers body)
    as (Ht & Hnd & Hlt).
  destruct (ScanFacts.check_ssl_issues_graded strptime datetime_now ssl_info
              protocol) as [Hs _].
  pose proof (ScanFacts.check_security_headers_graded headers) as Hh.
  assert (Heq : techs = map VulnScanner.f_name
                  (VulnScanner.check_tech_fingerprint re_search headers body)).
  { subst techs. unfold VulnScanner.run_vuln_scan. cbv zeta.
    rewrite !StackFacts.extract_tech_stack_app.
    rewrite (StackFacts.filter_other_type "missing_header" _ eq_refl Hh).
    rewrite (StackFacts.filter_other_type "directory_listing" _ eq_refl Hd).
    rewrite (StackFacts.filter_other_type "ssl_issue" _ eq_refl Hs).
    rewrite (StackFacts.filter_other_type "exposed_path" _ eq_refl He).
    rewrite (StackFacts.filter_tech_type _ Ht).
    cbn [app]. now rewrite !app_nil_r. }
  split; [exact Heq |]. rewrite Heq. split; [exact Hnd |].
  now rewrite length_map.
Qed.

(* ===================================================================== *)
(** * scanner.py: the subscribers of a notification *)
(* ===================================================================== *)

Module NotifyFacts.
Import Scanner Props.

Lemma list_remove_app (pre rest : list nat) (ws : nat) :
  ws ∉ pre -> list_remove ws (pre ++ ws :: rest) = Some (pre ++ rest).
Proof.
  induction pre as [|c pre IH]; intros Hnot; cbn [app list_remove].
  - now rewrite Nat.eqb_refl.
  - apply not_elem_of_cons in Hnot as [Hne Hnot].
    destruct (Nat.eqb_spec c ws) as [-> | _]; [congruence |].
    now rewrite (IH Hnot).
Qed.

Lemma remove_all_spec (send_raises : nat -> nat -> bool) (i : nat)
    (pre l : list nat) :
  NoDup (pre ++ l) ->
  remove_all (disconnected_from send_raises i l) (pre ++ l)
  = Some (pre ++ delivered send_raises i l).
Proof.
  revert i pre. induction l as [|ws rest IH]; intros i pre Hnd;
    cbn [disconnected_from delivered]; [reflexivity |].
  destruct (send_raises i ws).
  - cbn [remove_all]. rewrite list_remove_app.
    + apply IH. apply NoDup_app in Hnd as (Hpre & Hdis & Hrest).
      apply NoDup_cons in Hrest as [_ Hrest]. apply NoDup_app.
      split; [exact Hpre |]. split; [| exact Hrest].
      intros x Hx Hx'. apply (Hdis x Hx). now right.
    + apply NoDup_app in Hnd as (_ & Hdis & _). intros Hin.
      apply (Hdis ws Hin). now left.
  - replace (pre ++ ws :: rest) with ((pre ++ [ws]) ++ rest)
      by now rewrite <- app_assoc.
    rewrite IH by now rewrite <- app_assoc.
    now rewrite <- app_assoc.
Qed.

End NotifyFacts.

(** X17: what a notification does to the list of subscribers. When the
    connections of the list are distinct and no other task changes the
    list during the call, [notify_ws] returns without an exception, and it
    leaves in the list exactly the connections whose send did not raise,
    in their order. *)
Theorem X17_notify_ws_prunes_failed_connections
    (send_raises : nat -> nat -> bool) (ws_connections : list nat) :
  NoDup ws_connections ->
  Scanner.notify_ws_connections send_raises ws_connections
  = Some (Props.delivered send_raises 0 ws_connections).
Proof.
  intros Hnd. unfold Scanner.notify_ws_connections.
  destruct ws_connections as [|ws rest]; [reflexivity |].
  apply (NotifyFacts.remove_all_spec send_raises 0 []). exact Hnd.
Qed.

(** X17 at four subscribers of which the second and the fourth are gone. *)
Lemma X17_notify_ws_prunes_failed_connections_witness :
  Scanner.notify_ws_connections (fun i _ => Nat.odd i) [7; 3; 9; 4]%nat
  = Some [7; 9]%nat.
Proof.
  apply (X17_notify_ws_prunes_failed_connections
           (fun i _ => Nat.odd i) [7; 3; 9; 4]%nat).
  apply (bool_decide_unpack _). vm_compute. exact I.
Defined.

(* ===================================================================== *)
(** * scanner.py: the edges of target parsing *)
(* ===================================================================== *)

Module BlankFacts.
Import Py PyFacts Scanner Props TextFacts.

Lemma lstrip_keeps (p : ascii -> bool) (s : string) :
  forall_chars p s = true -> forall_chars p (lstrip s) = true.
Proof.
  remember (String.length s) as n eqn:Hn. revert s Hn.
  induction n as [n IH] using lt_wf_ind. intros s Hn H.
  destruct s as [|a s1]; [reflexivity |]. cbn [lstrip].
  cbn [forall_chars String.length] in H, Hn.
  apply andb_true_iff in H as [Ha H1].
  destruct (is_space a).
  { apply (IH (String.length s1)); [lia | reflexivity | exact H1]. }
  destruct s1 as [|b s2]; [cbn [forall_chars]; now rewrite Ha |].
  cbn [forall_chars String.length] in H1, Hn.
  apply andb_true_iff in H1 as [Hb H2].
  destruct (is_space2 a b).
  { apply (IH (String.length s2)); [lia | reflexivity | exact H2]. }
  destruct s2 as [|c s3]; [cbn [forall_chars]; now rewrite Ha, Hb |].
  cbn [forall_chars String.length] in H2, Hn.
  apply andb_true_iff in H2 as [Hc H3].
  destruct (is_space3 a b c).
  { apply (IH (String.length s3)); [lia | reflexivity | exact H3]. }
  cbn [forall_chars]. now rewrite Ha, Hb, Hc, H3.
Qed.

Lemma rstrip_keeps (p : ascii -> bool) (s : string) :
  forall_chars p s = true -> forall_chars p (rstrip s) = true.
Proof.
  induction s as [|c s IH]; [reflexivity |]. cbn [forall_chars rstrip].
  cbv zeta. intros H. apply andb_true_iff in H as [Hc Hs]. specialize (IH Hs).
  destruct (is_space_code (String c (rstrip s))); [reflexivity |].
  cbn [forall_chars]. now rewrite Hc.
Qed.

(** ** Whitespace characters of two and three bytes *)

(** The first byte of a longer whitespace character is no whitespace and
    no separator, and its other bytes start no whitespace character and
    are no separator. *)
Lemma tail_not_code (b : ascii) (t : string) :
  (128 <= nat_of_ascii b < 192)%nat -> is_space_code (String b t) = false.
Proof.
  intros Hb.
  assert (Hsp : is_space b = false).
  { unfold is_space. cbv zeta.
    destruct (Nat.eqb_spec (nat_of_ascii b) 32); [lia |].
    destruct (Nat.leb_spec (nat_of_ascii b) 13); [lia |].
    destruct (Nat.leb_spec (nat_of_ascii b) 31); [lia |].
    now rewrite !andb_false_r. }
  destruct t as [|c [|d [|e t]]]; cbn [is_space_code]; [exact Hsp | | | reflexivity].
  - unfold is_space2. cbv zeta.
    destruct (Nat.eqb_spec (nat_of_ascii b) 194); [lia | reflexivity].
  - unfold is_space3. cbv zeta.
    destruct (Nat.eqb_spec (nat_of_ascii b) 225); [lia |].
    destruct (Nat.eqb_spec (nat_of_ascii b) 226); [lia |].
    destruct (Nat.eqb_spec (nat_of_ascii b) 227); [lia |].
    reflexivity.
Qed.

Lemma high_byte (a : ascii) :
  (128 <= nat_of_ascii a)%nat -> is_space a = false /\ is_separator a = false.
Proof.
  intros Ha. split.
  - unfold is_space. cbv zeta.
    destruct (Nat.eqb_spec (nat_of_ascii a) 32); [lia |].
    destruct (Nat.leb_spec (nat_of_ascii a) 13); [lia |].
    destruct (Nat.leb_spec (nat_of_ascii a) 31); [lia |].
    now rewrite !andb_false_r.
  - unfold is_separator. apply orb_false_iff.
    split; apply Ascii.eqb_neq; intros ->.
    + change (nat_of_ascii ","%char) with 44%nat in Ha. lia.
    + change (nat_of_ascii "010"%char) with 10%nat in Ha. lia.
Qed.

Lemma space2_bytes (a b : ascii) :
  is_space2 a b = true ->
  nat_of_ascii a = 194%nat /\ (128 <= nat_of_ascii b < 192)%nat.
Proof.
  unfold is_space2. cbv zeta. intros H.
  apply andb_true_iff in H as [Ha Hb]. apply Nat.eqb_eq in Ha.
  apply orb_true_iff in Hb as [Hb | Hb]; apply Nat.eqb_eq in Hb; lia.
Qed.

Lemma space3_bytes (a b c : ascii) :
  is_space3 a b c = true ->
  (225 <= nat_of_ascii a <= 227)%nat
  /\ (128 <= nat_of_ascii b < 192)%nat /\ (128 <= nat_of_ascii c < 192)%nat.
Proof.
  unfold is_space3. cbv zeta. intros H.
  repeat match type of H with
         | _ || _ = true => apply orb_true_iff in H as [H | H]
         | _ && _ = true =>
             let H1 := fresh "H" in apply andb_true_iff in H as [H H1]
         end;
    repeat match goal with
           | H' : (_ =? _)%nat = true |- _ => apply Nat.eqb_eq in H'
           | H' : (_ <=? _)%nat = true |- _ => apply Nat.leb_le in H'
           | H' : _ && _ = true |- _ =>
               let H1 := fresh "H" in apply andb_true_iff in H' as [H' H1]
           | H' : _ || _ = true |- _ => apply orb_true_iff in H' as [H' | H']
           end; lia.
Qed.

(** ** Blank texts *)

(** A blank text is built from whitespace characters of one, two and three
    bytes and from separators. *)
Lemma blank_cases (P : string -> Prop) :
  P EmptyString ->
  (forall a s, is_space a || is_separator a = true ->
               blank s = true -> P s -> P (String a s)) ->
  (forall a b s, is_space2 a b = true ->
                 blank s = true -> P s -> P (String a (String b s))) ->
  (forall a b c s, is_space3 a b c = true ->
                   blank s = true -> P s ->
                   P (String a (String b (String c s)))) ->
  forall s, blank s = true -> P s.
Proof.
  intros H0 H1 H2 H3 s. remember (String.length s) as n eqn:Hn. revert s Hn.
  induction n as [n IH] using lt_wf_ind. intros s Hn H.
  destruct s as [|a s1]; [exact H0 |]. cbn [blank String.length] in H, Hn.
  destruct (is_space a || is_separator a) eqn:Ha.
  { apply H1; [exact Ha | exact H |].
    apply (IH (String.length s1)); [lia | reflexivity | exact H]. }
  destruct s1 as [|b s2]; [discriminate |]. cbn [String.length] in Hn.
  destruct (is_space2 a b) eqn:Hab.
  { apply H2; [exact Hab | exact H |].
    apply (IH (String.length s2)); [lia | reflexivity | exact H]. }
  destruct s2 as [|c s3]; [discriminate |]. cbn [String.length] in Hn.
  apply andb_true_iff in H as [Habc H].
  apply H3; [exact Habc | exact H |].
  apply (IH (String.length s3)); [lia | reflexivity | exact H].
Qed.

(** A text of one-byte whitespace and separators is blank. *)
Lemma one_byte_blank (s : string) :
  forall_chars (fun c => is_space c || is_separator c) s = true ->
  blank s = true.
Proof.
  induction s as [|c s IH]; [reflexivity |]. cbn [forall_chars blank].
  intros H. apply andb_true_iff in H as [Hc Hs]. rewrite Hc. now apply IH.
Qed.

Lemma lstrip_space (a : ascii) (s : string) :
  is_space a = true -> lstrip (String a s) = lstrip s.
Proof. intros H. cbn [lstrip]. now rewrite H. Qed.

Lemma lstrip_space2 (a b : ascii) (s : string) :
  is_space2 a b = true -> lstrip (String a (String b s)) = lstrip s.
Proof.
  intros H. pose proof (space2_bytes a b H) as [Ha _].
  destruct (high_byte a) as [Hsp _]; [lia |].
  cbn [lstrip]. now rewrite Hsp, H.
Qed.

Lemma lstrip_space3 (a b c : ascii) (s : string) :
  is_space3 a b c = true ->
  lstrip (String a (String b (String c s))) = lstrip s.
Proof.
  intros H. pose proof (space3_bytes a b c H) as (Ha & _ & _).
  destruct (high_byte a) as [Hsp _]; [lia |].
  assert (H2 : is_space2 a b = false).
  { unfold is_space2. cbv zeta.
    destruct (Nat.eqb_spec (nat_of_ascii a) 194); [lia | reflexivity]. }
  cbn [lstrip]. now rewrite Hsp, H2, H.
Qed.

(** Whitespace that [lstrip] removes entirely is removed in front of any
    text. *)
Lemma lstrip_app_spaces (x y : string) :
  lstrip x = EmptyString -> lstrip (x +:+ y) = lstrip y.
Proof.
  remember (String.length x) as n eqn:Hn. revert x Hn.
  induction n as [n IH] using lt_wf_ind. intros x Hn H.
  destruct x as [|a s1]; [reflexivity |]. cbn [String.length] in Hn.
  destruct (is_space a) eqn:Ha.
  { rewrite append_cons, lstrip_space by exact Ha.
    rewrite lstrip_space in H by exact Ha.
    apply (IH (String.length s1)); [lia | reflexivity | exact H]. }
  destruct s1 as [|b s2]; [cbn [lstrip] in H; rewrite Ha in H; discriminate |].
  cbn [String.length] in Hn.
  destruct (is_space2 a b) eqn:Hab.
  { rewrite !append_cons, lstrip_space2 by exact Hab.
    rewrite lstrip_space2 in H by exact Hab.
    apply (IH (String.length s2)); [lia | reflexivity | exact H]. }
  destruct s2 as [|c s3];
    [cbn [lstrip] in H; rewrite Ha, Hab in H; discriminate |].
  cbn [String.length] in Hn.
  destruct (is_space3 a b c) eqn:Habc.
  { rewrite !append_cons, lstrip_space3 by exact Habc.
    rewrite lstrip_space3 in H by exact Habc.
    apply (IH (String.length s3)); [lia | reflexivity | exact H]. }
  cbn [lstrip] in H. rewrite Ha, Hab, Habc in H. discriminate.
Qed.

(** [strip] leaves a blank text blank. *)
Lemma lstrip_blank (s : string) : blank s = true -> blank (lstrip s) = true.
Proof.
  apply (blank_cases (fun s => blank (lstrip s) = true)); [reflexivity | | |].
  - intros a t Ha Ht IH. destruct (is_space a) eqn:Hsp.
    + now rewrite lstrip_space.
    + rewrite lstrip_cons_plain.
      * cbn [blank]. now rewrite Hsp, Ha.
      * cbn [orb] in Ha. unfold is_separator in Ha.
        apply orb_true_iff in Ha as [Ha | Ha]; apply Ascii.eqb_eq in Ha;
          subst a; [reflexivity | discriminate Hsp].
  - intros a b t Hab Ht IH. now rewrite lstrip_space2.
  - intros a b c t Habc Ht IH. now rewrite lstrip_space3.
Qed.

Lemma rstrip_blank (s : string) : blank s = true -> blank (rstrip s) = true.
Proof.
  apply (blank_cases (fun s => blank (rstrip s) = true)); [reflexivity | | |].
  - intros a t Ha Ht IH. cbn [rstrip]. cbv zeta.
    destruct (is_space_code (String a (rstrip t))); [reflexivity |].
    cbn [blank]. now rewrite Ha.
  - intros a b t Hab Ht IH. pose proof (space2_bytes a b Hab) as [Ha Hb].
    destruct (high_byte a) as [Hsp Hsep]; [lia |].
    cbn [rstrip]. cbv zeta. rewrite (tail_not_code b _ Hb).
    destruct (is_space_code (String a (String b (rstrip t)))); [reflexivity |].
    cbn [blank]. now rewrite Hsp, Hsep, Hab.
  - intros a b c t Habc Ht IH.
    pose proof (space3_bytes a b c Habc) as (Ha & Hb & Hc).
    destruct (high_byte a) as [Hsp Hsep]; [lia |].
    assert (H2 : is_space2 a b = false).
    { unfold is_space2. cbv zeta.
      destruct (Nat.eqb_spec (nat_of_ascii a) 194); [lia | reflexivity]. }
    cbn [rstrip]. cbv zeta. rewrite (tail_not_code c _ Hc).
    rewrite (tail_not_code b _ Hb).
    destruct (is_space_code (String a (String b (String c (rstrip t)))));
      [reflexivity |].
    cbn [blank]. now rewrite Hsp, Hsep, H2, Habc, IH.
Qed.

(** A blank text splits into fields of whitespace. *)
Lemma re_split_go_blank (s : string) :
  blank s = true ->
  forall cur in_run,
    lstrip cur = EmptyString ->
    Forall (fun field => lstrip field = EmptyString)
           (re_split_go is_separator s cur in_run).
Proof.
  apply (blank_cases
           (fun s => forall cur in_run, lstrip cur = EmptyString ->
              Forall (fun field => lstrip field = EmptyString)
                     (re_split_go is_separator s cur in_run))).
  - intros cur in_run Hcur. now constructor.
  - intros a t Ha Ht IH cur in_run Hcur. cbn [re_split_go].
    destruct (is_separator a) eqn:Hsep.
    + destruct in_run; [now apply IH |]. constructor; [exact Hcur |].
      now apply IH.
    + apply IH. rewrite lstrip_app_spaces by exact Hcur.
      rewrite orb_false_r in Ha. now rewrite lstrip_space.
  - intros a b t Hab Ht IH cur in_run Hcur.
    pose proof (space2_bytes a b Hab) as [Ha Hb].
    destruct (high_byte a) as [_ Hsa]; [lia |].
    destruct (high_byte b) as [_ Hsb]; [lia |].
    cbn [re_split_go]. rewrite Hsa, Hsb. apply IH.
    rewrite append_assoc, lstrip_app_spaces by exact Hcur.
    rewrite append_cons, append_nil. now rewrite lstrip_space2.
  - intros a b c t Habc Ht IH cur in_run Hcur.
    pose proof (space3_bytes a b c Habc) as (Ha & Hb & Hc).
    destruct (high_byte a) as [_ Hsa]; [lia |].
    destruct (high_byte b) as [_ Hsb]; [lia |].
    destruct (high_byte c) as [_ Hsc]; [lia |].
    cbn [re_split_go]. rewrite Hsa, Hsb, Hsc. apply IH.
    rewrite !append_assoc, lstrip_app_spaces by exact Hcur.
    repeat rewrite ?append_cons, ?append_nil. now rewrite lstrip_space3.
Qed.

Lemma parse_parts_blank (gethostbyname : string -> Lookup)
    (urlparse_hostname : string -> option (option string))
    (parts : list string) (acc : list string * gmap string (option string)) :
  Forall (fun field => lstrip field = EmptyString) parts ->
  parse_parts gethostbyname urlparse_hostname parts acc = Some acc.
Proof.
  induction 1 as [|part parts Hpart _ IH]; [reflexivity |].
  cbn [parse_parts]. unfold parse_part. destruct acc as [ips cache].
  unfold strip. rewrite Hpart. cbn [rstrip truthy negb]. exact IH.
Qed.

(** A blank input yields no address. *)
Lemma parse_target_ips_blank (gethostbyname : string -> Lookup)
    (urlparse_hostname : string -> option (option string)) (input : string) :
  blank input = true ->
  parse_target_ips gethostbyname urlparse_hostname input = Some [].
Proof.
  intros H. unfold parse_target_ips, re_split.
  rewrite parse_parts_blank; [reflexivity |].
  apply re_split_go_blank; [| reflexivity].
  unfold strip. now apply rstrip_blank, lstrip_blank.
Qed.

End BlankFacts.

(** X18: the sampler writes what the parser reads. A list of addresses
    that [generate_random_ips] returned, joined by commas, is parsed by
    [parse_target_ips] into the same list, without any name resolution. *)
Theorem X18_sampled_addresses_parse_back
    (gethostbyname : string -> Scanner.Lookup)
    (urlparse_hostname : string -> option (option string))
    (count fuel : nat) (entropy : nat -> Z) (k k' : nat) (ips : list string) :
  IpGenerator.generate_random_ips count fuel entropy k = Some (ips, k') ->
  Scanner.parse_target_ips gethostbyname urlparse_hostname (Py.join "," ips)
  = Some ips.
Proof.
  intros H. apply SamplerFacts.generate_random_ips_spec in H as (_ & _ & Hall).
  apply TextFacts.parse_target_ips_literals.
  eapply Forall_impl; [exact Hall |]. intros s (n & -> & Hn & _).
  exists n. apply IpFacts.IPv4Address_string_from_ip_int.
  unfold Props.is_address. change (2 ^ 32) with 4294967296. lia.
Qed.

(** X18 at three addresses drawn from a concrete stream. *)
Lemma X18_sampled_addresses_parse_back_witness :
  exists ips k',
    IpGenerator.generate_random_ips 3 5 (fun n => Z.of_nat n * 1000000007) 0
    = Some (ips, k')
    /\ Scanner.parse_target_ips Props.no_dns Props.no_host (Py.join "," ips)
       = Some ips.
Proof.
  destruct (IpGenerator.generate_random_ips 3 5
              (fun n => Z.of_nat n * 1000000007) 0) as [[ips k']|] eqn:H;
    [| vm_compute in H; discriminate].
  exists ips, k'. split; [reflexivity |].
  apply (X18_sampled_addresses_parse_back Props.no_dns Props.no_host
           3 5 _ 0 k' ips H).
Defined.

Module HostFacts.
Import Py PyFacts IpAddress Scanner Props TextFacts.

Lemma host_char_cases (c : ascii) :
  host_char c = true ->
  plain_char c = true /\ Ascii.eqb ":"%char c = false
  /\ Ascii.eqb "/"%char c = false.
Proof.
  destruct c as [[] [] [] [] [] [] [] []]; vm_compute; intros H;
    first [discriminate H | repeat split; reflexivity].
Qed.

Lemma label_char_host (c : ascii) :
  is_alnum c || Ascii.eqb c "-"%char = true -> host_char c = true.
Proof. unfold host_char. now intros ->. Qed.

(** A text whose characters all differ from [c] does not hold [c]. *)
Lemma contains_char_none (q : ascii -> bool) (c : ascii) (s : string) :
  (forall d, q d = true -> Ascii.eqb c d = false) ->
  forall_chars q s = true -> contains_char c s = false.
Proof.
  intros Hq. induction s as [|d s IH]; [reflexivity |].
  cbn [forall_chars contains_char]. intros H.
  apply andb_true_iff in H as [Hd Hs]. now rewrite (Hq d Hd), IH.
Qed.

Lemma join_labels (labels : list string) :
  forallb label_ok labels = true ->
  forall_chars host_char (join "." labels) = true.
Proof.
  induction labels as [|label rest IH]; [reflexivity |].
  cbn [forallb]. intros H. apply andb_true_iff in H as [Hl Hrest].
  assert (Hlabel : forall_chars host_char label = true).
  { unfold label_ok in Hl. destruct label as [|c label]; [discriminate |].
    apply andb_true_iff in Hl as [Hl _]. apply andb_true_iff in Hl as [_ Hl].
    revert Hl. apply forall_chars_impl, label_char_host. }
  destruct rest as [|label2 rest]; [exact Hlabel |].
  change (join "." (label :: label2 :: rest))
    with (label +:+ String "."%char EmptyString +:+ join "." (label2 :: rest)).
  rewrite !forall_chars_app, Hlabel, (IH Hrest). reflexivity.
Qed.

(** A text of the form of a host name holds letters, digits, hyphens and
    dots, and at least a dot. *)
Lemma looks_like_domain_chars (hostname : string) :
  looks_like_domain hostname = true ->
  truthy hostname = true /\ forall_chars host_char hostname = true.
Proof.
  unfold looks_like_domain. cbv zeta. intros H.
  apply andb_true_iff in H as [Hlen Hall]. apply Nat.leb_le in Hlen.
  pose proof (join_split "."%char hostname) as Hjoin.
  apply join_labels in Hall. rewrite Hjoin in Hall. split; [| exact Hall].
  destruct hostname; [| reflexivity]. cbn in Hlen. lia.
Qed.

(** A text that holds the separator is a first field, the separator and
    the rest. *)
Lemma first_field (sep : ascii) (s : string) :
  contains_char sep s = true ->
  exists a rest, s = a +:+ String sep rest /\ contains_char sep a = false.
Proof.
  induction s as [|c s IH]; [discriminate |]. cbn [contains_char]. intros H.
  destruct (Ascii.eqb sep c) eqn:Hc.
  - apply Ascii.eqb_eq in Hc as <-. exists EmptyString, s. split; reflexivity.
  - destruct (IH H) as (a & rest & -> & Ha). exists (String c a), rest.
    split; [reflexivity |]. cbn [contains_char]. now rewrite Hc, Ha.
Qed.

Lemma first_field_unique (sep : ascii) (a b x y : string) :
  a +:+ String sep x = b +:+ String sep y ->
  contains_char sep a = false -> contains_char sep b = false -> a = b.
Proof.
  revert b. induction a as [|c a IH]; intros [|d b] H Ha Hb.
  - reflexivity.
  - rewrite append_nil, append_cons in H. injection H as <- _.
    cbn [contains_char] in Hb. now rewrite Ascii.eqb_refl in Hb.
  - rewrite append_nil, append_cons in H. injection H as -> _.
    cbn [contains_char] in Ha. now rewrite Ascii.eqb_refl in Ha.
  - rewrite !append_cons in H. injection H as <- H.
    cbn [contains_char] in Ha, Hb.
    apply orb_false_iff in Ha as [_ Ha]. apply orb_false_iff in Hb as [_ Hb].
    f_equal. now apply IH.
Qed.

Lemma host_of_first_field (h rest : string) :
  contains_char ":"%char h = false ->
  host_of (h +:+ String ":"%char rest) = h.
Proof.
  intros Hh. unfold host_of, split.
  rewrite contains_char_app. cbn [contains_char]. rewrite Ascii.eqb_refl.
  rewrite orb_true_r, split_go_app by exact Hh. reflexivity.
Qed.

(** A stretch without the separator is read into the current field, and
    the first field starts with what was read. *)
Lemma split_go_field (sep : ascii) (p s cur : string) :
  contains_char sep p = false ->
  split_go sep (p +:+ s) cur = split_go sep s (cur +:+ p).
Proof.
  revert cur. induction p as [|c p IH]; intros cur H.
  - now rewrite append_nil, append_empty_r.
  - rewrite append_cons. cbn [contains_char split_go] in *.
    apply orb_false_iff in H as [Hc Hp]. rewrite Ascii.eqb_sym in Hc.
    rewrite Hc, IH by exact Hp. now rewrite append_assoc.
Qed.

Lemma hd_split_go (sep : ascii) (s cur : string) :
  exists y, hd EmptyString (split_go sep s cur) = cur +:+ y.
Proof.
  revert cur. induction s as [|c s IH]; intros cur; cbn [split_go].
  - exists EmptyString. cbn [hd]. now rewrite append_empty_r.
  - destruct (Ascii.eqb c sep).
    + exists EmptyString. cbn [hd]. now rewrite append_empty_r.
    + destruct (IH (cur +:+ String c EmptyString)) as [y ->].
      exists (String c y). now rewrite append_assoc.
Qed.

(** A dotted quad holds no colon. *)
Lemma colon_not_address (t : string) :
  contains_char ":"%char t = true -> IPv4Address t = None.
Proof.
  intros Hc. destruct (IPv4Address t) as [n|] eqn:H; [| reflexivity].
  apply IPv4Address_text in H as (_ & _ & _ & Hd).
  assert (Hno : contains_char ":"%char t = false); [| congruence].
  apply (contains_char_none dotted_char); [| exact Hd].
  intros d Hdot.
  destruct d as [[] [] [] [] [] [] [] []]; try reflexivity.
  vm_compute in Hdot. discriminate.
Qed.

(** A text with a colon before its first slash is no network. *)
Lemma colon_not_network (p s : string) (strict : bool) :
  contains_char ":"%char p = true -> contains_char "/"%char p = false ->
  make_IPv4Network (p +:+ s) strict = None.
Proof.
  intros Hc Hs. unfold make_IPv4Network, split. cbv zeta.
  rewrite split_go_field by exact Hs.
  destruct (hd_split_go "/"%char s (EmptyString +:+ p)) as [y Hy].
  destruct (split_go "/"%char s (EmptyString +:+ p)) as [|a rest];
    [now destruct (2 <? _)%nat |].
  cbn [hd] in Hy. subst a. rewrite append_nil.
  rewrite colon_not_address; [now destruct (2 <? _)%nat |].
  now rewrite contains_char_app, Hc.
Qed.

Section Host.
Variables (h rest : string).
Hypothesis Hdom : looks_like_domain h = true.

Let Hchars := proj2 (looks_like_domain_chars h Hdom).

Lemma host_plain : forall_chars plain_char h = true.
Proof.
  apply (forall_chars_impl host_char); [| exact Hchars]. intros c H.
  now apply host_char_cases in H.
Qed.

Lemma host_no_colon : contains_char ":"%char h = false.
Proof.
  apply (contains_char_none host_char); [| exact Hchars].
  intros d H. now apply host_char_cases in H.
Qed.

Lemma host_no_slash : contains_char "/"%char h = false.
Proof.
  apply (contains_char_none host_char); [| exact Hchars].
  intros d H. now apply host_char_cases in H.
Qed.

Lemma host_port_plain :
  forall_chars plain_char (h +:+ String ":"%char EmptyString) = true.
Proof. rewrite forall_chars_app, host_plain. reflexivity. Qed.

(** What [strip] makes of a host name followed by a colon and more. *)
Lemma strip_host_port :
  strip (h +:+ String ":"%char rest) = h +:+ String ":"%char (rstrip rest).
Proof.
  unfold strip.
  assert (Hl : lstrip (h +:+ String ":"%char rest) = h +:+ String ":"%char rest).
  { pose proof host_plain as Hp. destruct h as [|c h']; [discriminate Hdom |].
    cbn [forall_chars] in Hp. apply andb_true_iff in Hp as [Hc _].
    rewrite append_cons. now apply lstrip_cons_plain. }
  rewrite Hl.
  change (String ":"%char rest) with (String ":"%char EmptyString +:+ rest).
  rewrite <- append_assoc, rstrip_app_plain by exact host_port_plain.
  now rewrite append_assoc.
Qed.

Lemma host_port_not_url :
  startswith (h +:+ String ":"%char rest) "http://"
  || startswith (h +:+ String ":"%char rest) "https://" = false.
Proof.
  apply orb_false_iff. split.
  - destruct (startswith _ "http://") eqn:Hp; [| reflexivity].
    apply startswith_app in Hp as [z Hp].
    change ("http://" +:+ z) with ("http" +:+ String ":"%char ("//" +:+ z)) in Hp.
    apply first_field_unique in Hp; [| exact host_no_colon | reflexivity].
    subst h. vm_compute in Hdom. discriminate.
  - destruct (startswith _ "https://") eqn:Hp; [| reflexivity].
    apply startswith_app in Hp as [z Hp].
    change ("https://" +:+ z) with ("https" +:+ String ":"%char ("//" +:+ z)) in Hp.
    apply first_field_unique in Hp; [| exact host_no_colon | reflexivity].
    subst h. vm_compute in Hdom. discriminate.
Qed.

Lemma host_port_falls_through :
  cidr_case (h +:+ String ":"%char rest) = CidrFallThrough
  /\ IPv4Address (h +:+ String ":"%char rest) = None.
Proof.
  split.
  - unfold cidr_case.
    change (String ":"%char rest) with (String ":"%char EmptyString +:+ rest).
    rewrite <- append_assoc, colon_not_network.
    + now destruct (contains_char "/"%char _).
    + rewrite contains_char_app. cbn. now rewrite orb_true_r.
    + rewrite contains_char_app, host_no_slash. reflexivity.
  - apply colon_not_address. rewrite contains_char_app. cbn.
    now rewrite orb_true_r.
Qed.

End Host.

(** A token that names a host: what [strip] leaves of it is read like the
    token itself. *)
Lemma host_name_token (token : string) :
  forall_chars token_char token = true ->
  startswith token "http://" || startswith token "https://" = false ->
  cidr_case token = CidrFallThrough ->
  IPv4Address token = None ->
  looks_like_domain (host_of token) = true ->
  let part := strip token in
  strip part = part /\ truthy part = true
  /\ forall_chars (fun c => negb (is_separator c)) part = true
  /\ startswith part "http://" || startswith part "https://" = false
  /\ cidr_case part = CidrFallThrough
  /\ IPv4Address part = None
  /\ host_of part = host_of token.
Proof.
  intros Hclean Hurl Hcidr Hip Hdom. cbv zeta.
  assert (Hsep : forall_chars (fun c => negb (is_separator c)) (strip token)
                 = true).
  { unfold strip. now apply BlankFacts.rstrip_keeps, BlankFacts.lstrip_keeps,
      token_no_separator. }
  destruct (contains_char ":"%char token) eqn:Hc.
  - destruct (first_field ":"%char token Hc) as (h & rest & -> & Hh).
    rewrite (host_of_first_field h rest Hh) in Hdom |- *.
    rewrite (strip_host_port h rest Hdom) in Hsep |- *.
    split; [| split; [| split; [exact Hsep | split; [| split; [| split]]]]].
    + now rewrite (strip_host_port h (rstrip rest) Hdom), rstrip_idem.
    + destruct h; [discriminate Hdom | reflexivity].
    + now apply host_port_not_url.
    + now apply host_port_falls_through.
    + now apply host_port_falls_through.
    + now apply host_of_first_field.
  - assert (Hhost : host_of token = token) by (unfold host_of; now rewrite Hc).
    rewrite Hhost in Hdom |- *.
    rewrite (strip_clean token (host_plain token Hdom)) in Hsep |- *.
    rewrite (strip_clean token (host_plain token Hdom)).
    repeat split; try assumption.
    destruct token; [discriminate Hdom | reflexivity].
Qed.

End HostFacts.

(** X19: a resolver error other than [socket.gaierror] is swallowed for a
    URL and fatal for a bare host name. When the lookup of a host raises
    such an error, a URL token with that host is skipped and leaves the
    addresses and the cache as they were; an input that is one host name
    token makes [parse_target_ips] raise, and [start_target_scan] then
    ends in a server error with the scan state untouched and no worker. *)
Theorem X19_resolver_error_url_or_host
    (gethostbyname : string -> Scanner.Lookup)
    (urlparse_hostname : string -> option (option string)) :
  (forall part hostname ips cache,
     Py.startswith (Py.strip part) "http://"
     || Py.startswith (Py.strip part) "https://" = true ->
     urlparse_hostname (Py.strip part) = Some (Some hostname) ->
     cache !! hostname = None ->
     gethostbyname hostname = Scanner.OtherError ->
     Scanner.parse_part gethostbyname urlparse_hostname (ips, cache) part
     = Some (ips, cache))
  /\ (forall token now request s,
        Py.forall_chars Props.token_char token = true ->
        Py.startswith token "http://" || Py.startswith token "https://" = false ->
        Scanner.cidr_case token = Scanner.CidrFallThrough ->
        IpAddress.IPv4Address token = None ->
        Scanner.looks_like_domain (Scanner.host_of token) = true ->
        gethostbyname (Scanner.host_of token) = Scanner.OtherError ->
        App.targets request = token ->
        Scanner.running s = false ->
        Scanner.parse_target_ips gethostbyname urlparse_hostname token = None
        /\ App.start_target_scan gethostbyname urlparse_hostname now request s
           = (App.ServerError, s, None)).
Proof.
  split.
  - intros part hostname ips cache Hurl Hhost Hcache Herr.
    unfold Scanner.parse_part.
    assert (Ht : Py.truthy (Py.strip part) = true).
    { destruct (Py.strip part); [discriminate Hurl | reflexivity]. }
    rewrite Ht, Hurl, Hhost. cbn [negb].
    unfold Scanner.resolve_hostname. rewrite Hcache, Herr.
    now destruct (Py.truthy hostname).
  - intros token now request s Hclean Hurl Hcidr Hip Hdom Herr Htargets Hs.
    destruct (HostFacts.host_name_token token Hclean Hurl Hcidr Hip Hdom)
      as (Hidem & Ht & Hsep & Hurl' & Hcidr' & Hip' & Hhost).
    assert (Hparse : Scanner.parse_target_ips gethostbyname urlparse_hostname
                       token = None).
    { unfold Scanner.parse_target_ips, Py.re_split.
      change (Py.strip token) with (Py.join "," [Py.strip token]) at 1.
      rewrite TextFacts.re_split_join; [| reflexivity | discriminate |].
      - cbn [Scanner.parse_parts]. unfold Scanner.parse_part.
        rewrite Hidem, Ht, Hurl', Hcidr', Hip', Hhost, Hdom. cbn [negb].
        unfold Scanner.resolve_hostname. rewrite lookup_empty, Herr.
        reflexivity.
      - constructor; [| constructor]. split; [exact Ht | exact Hsep]. }
    split; [exact Hparse |]. unfold App.start_target_scan.
    now rewrite Hs, Htargets, Hparse.
Qed.

(** X19 at the host [example.com], once as a URL and once as a name with a
    port. *)
Lemma X19_resolver_error_url_or_host_witness :
  Scanner.parse_part (fun _ => Scanner.OtherError)
    (fun _ => Some (Some "example.com")) (["1.1.1.1"], ∅) "http://example.com/"
  = Some (["1.1.1.1"], ∅)
  /\ Scanner.parse_target_ips (fun _ => Scanner.OtherError)
       (fun _ => Some (Some "example.com")) "example.com:8080"
     = None.
Proof.
  destruct (X19_resolver_error_url_or_host (fun _ => Scanner.OtherError)
              (fun _ => Some (Some "example.com"))) as (Hurl & Hhost).
  split.
  - apply (Hurl _ "example.com");
      [reflexivity | reflexivity | apply lookup_empty | reflexivity].
  - apply (Hhost "example.com:8080" 0%Q
             {| App.targets := "example.com:8080"; App.t_ports := [80];
                App.t_take_screenshots := false;
                App.t_run_vuln_check := false |}
             Scanner.initial_scan_state); vm_compute; reflexivity.
Defined.

(** X20: a blank input names no target. An input that holds nothing but
    whitespace, commas and line breaks is parsed into the empty list, and
    [start_target_scan] rejects it, leaving the scan state as it is and
    creating no worker. *)
Theorem X20_blank_input_is_rejected
    (gethostbyname : string -> Scanner.Lookup)
    (urlparse_hostname : string -> option (option string))
    (now : Q) (request : App.TargetScanRequest) (s : Scanner.ScanState) :
  Props.blank (App.targets request) = true ->
  Scanner.parse_target_ips gethostbyname urlparse_hostname
                           (App.targets request) = Some []
  /\ Props.rejected s
       (App.start_target_scan gethostbyname urlparse_hostname now request s).
Proof.
  intros H.
  pose proof (BlankFacts.parse_target_ips_blank gethostbyname
                urlparse_hostname _ H) as Hparse.
  split; [exact Hparse |]. unfold Props.rejected, App.start_target_scan.
  destruct (Scanner.running s); [eauto |]. rewrite Hparse. eauto.
Qed.

(** X20 at an input of spaces, commas, a line break and the whitespace
    characters U+3000 and U+00A0. *)
Lemma X20_blank_input_is_rejected_witness :
  Props.rejected Scanner.initial_scan_state
    (App.start_target_scan Props.no_dns Props.no_host 0
       {| App.targets :=
            " , ,, " +:+ Props.padded (String "010"%char " ,");
          App.t_ports := [80]; App.t_take_screenshots := false;
          App.t_run_vuln_check := false |}
       Scanner.initial_scan_state).
Proof.
  apply (X20_blank_input_is_rejected Props.no_dns Props.no_host 0
           {| App.targets :=
                " , ,, " +:+ Props.padded (String "010"%char " ,");
              App.t_ports := [80]; App.t_take_screenshots := false;
              App.t_run_vuln_check := false |}
           Scanner.initial_scan_state).
  vm_compute. reflexivity.
Defined.

(* ===================================================================== *)
(** * scanner.py: where the targets come from *)
(* ===================================================================== *)

Module SourceFacts.
Import Py PyFacts IpAddress IpFacts Scanner Props.

Section Source.
Variable gethostbyname : string -> Lookup.
Variable urlparse_hostname : string -> option (option string).

Lemma resolve_hostname_sound (hostname : string)
    (cache cache' : gmap string (option string)) (resolved_ip : option string)
    (ips : list string) :
  cache_sound gethostbyname cache ->
  Forall (sourced gethostbyname) ips ->
  resolve_hostname gethostbyname hostname cache = Some (resolved_ip, cache') ->
  cache_sound gethostbyname cache'
  /\ Forall (sourced gethostbyname) (append_resolved ips resolved_ip).
Proof.
  intros Hcache Hips. unfold resolve_hostname.
  destruct (cache !! hostname) as [cached|] eqn:Hc.
  - intros H. injection H as <- <-. split; [exact Hcache |].
    unfold append_resolved. destruct cached as [ip|]; [| exact Hips].
    destruct (truthy ip); [| exact Hips].
    apply Forall_app. split; [exact Hips |]. constructor; [| constructor].
    right. exists hostname. now apply Hcache.
  - destruct (gethostbyname hostname) as [ip| |] eqn:Hg; [| | discriminate];
      intros H; injection H as <- <-.
    + split.
      * intros h ip' Hh. destruct (decide (h = hostname)) as [-> | Hne].
        -- rewrite lookup_insert_eq in Hh. injection Hh as <-. exact Hg.
        -- rewrite lookup_insert_ne in Hh by congruence. now apply Hcache.
      * unfold append_resolved. destruct (truthy ip); [| exact Hips].
        apply Forall_app. split; [exact Hips |]. constructor; [| constructor].
        right. now exists hostname.
    + split; [| exact Hips].
      intros h ip' Hh. destruct (decide (h = hostname)) as [-> | Hne].
      * rewrite lookup_insert_eq in Hh. discriminate.
      * rewrite lookup_insert_ne in Hh by congruence. now apply Hcache.
Qed.

Lemma parse_part_sound (acc acc' : list string * gmap string (option string))
    (part : string) :
  cache_sound gethostbyname (snd acc) ->
  Forall (sourced gethostbyname) (fst acc) ->
  parse_part gethostbyname urlparse_hostname acc part = Some acc' ->
  cache_sound gethostbyname (snd acc')
  /\ Forall (sourced gethostbyname) (fst acc').
Proof.
  destruct acc as [ips cache]. cbn [fst snd]. intros Hcache Hips.
  unfold parse_part.
  destruct (negb (truthy (strip part)));
    [intros H; injection H as <-; auto |].
  destruct (startswith (strip part) "http://"
            || startswith (strip part) "https://").
  - destruct (urlparse_hostname (strip part)) as [[hostname|]|];
      try (intros H; injection H as <-; auto).
    destruct (truthy hostname); [| intros H; injection H as <-; auto].
    destruct (resolve_hostname gethostbyname hostname cache)
      as [[resolved_ip cache']|] eqn:Hres;
      [| intros H; injection H as <-; auto].
    intros H. injection H as <-. cbn [fst snd].
    now apply (resolve_hostname_sound hostname cache).
  - destruct (cidr_case (strip part)) as [hosts|] eqn:Hcidr.
    + intros H. injection H as <-. cbn [fst snd]. split; [exact Hcache |].
      apply Forall_app. split; [exact Hips |].
      unfold cidr_case in Hcidr.
      destruct (contains_char "/"%char (strip part)); [| discriminate].
      destruct (make_IPv4Network (strip part) false) as [network|] eqn:Hnet;
        [| discriminate].
      destruct (prefixlen network <? 16); injection Hcidr as <-;
        [constructor |].
      apply NetworkFacts.make_IPv4Network_well_formed in Hnet.
      destruct (NetworkFacts.hosts_spec network Hnet) as [_ Hall].
      apply Forall_fmap. eapply Forall_impl; [exact Hall |].
      intros ip [_ Hip]. left. exists ip.
      now apply IPv4Address_string_from_ip_int.
    + destruct (IPv4Address (strip part)) as [ip|] eqn:Hip.
      * intros H. injection H as <-. cbn [fst snd]. split; [exact Hcache |].
        apply Forall_app. split; [exact Hips |]. constructor; [| constructor].
        apply TextFacts.IPv4Address_text in Hip as (_ & Haddr & _).
        left. exists ip. now apply IPv4Address_string_from_ip_int.
      * destruct (looks_like_domain (host_of (strip part)));
          [| intros H; injection H as <-; auto].
        destruct (resolve_hostname gethostbyname (host_of (strip part)) cache)
          as [[resolved_ip cache']|] eqn:Hres; [| discriminate].
        intros H. injection H as <-. cbn [fst snd].
        now apply (resolve_hostname_sound (host_of (strip part)) cache).
Qed.

Lemma parse_parts_sound (parts : list string)
    (acc acc' : list string * gmap string (option string)) :
  cache_sound gethostbyname (snd acc) ->
  Forall (sourced gethostbyname) (fst acc) ->
  parse_parts gethostbyname urlparse_hostname parts acc = Some acc' ->
  Forall (sourced gethostbyname) (fst acc').
Proof.
  revert acc. induction parts as [|part rest IH]; intros acc Hcache Hips;
    cbn [parse_parts].
  - intros H. now injection H as <-.
  - destruct (parse_part gethostbyname urlparse_hostname acc part)
      as [acc1|] eqn:Hpart; [| discriminate].
    destruct (parse_part_sound acc acc1 part Hcache Hips Hpart) as [Hc1 Hi1].
    now apply IH.
Qed.

End Source.

End SourceFacts.

(** X21: [parse_target_ips] invents no target. Every address of the list
    it returns is either the text of an IPv4 address (it came from a
    literal or from a CIDR block of the input) or the answer of the
    resolver for some host name. In particular, when the resolver knows no
    name, every target is a well-formed dotted quad. *)
Theorem X21_parse_target_ips_sources
    (gethostbyname : string -> Scanner.Lookup)
    (urlparse_hostname : string -> option (option string))
    (target_input : string) (ips : list string) :
  Scanner.parse_target_ips gethostbyname urlparse_hostname target_input
  = Some ips ->
  Forall (Props.sourced gethostbyname) ips
  /\ ((forall hostname ip, gethostbyname hostname <> Scanner.Resolved ip) ->
      Forall (fun ip => is_Some (IpAddress.IPv4Address ip)) ips).
Proof.
  unfold Scanner.parse_target_ips. intros H.
  destruct (Scanner.parse_parts _ _ _ _) as [acc|] eqn:Hparts; [| discriminate].
  injection H as <-.
  assert (Hc0 : Props.cache_sound gethostbyname
                  (snd (([] : list string), (∅ : gmap string (option string))))).
  { intros hostname ip Hc. cbn [snd] in Hc. now rewrite lookup_empty in Hc. }
  pose proof (SourceFacts.parse_parts_sound gethostbyname urlparse_hostname
                _ _ acc Hc0 (Forall_nil_2 _) Hparts) as Hall.
  split; [exact Hall |]. intros Hnone.
  eapply Forall_impl; [exact Hall |].
  intros ip [Hip | (hostname & Hres)]; [exact Hip |].
  now destruct (Hnone hostname ip).
Qed.

(** X21 at an input that mixes a literal, a block, a name and a URL. *)
Lemma X21_parse_target_ips_sources_witness :
  Forall (Props.sourced Props.no_dns)
         ["8.8.8.8"; "10.20.30.1"; "10.20.30.2"].
Proof.
  apply (X21_parse_target_ips_sources Props.no_dns Props.no_host
           "8.8.8.8, 10.20.30.0/30, example.com, http://example.org/").
  vm_compute. reflexivity.
Defined.

(* ===================================================================== *)
(** * vuln_scanner.py: findings without a known risk *)
(* ===================================================================== *)

Module SummaryFacts.
Import Py VulnScanner Props VulnFacts ScanFacts.

Lemma level_ok_iff (risk : string) : level_ok risk = true <-> is_level risk.
Proof.
  split; [apply level_ok_level |]. unfold level_ok, is_level. intros H.
  apply existsb_exists. exists risk. split; [exact H | apply String.eqb_refl].
Qed.

Lemma count_of_known (level : string) (findings : list Finding) :
  is_level level ->
  count_of level (List.filter (fun f => level_ok (risk_of f)) findings)
  = count_of level findings.
Proof.
  intros Hl. induction findings as [|f findings IH]; [reflexivity |].
  cbn [List.filter count_of]. destruct (level_ok (risk_of f)) eqn:Hf.
  - cbn [count_of]. now rewrite IH.
  - rewrite IH. destruct (String.eqb_spec (risk_of f) level) as [Heq | _];
      [| lia].
    apply level_ok_iff in Hl. congruence.
Qed.

Lemma initial_risk_counts_keys (k : string) :
  level_ok k = false -> initial_risk_counts !! k = None.
Proof.
  unfold level_ok, RISK_LEVELS. cbn [existsb]. intros H.
  repeat (apply orb_false_iff in H as [?%String.eqb_neq H]).
  unfold initial_risk_counts. cbn [list_to_map foldr uncurry fst snd].
  now rewrite !lookup_insert_ne, lookup_empty by congruence.
Qed.

Lemma known_counts (findings : list Finding) :
  Forall (fun f => is_level (risk_of f)) findings ->
  count_of "critical" findings + count_of "high" findings
  + count_of "medium" findings + count_of "low" findings
  + count_of "info" findings = Z.of_nat (length findings).
Proof.
  induction 1 as [|f findings Hlevel _ IH]; [reflexivity |].
  cbn [count_of length].
  unfold is_level, RISK_LEVELS in Hlevel. cbn [In] in Hlevel.
  destruct Hlevel as [<- | [<- | [<- | [<- | [<- | []]]]]];
    cbn [String.eqb Ascii.eqb Bool.eqb]; lia.
Qed.

End SummaryFacts.

(** X22: a finding whose risk is none of the five levels is counted in the
    total of [summarize_vulns] and nowhere else. The risk counts and the
    highest risk of a summary are those of the findings with a known risk
    (a finding without a risk counts as info); the total exceeds the sum
    of the five counts by the number of findings with an unknown risk. *)
Theorem X22_summarize_vulns_unknown_risk (findings : list VulnScanner.Finding) :
  let known :=
    List.filter (fun f => Props.level_ok (Props.risk_of f)) findings in
  let unknown :=
    List.filter (fun f => negb (Props.level_ok (Props.risk_of f))) findings in
  let summary := VulnScanner.summarize_vulns findings in
  let count level := default 0 (VulnScanner.risk_counts summary !! level) in
  VulnScanner.risk_counts summary
  = VulnScanner.risk_counts (VulnScanner.summarize_vulns known)
  /\ VulnScanner.max_risk summary
     = VulnScanner.max_risk (VulnScanner.summarize_vulns known)
  /\ VulnScanner.total summary
     = count "critical" + count "high" + count "medium" + count "low"
       + count "info" + Z.of_nat (length unknown).
Proof.
  intros known unknown summary count.
  assert (Hcount : forall level, Props.is_level level ->
            Props.count_of level known = Props.count_of level findings)
    by (intros level Hl; now apply SummaryFacts.count_of_known).
  split; [| split].
  - apply map_eq. intros k. subst summary.
    destruct (Props.level_ok k) eqn:Hk.
    + apply SummaryFacts.level_ok_iff in Hk.
      now rewrite !VulnFacts.summarize_counts, Hcount by exact Hk.
    + unfold VulnScanner.summarize_vulns. cbn [VulnScanner.risk_counts].
      now rewrite !VulnFacts.fold_count_risk,
        (SummaryFacts.initial_risk_counts_keys k Hk).
  - subst summary. rewrite !VulnFacts.summarize_max_risk.
    rewrite !Hcount by (unfold Props.is_level, VulnScanner.RISK_LEVELS; cbn [In]; tauto). reflexivity.
  - subst count summary. cbn beta.
    rewrite !VulnFacts.summarize_counts by (unfold Props.is_level, VulnScanner.RISK_LEVELS; cbn [In]; tauto).
    cbn [default from_option]. unfold id.
    rewrite <- !Hcount by (unfold Props.is_level, VulnScanner.RISK_LEVELS; cbn [In]; tauto).
    rewrite SummaryFacts.known_counts.
    + unfold VulnScanner.summarize_vulns. cbn [VulnScanner.total].
      subst known unknown. rewrite <- (List.filter_length
        (fun f => Props.level_ok (Props.risk_of f)) findings). lia.
    + subst known. apply Forall_forall. intros f Hf.
      apply list_elem_of_In, filter_In in Hf as [_ Hf].
      now apply SummaryFacts.level_ok_iff.
Qed.

(* ===================================================================== *)
(** * scanner.py: what the workers probe *)
(* ===================================================================== *)

Module ReachFacts.
Import Py PyFacts Scanner App Props WorkerFacts.

Lemma all_tasks_of_in (target_ips : list string) (ports : list Z)
    (ip : string) (port : Z) :
  In (ip, port) (all_tasks_of target_ips ports) <->
  In ip target_ips /\ In port ports.
Proof.
  unfold all_tasks_of. rewrite in_flat_map. split.
  - intros (x & Hx & Hin). apply in_map_iff in Hin as (p & Heq & Hp).
    injection Heq as <- <-. auto.
  - intros [Hip Hport]. exists ip. split; [exact Hip |].
    apply in_map_iff. now exists port.
Qed.

Section Reach.
Variable w : World.

(** The loop over the batches of the target worker dispatches a first
    stretch of the batches, in order, in any world. *)
Lemma scan_target_loop_reach (batches : list (list (string * Z)))
    (take_screenshots run_vuln_check : bool) (rate_counter : Z) (rate_start : Q)
    (r : Run) :
  exists r' extra,
    scan_target_loop w batches take_screenshots run_vuln_check
                     rate_counter rate_start r = Some (tt, r')
    /\ trace r' = trace r ++ extra
    /\ dispatched extra `prefix_of` batches.
Proof.
  revert rate_counter rate_start r.
  induction batches as [|batch rest IH]; intros rate_counter rate_start r.
  - exists r, []. cbn [scan_target_loop]. exec. rewrite app_nil_r.
    repeat split. apply prefix_nil.
  - cbn [scan_target_loop]. exec.
    destruct (running (scan_state r)); cbn [negb].
    2:{ exists r, []. rewrite app_nil_r. repeat split. apply prefix_nil. }
    destruct (scan_target_round_spec w batch take_screenshots run_vuln_check
                rate_counter rate_start r)
      as ([rc rs] & r1 & results & extra1 & Hrun & Htr & _ & Hq & _).
    rewrite Hrun.
    destruct (IH rc rs r1) as (r2 & extra2 & Hrun2 & Htr2 & Hpre).
    rewrite Hrun2.
    exists r2, (ObsDispatch batch :: ObsJoin results :: extra1 ++ extra2).
    split; [reflexivity |].
    split; [rewrite Htr2, Htr, <- app_assoc; reflexivity |].
    cbn [dispatched]. rewrite dispatched_app, (quiet_dispatched _ Hq).
    cbn [app]. now apply prefix_cons.
Qed.

Variable draw_fuel : nat.

Lemma build_tasks_global (n : nat) (ports : list Z)
    (tasks0 tasks : list (string * Z)) (r r' : Run) :
  build_tasks w draw_fuel n ports tasks0 r = Some (tasks, r') ->
  Forall (global_task ports) tasks0 ->
  Forall (global_task ports) tasks
  /\ scan_state r' = scan_state r /\ trace r' = trace r.
Proof.
  revert tasks0 r. induction n as [|n IH]; intros tasks0 r;
    cbn [build_tasks]; exec.
  - intros H. injection H as <- <-. auto.
  - destruct (running (scan_state r)); cbn [negb].
    2:{ intros H. injection H as <- <-. auto. }
    unfold random_ip.
    destruct (IpGenerator.generate_random_ip draw_fuel (entropy w) (draws r))
      as [[ip k]|] eqn:Hip; [| discriminate].
    intros H H0. apply IH in H; [exact H |].
    apply Forall_app. split; [exact H0 |].
    apply GeneratorFacts.generate_random_ip_draw in Hip
      as (j & _ & _ & -> & Hv).
    apply Forall_forall. intros task Htask.
    apply list_elem_of_In, in_map_iff in Htask as (port & <- & Hport).
    split; [exact Hport |]. cbn [fst]. eexists. split; [reflexivity |].
    split; [apply GeneratorFacts.randint_bounds; lia | exact Hv].
Qed.

Lemma scan_worker_round_global (ports : list Z)
    (take_screenshots run_vuln_check : bool) (rate_counter : Z) (rate_start : Q)
    (r r' : Run) (rate : Z * Q) :
  scan_worker_round w draw_fuel ports take_screenshots run_vuln_check
                    rate_counter rate_start r = Some (rate, r') ->
  exists tasks results extra,
    trace r' = trace r ++ ObsDispatch tasks :: ObsJoin results :: extra
    /\ quiet extra = true
    /\ Forall (global_task ports) tasks.
Proof.
  unfold scan_worker_round. exec.
  destruct (build_tasks w draw_fuel 50 ports [] r) as [[tasks r0]|] eqn:Hb;
    [| discriminate].
  apply build_tasks_global in Hb as (Hgood & _ & Ht0); [| constructor]. exec.
  match goal with |- context [handle_results w ?results ?r1] =>
    destruct (handle_results_spec w results r1)
      as (r2 & extra & Hrun & Htr & Hq & _);
    set (rs := results) in * end.
  cbn [scan_state trace] in *. rewrite Hrun. exec.
  destruct (Qle_bool 1 _); exec; intros H; injection H as <- <-;
    cbn [trace scan_state].
  - eexists tasks, rs, (extra ++ [_]).
    split; [rewrite Htr, Ht0, <- !app_assoc; reflexivity |].
    split; [apply quiet_app; [exact Hq | reflexivity] | exact Hgood].
  - exists tasks, rs, extra.
    split; [rewrite Htr, Ht0, <- !app_assoc; reflexivity |].
    split; [exact Hq | exact Hgood].
Qed.

Lemma scan_worker_loop_global (rounds : nat) (ports : list Z)
    (take_screenshots run_vuln_check : bool) (rate_counter : Z) (rate_start : Q)
    (r r' : Run) :
  scan_worker_loop w draw_fuel rounds ports take_screenshots run_vuln_check
                   rate_counter rate_start r = Some (tt, r') ->
  exists extra, trace r' = trace r ++ extra
                /\ Forall (Forall (global_task ports)) (dispatched extra).
Proof.
  revert rate_counter rate_start r.
  induction rounds as [|rounds IH]; intros rate_counter rate_start r;
    cbn [scan_worker_loop]; exec;
    destruct (running (scan_state r)); cbn [negb]; try discriminate;
    try (intros H; injection H as <-; exists []; rewrite app_nil_r;
         split; [reflexivity | constructor]).
  destruct (scan_worker_round w draw_fuel ports take_screenshots
              run_vuln_check rate_counter rate_start r)
    as [[[rc rs] r1]|] eqn:Hround; [| discriminate].
  apply scan_worker_round_global in Hround
    as (tasks & results & extra1 & Htr & Hq & Hgood).
  intros H. apply IH in H as (extra2 & Htr2 & Hall).
  exists (ObsDispatch tasks :: ObsJoin results :: extra1 ++ extra2).
  split; [rewrite Htr2, Htr, <- app_assoc; reflexivity |].
  cbn [dispatched]. rewrite dispatched_app, (quiet_dispatched _ Hq).
  cbn [app]. now constructor.
Qed.

End Reach.

End ReachFacts.

(** X23: the random worker probes only addresses that the address filter
    accepts, on the requested ports. In every batch that [scan_worker]
    dispatches, during a single round or during a whole run, each probe
    pairs a requested port with the text of an integer of [1, 0xFFFFFFFE]
    for which [is_valid_global_ip] holds; this needs no assumption on the
    stop requests. *)
Theorem X23_random_worker_probes_global_addresses (w : Scanner.World)
    (draw_fuel : nat) (ports : list Z) (take_screenshots run_vuln_check : bool)
    (r : Scanner.Run) :
  (forall rate_counter rate_start rate r',
     Scanner.scan_worker_round w draw_fuel ports take_screenshots
       run_vuln_check rate_counter rate_start r = Some (rate, r') ->
     exists extra,
       Scanner.trace r' = Scanner.trace r ++ extra
       /\ Forall (Forall (Props.global_task ports)) (Props.dispatched extra))
  /\ (forall rounds r',
        Scanner.scan_worker w draw_fuel rounds ports take_screenshots
                            run_vuln_check r = Some (tt, r') ->
        exists extra,
          Scanner.trace r' = Scanner.trace r ++ extra
          /\ Forall (Forall (Props.global_task ports)) (Props.dispatched extra)).
Proof.
  split.
  - intros rate_counter rate_start rate r' Hround.
    apply ReachFacts.scan_worker_round_global in Hround
      as (tasks & results & extra & Htr & Hq & Hgood).
    exists (Scanner.ObsDispatch tasks :: Scanner.ObsJoin results :: extra).
    split; [exact Htr |]. cbn [Props.dispatched].
    rewrite (WorkerFacts.quiet_dispatched _ Hq). now repeat constructor.
  - intros rounds r'. unfold Scanner.scan_worker. WorkerFacts.exec.
    match goal with
    | |- context [Scanner.scan_worker_loop w draw_fuel ?n ?p ?a ?b ?c ?d ?r1] =>
        destruct (Scanner.scan_worker_loop w draw_fuel n p a b c d r1)
          as [[[] r2]|] eqn:Hloop; [| discriminate]
    end.
    apply ReachFacts.scan_worker_loop_global in Hloop as (extra & Htr & Hall).
    cbn [Scanner.trace] in Htr. WorkerFacts.exec.
    intros H. injection H as <-. cbn [Scanner.trace].
    eexists (extra ++ [_]). split; [rewrite Htr, <- app_assoc; reflexivity |].
    rewrite WorkerFacts.dispatched_app. cbn [Props.dispatched].
    now rewrite app_nil_r.
Qed.

(** X23 at a run on port 80 that is stopped during its fourth
    suspension. *)
Lemma X23_random_worker_probes_global_addresses_witness :
  exists r' extra,
    Scanner.scan_worker (Props.steady_world (Props.stop_during 3)) 1 4 [80]
                        false false Props.random_start = Some (tt, r')
    /\ Scanner.trace r' = Scanner.trace Props.random_start ++ extra
    /\ Forall (Forall (Props.global_task [80])) (Props.dispatched extra).
Proof.
  destruct (Scanner.scan_worker (Props.steady_world (Props.stop_during 3))
              1 4 [80] false false Props.random_start) as [[[] r']|] eqn:H;
    [| vm_compute in H; discriminate].
  destruct (X23_random_worker_probes_global_addresses
              (Props.steady_world (Props.stop_during 3)) 1 [80] false false
              Props.random_start) as [_ Hrun].
  destruct (Hrun 4%nat r' H) as (extra & Htr & Hall).
  exists r', extra. auto.
Defined.

(** X24: the target worker probes nothing but the requested targets. In
    any world, whatever the other tasks do to the scan state, the worker
    finishes, the batches it dispatches are a first stretch of the batches
    of the queue, in order, and every probe pairs an address of the
    request with a port of the request. *)
Theorem X24_target_worker_probes_requested_targets (w : Scanner.World)
    (target_ips : list string) (ports : list Z)
    (take_screenshots run_vuln_check : bool) (r : Scanner.Run) :
  exists r' extra,
    Scanner.scan_target_worker w target_ips ports take_screenshots
                               run_vuln_check r = Some (tt, r')
    /\ Scanner.trace r' = Scanner.trace r ++ extra
    /\ Props.dispatched extra
       `prefix_of` Scanner.target_batches
                     (Scanner.all_tasks_of target_ips ports)
    /\ forall batch ip port,
         In batch (Props.dispatched extra) -> In (ip, port) batch ->
         In ip target_ips /\ In port ports.
Proof.
  unfold Scanner.scan_target_worker. WorkerFacts.exec.
  match goal with
  | |- context [Scanner.scan_target_loop w ?bs ?a ?b ?c ?d ?r1] =>
      destruct (ReachFacts.scan_target_loop_reach w bs a b c d r1)
        as (r2 & extra & Hrun & Htr & Hpre)
  end.
  cbn [Scanner.trace] in Htr. rewrite Hrun. WorkerFacts.exec.
  eexists _, (extra ++ [_]). split; [reflexivity |]. cbn [Scanner.trace].
  split; [rewrite Htr, <- app_assoc; reflexivity |].
  rewrite WorkerFacts.dispatched_app. cbn [Props.dispatched].
  rewrite app_nil_r. split; [exact Hpre |].
  intros batch ip port Hbatch Hin.
  apply ReachFacts.all_tasks_of_in.
  destruct (WorkerFacts.target_batches_spec
              (Scanner.all_tasks_of target_ips ports)) as (<- & _).
  apply in_concat. exists batch. split; [| exact Hin].
  destruct Hpre as [rest ->]. apply in_or_app. now left.
Qed.

(** X24 at a run over two addresses and two ports that is stopped during
    its second suspension. *)
Lemma X24_target_worker_probes_requested_targets_witness :
  exists r' extra,
    Scanner.scan_target_worker (Props.answering_world (Props.stop_during 1))
      ["1.1.1.1"; "8.8.8.8"] [80; 443] false false Props.target_start
    = Some (tt, r')
    /\ Scanner.trace r' = Scanner.trace Props.target_start ++ extra
    /\ Props.dispatched extra
       `prefix_of` Scanner.target_batches
                     (Scanner.all_tasks_of ["1.1.1.1"; "8.8.8.8"] [80; 443]).
Proof.
  destruct (X24_target_worker_probes_requested_targets
              (Props.answering_world (Props.stop_during 1))
              ["1.1.1.1"; "8.8.8.8"] [80; 443] false false Props.target_start)
    as (r' & extra & Hrun & Htr & Hpre & _).
  exists r', extra. auto.
Defined.
